(** * lil: a URL shortener with OAuth login

    A shallow embedding of the Go packages [lil] (domain types), [generate]
    (key generator), [sqlite] (services over the relational store) and
    [http] (session handling and handlers), followed by the properties of
    the natural-language specification that can be stated over them.

    Conventions.  A Go [int] is a [Z]; a Go [string] is a [string]; a Go
    [error] is [option error] where only an error is returned and
    [result A] where a value comes with it; a struct is a record; a
    [*sql.Tx] is the table contents it works on, and a rollback is the
    return of the contents the transaction started from. *)

From Stdlib Require Import ZArith List String Ascii Bool Lia Arith PeanoNat.
From Stdlib Require Permutation.
From Stdlib.Strings Require Import Byte.
From Stdlib.Numbers Require Import DecimalString.
Import ListNotations.

Local Open Scope string_scope.
Local Open Scope Z_scope.
Local Open Scope list_scope.

(* ------------------------------------------------------------------ *)
(** ** Package lil: errors, users, shorts                               *)
(* ------------------------------------------------------------------ *)

Module Lil.

(** Modelled from the spec: the error kinds of the application (the
    file declaring them is not among the sources); section 7 lists
    exactly these six. *)
Inductive Code : Set :=
| ECONFLICT | EINTERNAL | EINVALID | ENOTFOUND | ENOTIMPLEMENTED | EUNAUTHORIZED.

(** A Go [error] value: either an application error built by
    [lil.Errorf], or any other error ([fmt.Errorf], a driver or a
    library error), of which only the text is kept. *)
Inductive error : Set :=
| AppError (code : Code) (message : string)
| GoError (message : string).

Definition Errorf (code : Code) (message : string) : error :=
  AppError code message.

(** Modelled from the spec: [lil.ErrorCode]; an error that is not an
    application error is INTERNAL (section 7). *)
Definition ErrorCode (e : error) : Code :=
  match e with
  | AppError c _ => c
  | GoError _ => EINTERNAL
  end.

(** The text of an error, as [%s] prints it. *)
Definition error_text (e : error) : string :=
  match e with
  | AppError _ m => m
  | GoError m => m
  end.

(** [fmt.Errorf(prefix + "%s", err)]. *)
Definition fmt_Errorf (prefix : string) (err : error) : error :=
  GoError (prefix ++ error_text err)%string.

Inductive result (A : Type) : Type :=
| Ok (a : A)
| Err (e : error).
Arguments Ok {A} a.
Arguments Err {A} e.

(** [time.Time] as seconds; the zero time is [0]. *)
Definition Time := Z.

(** [lil.User] (user.go).  The [Auths] association list is left out: no
    function below reads it. *)
Record User : Set := mkUser {
  ID : Z;
  Name : string;
  Email : string;
  APIKey : string;
  User_CreatedAt : Time;
  User_UpdatedAt : Time
}.

(** [User.Validate] (user.go). *)
Definition User_Validate (u : User) : option error :=
  if (Name u =? "")%string then Some (Errorf EINVALID "User name required.")
  else None.

(** The request context: the only value the code stores in it that
    matters here is the authenticated user. *)
Record Context : Set := mkContext { ctx_user : option User }.

Definition Background : Context := {| ctx_user := None |}.

Definition NewContextWithUser (ctx : Context) (u : User) : Context :=
  {| ctx_user := Some u |}.

(** Modelled from the spec: [lil.UserIDFromContext]; the id of the
    user carried by the context, [0] for an anonymous caller
    (section 3, SessionToken). *)
Definition UserIDFromContext (ctx : Context) : Z :=
  match ctx_user ctx with
  | Some u => ID u
  | None => 0
  end.

(** Go's [url.Userinfo]: the user name, and the password when one is
    set. *)
Record Userinfo : Set := mkUserinfo {
  username : string;
  password : option string
}.

(** Go's [url.URL], field by field; [User_info] is its field [User],
    [None] for a nil pointer. *)
Record URL : Set := mkURL {
  Scheme : string;
  Opaque : string;
  User_info : option Userinfo;
  Host : string;
  Path : string;
  RawPath : string;
  OmitHost : bool;
  ForceQuery : bool;
  RawQuery : string;
  Fragment : string;
  RawFragment : string
}.

(** [lil.Short]. *)
Record Short : Set := mkShort {
  Short_URL : URL;
  Key : string;
  Owner : option User;
  OwnerID : Z;
  CreatedAt : Time;
  UpdatedAt : Time
}.

(** [lil.ShortFilter]; a nil pointer is [None]. *)
Record ShortFilter : Set := mkShortFilter {
  Filter_Key : option string;
  Filter_URL : option URL;
  Offset : Z;
  Limit : Z
}.

Definition ErrEmptyURL := Errorf EINVALID "Missing URL.".
Definition ErrEmptyKey := Errorf EINVALID "Missing Key.".
Definition ErrEmptyOwner := Errorf EINVALID "Missing owner.".
Definition ErrInvalidURLScheme :=
  Errorf EINVALID "Invalid URL scheme. Only http and https are supported.".

Section Validate.
(** [url.URL.String] belongs to Go's standard library; the development
    is parametric in it. *)
Variable URL_String : URL -> string.

(** [Short.Validate]. *)
Definition Validate (s : Short) : option error :=
  if (URL_String (Short_URL s) =? "")%string then Some ErrEmptyURL
  else if negb (Scheme (Short_URL s) =? "https")%string
          && negb (Scheme (Short_URL s) =? "http")%string
  then Some ErrInvalidURLScheme
  else if (Key s =? "")%string then Some ErrEmptyKey
  else if OwnerID s =? 0 then Some ErrEmptyOwner
  else None.
End Validate.

(** [lil.CanEditShort]: only the short owner can delete the short. *)
Definition CanEditShort (ctx : Context) (short : Short) : bool :=
  OwnerID short =? UserIDFromContext ctx.

(** Modelled from the spec: the provider tags of the [lil.Auth] source
    field (section 3: "github", "google"); the file declaring them is
    not among the sources. *)
Definition AuthSourceGitHub : string := "github".
Definition AuthSourceGoogle : string := "google".

(** [lil.Auth] as the handlers build it: the fields they set and read. *)
Record Auth : Set := mkAuth {
  Auth_ID : Z;
  UserID : Z;
  Auth_User : option User;
  Source : string;
  SourceID : string;
  AccessToken : string;
  RefreshToken : string;
  Expiry : option Time
}.

(** [lil.UserFilter] (user.go). *)
Record UserFilter : Set := mkUserFilter {
  UserFilter_ID : option Z;
  UserFilter_Email : option string;
  UserFilter_APIKey : option string;
  UserFilter_Offset : Z;
  UserFilter_Limit : Z
}.

End Lil.

(* ------------------------------------------------------------------ *)
(** ** Package generate: random keys over an alphabet                   *)
(* ------------------------------------------------------------------ *)

Module Generate.
Import Lil.

(** The system random source, as the tape of bytes it will deliver.  A
    read that the tape cannot serve is the failure of the source. *)
Definition Rand := list byte.

(** What a call can end in: a value, an error, or a run-time panic. *)
Inductive outcome (A : Type) : Type :=
| Done (a : A)
| Failed (e : error)
| Panic (what : string).
Arguments Done {A} a.
Arguments Failed {A} e.
Arguments Panic {A} what.

(** [generateRandomBytes]; [make] panics on a negative length. *)
Definition generateRandomBytes (n : Z) (rnd : Rand) : outcome (list byte) * Rand :=
  if n <? 0 then (Panic "makeslice: len out of range", rnd)
  else
    let k := Z.to_nat n in
    if (k <=? List.length rnd)%nat then (Done (firstn k rnd), skipn k rnd)
    else (Failed (GoError "crypto/rand: read failed"), rnd).

Section Runes.
(** The alphabet after the [[]rune] conversion. *)
Context {rune : Type}.

(** [int(b) % len(arune)], for a non-empty alphabet. *)
Definition symbolIndex (arune : list rune) (b : byte) : nat :=
  (Byte.to_nat b mod List.length arune)%nat.

(** [arune[int(b)%len(arune)]]; [None] is the division by zero on an
    empty alphabet. *)
Definition runeAt (arune : list rune) (b : byte) : option rune :=
  match arune with
  | [] => None
  | _ :: _ => nth_error arune (symbolIndex arune b)
  end.

(** The loop over the random bytes, writing one rune for each. *)
Fixpoint writeRunes (arune : list rune) (bytes : list byte) (out : list rune)
  : option (list rune) :=
  match bytes with
  | [] => Some out
  | b :: rest =>
      match runeAt arune b with
      | Some r => writeRunes arune rest (out ++ [r])
      | None => None
      end
  end.

(** [SecureStringFromAlphabet]. *)
Definition SecureStringFromAlphabet (n : Z) (arune : list rune) (rnd : Rand)
  : outcome (list rune) * Rand :=
  match generateRandomBytes n rnd with
  | (Done bytes, rnd') =>
      match writeRunes arune bytes [] with
      | Some out => (Done out, rnd')
      | None => (Panic "integer divide by zero", rnd')
      end
  | (Failed e, rnd') => (Failed e, rnd')
  | (Panic w, rnd') => (Panic w, rnd')
  end.

(** Every value of a byte, in increasing order. *)
Definition all_bytes : list byte :=
  Eval vm_compute in
    flat_map (fun k => match Byte.of_nat k with Some b => [b] | None => [] end)
             (seq 0 256).

(** The number of byte values that select the symbol at index [i]. *)
Definition preimages (arune : list rune) (i : nat) : nat :=
  List.length (filter (fun b => (symbolIndex arune b =? i)%nat) all_bytes).

(** No modulo bias: under a uniformly random byte every symbol of the
    alphabet is as likely as every other. *)
Definition no_modulo_bias (arune : list rune) : Prop :=
  forall i j, (i < List.length arune)%nat -> (j < List.length arune)%nat ->
              preimages arune i = preimages arune j.
End Runes.

(** Counting the residues [i] modulo [L] below [N]. *)
Definition residues (L i N : nat) : nat :=
  List.length (filter (fun k => (k mod L =? i)%nat) (seq 0 N)).

(** [DefaultAlphabet] of the command's configuration, with
    [DefaultKeyLength]. *)
Definition DefaultAlphabet : string :=
  "abcdefghijklmnopqrstuvwxyzABCDEFGHIJKLMNOPQRSTUVWXYZ0123456789".
Definition DefaultKeyLength : Z := 6.

End Generate.

(* ------------------------------------------------------------------ *)
(** ** Package sqlite: the store and the services over it               *)
(* ------------------------------------------------------------------ *)

Module Sqlite.
Import Lil.

(** *** Tables (migration 000000000.sql) *)

(** A row of [users]; [email] is the only nullable column. *)
Record UserRow : Set := mkUserRow {
  users_id : Z;
  users_name : string;
  users_email : option string;
  users_api_key : string;
  users_created_at : Time;
  users_updated_at : Time
}.

(** A row of [auths]. *)
Record AuthRow : Set := mkAuthRow {
  auths_id : Z;
  auths_user_id : Z;
  auths_source : string;
  auths_source_id : string;
  auths_access_token : string;
  auths_refresh_token : string;
  auths_expiry : option Time;
  auths_created_at : Time;
  auths_updated_at : Time
}.

(** A row of [shorts]. *)
Record ShortRow : Set := mkShortRow {
  shorts_key : string;
  shorts_url : URL;
  shorts_owner_id : Z;
  shorts_created_at : Time;
  shorts_updated_at : Time
}.

(** The database: each table as the list of its rows in insertion
    order, and the two AUTOINCREMENT counters. *)
Record DB : Set := mkDB {
  users : list UserRow;
  auths : list AuthRow;
  shorts : list ShortRow;
  users_seq : Z;
  auths_seq : Z
}.

Definition empty_db : DB :=
  {| users := []; auths := []; shorts := []; users_seq := 0; auths_seq := 0 |}.

Definition set_shorts (db : DB) (l : list ShortRow) : DB :=
  {| users := users db; auths := auths db; shorts := l;
     users_seq := users_seq db; auths_seq := auths_seq db |}.

Definition set_auths (db : DB) (l : list AuthRow) : DB :=
  {| users := users db; auths := l; shorts := shorts db;
     users_seq := users_seq db; auths_seq := auths_seq db |}.

(** The errors a statement can fail with: a constraint of the schema,
    or an argument that [database/sql] cannot convert to a driver
    value (the statement is then not run). *)
Inductive SqlError : Set :=
| UniqueConstraintFailed (columns : string)
| ForeignKeyConstraintFailed
| ConvertingArgument (ordinal : string) (what : string).

(** Modelled from the spec: [FormatError] of the sqlite package (not
    among the sources); a duplicate short key becomes CONFLICT with the
    message the package's test expects, every other driver error stays
    a plain error (INTERNAL, section 7). *)
Definition FormatError (e : SqlError) : error :=
  match e with
  | UniqueConstraintFailed cols =>
      if (cols =? "shorts.key")%string
      then Errorf ECONFLICT "Short with the same key already exists."
      else GoError ("UNIQUE constraint failed: " ++ cols)%string
  | ForeignKeyConstraintFailed => GoError "FOREIGN KEY constraint failed"
  | ConvertingArgument ordinal what =>
      GoError ("sql: converting argument " ++ ordinal ++ " type: " ++ what)%string
  end.

(** Modelled from the spec: [FormatLimitOffset] of the sqlite package
    (not among the sources), as the window its LIMIT/OFFSET clause cuts
    out of the matching rows (section 4.4, [Find]): a positive offset
    skips that many rows, a positive limit bounds the number of rows
    returned, and any other value imposes nothing. *)
Definition FormatLimitOffset {A : Type} (limit offset : Z) (rows : list A) : list A :=
  let rows := if 0 <? offset then skipn (Z.to_nat offset) rows else rows in
  if 0 <? limit then firstn (Z.to_nat limit) rows else rows.

(** *** Statements on [shorts] *)

(** INSERT INTO shorts: [key] is the primary key, [owner_id] references
    [users (id)].  Foreign keys are enforced, as the ownership rules of
    the spec (section 3) require. *)
Definition insertShort (row : ShortRow) (db : DB) : DB + SqlError :=
  if existsb (fun r => (shorts_key r =? shorts_key row)%string) (shorts db)
  then inr (UniqueConstraintFailed "shorts.key")
  else if negb (existsb (fun u => users_id u =? shorts_owner_id row) (users db))
  then inr ForeignKeyConstraintFailed
  else inl (set_shorts db (shorts db ++ [row])).

(** DELETE FROM shorts WHERE key = ? *)
Definition deleteShortRows (key : string) (db : DB) : DB :=
  set_shorts db (filter (fun r => negb (shorts_key r =? key)%string) (shorts db)).

(** The arguments [findShorts] appends for the filter, as
    [database/sql] converts them before it runs the query.  The key is
    a string.  The URL is appended as the [url.URL] struct itself
    ([*v], not [DBUrl] as in the INSERT of [createShort]): a struct
    that is no [driver.Valuer] is no driver value, so the conversion
    of that argument fails; it is the second argument when the key is
    set too, else the first. *)
Definition shorts_args (f : ShortFilter) : option SqlError :=
  match Filter_URL f with
  | Some _ =>
      Some (ConvertingArgument
              match Filter_Key f with Some _ => "$2" | None => "$1" end
              "unsupported type url.URL, a struct")
  | None => None
  end.

(** The WHERE clause of a query of [findShorts] that runs: [1 = 1],
    then [key = ?] when the key of the filter is set.  The clause
    [url = ?] comes only with the argument that stops the query
    ([shorts_args]), so it never selects a row. *)
Definition shorts_where (f : ShortFilter) (r : ShortRow) : bool :=
  true
  && match Filter_Key f with
     | Some v => (shorts_key r =? v)%string
     | None => true
     end.

(** [tx.QueryContext] of [findShorts]: the error of the arguments, or
    the matching rows in table order, cut by LIMIT/OFFSET, each with
    the window count [COUNT( * ) OVER()] of all the matching rows. *)
Definition selectShorts (tx : DB) (f : ShortFilter) : list (ShortRow * Z) + SqlError :=
  match shorts_args f with
  | Some err => inr err
  | None =>
      let matching := filter (shorts_where f) (shorts tx) in
      inl (map (fun r => (r, Z.of_nat (List.length matching)))
               (FormatLimitOffset (Limit f) (Offset f) matching))
  end.

(** [rows.Scan] into a fresh [lil.Short].  The columns [url],
    [created_at] and [updated_at] are TEXT: the INSERT writes them
    through [DBUrl] and [NullTime] and the scan reads them back through
    the same two types, which are not among the sources.  A row of the
    model holds these columns as they are read back, and the INSERT
    stores the value it is given: what the two types write is taken to
    be read back unchanged, and a scan is taken not to fail. *)
Definition scanShort (r : ShortRow) : Short :=
  {| Short_URL := shorts_url r; Key := shorts_key r; Owner := None;
     OwnerID := shorts_owner_id r;
     CreatedAt := shorts_created_at r; UpdatedAt := shorts_updated_at r |}.

(** [findShorts]: a query that fails returns no shorts, [n] at its
    zero value and the formatted error; else the loop over the rows
    appends each short and overwrites [n] with the count scanned from
    that row; [n] starts at the zero value.  The two later error
    returns, of [rows.Scan] and of [rows.Err], are failures of the
    store while it is read; the model has none. *)
Definition findShorts (tx : DB) (f : ShortFilter) : list Short * Z * option error :=
  match selectShorts tx f with
  | inr err => ([], 0, Some (FormatError err))
  | inl rows =>
      let '(shorts, n) :=
        fold_left (fun (acc : list Short * Z) (row : ShortRow * Z) =>
                     (fst acc ++ [scanShort (fst row)], snd row))
                  rows ([], 0) in
      (shorts, n, None)
  end.

(** [findShortByKey]. *)
Definition findShortByKey (tx : DB) (key : string) : result Short :=
  match findShorts tx {| Filter_Key := Some key; Filter_URL := None;
                         Offset := 0; Limit := 0 |} with
  | (_, _, Some err) => Err err
  | ([], _, None) => Err (Errorf ENOTFOUND "Short not found.")
  | (s :: _, _, None) => Ok s
  end.

Definition userOfRow (u : UserRow) : User :=
  {| ID := users_id u; Name := users_name u;
     Email := match users_email u with Some e => e | None => "" end;
     APIKey := users_api_key u;
     User_CreatedAt := users_created_at u; User_UpdatedAt := users_updated_at u |}.

(** Modelled from the spec: [findUserByID] of the sqlite package (not
    among the sources); NOTFOUND when no user has the id. *)
Definition findUserByID (tx : DB) (id : Z) : result User :=
  match find (fun u => users_id u =? id) (users tx) with
  | Some u => Ok (userOfRow u)
  | None => Err (Errorf ENOTFOUND "User not found.")
  end.

Definition set_Owner (s : Short) (o : option User) : Short :=
  {| Short_URL := Short_URL s; Key := Key s; Owner := o; OwnerID := OwnerID s;
     CreatedAt := CreatedAt s; UpdatedAt := UpdatedAt s |}.

(** [attachShortAssociations]: the owner is assigned whatever the
    lookup returned (nil on error). *)
Definition attachShortAssociations (tx : DB) (short : Short) : Short * option error :=
  match findUserByID tx (OwnerID short) with
  | Ok u => (set_Owner short (Some u), None)
  | Err e => (set_Owner short None,
              Some (GoError ("attach short user: " ++ error_text e)%string))
  end.

(** [ShortService.FindShortByKey]. *)
Definition FindShortByKey (db : DB) (key : string) : result Short :=
  match findShortByKey db key with
  | Err err => Err err
  | Ok short =>
      match attachShortAssociations db short with
      | (_, Some err) => Err err
      | (short', None) => Ok short'
      end
  end.

(** [ShortService.FindShorts]. *)
Definition FindShorts (db : DB) (f : ShortFilter) : list Short * Z * option error :=
  findShorts db f.

Section ShortService.
Variable URL_String : URL -> string.

(** [createShort]; the short is mutated in place, so it is returned
    along with the error. *)
Definition createShort (ctx : Context) (now : Time) (tx : DB) (short : Short)
  : option error * Short * DB :=
  let ownerID := UserIDFromContext ctx in
  if ownerID =? 0
  then (Some (Errorf EUNAUTHORIZED "You must be logged in to create a short."),
        short, tx)
  else
    let short :=
      {| Short_URL := Short_URL short; Key := Key short; Owner := Owner short;
         OwnerID := ownerID; CreatedAt := now; UpdatedAt := now |} in
    match Validate URL_String short with
    | Some err => (Some err, short, tx)
    | None =>
        match insertShort {| shorts_key := Key short;
                             shorts_url := Short_URL short;
                             shorts_owner_id := OwnerID short;
                             shorts_created_at := CreatedAt short;
                             shorts_updated_at := UpdatedAt short |} tx with
        | inr err => (Some (FormatError err), short, tx)
        | inl tx' => (None, short, tx')
        end
    end.

(** [ShortService.CreateShort]: on an error of [createShort] the
    deferred rollback leaves the database as it was.  The associations
    are attached, but the condition after the call tests the error of
    [createShort], which is nil there, so the transaction commits
    whatever the attachment returned. *)
Definition CreateShort (ctx : Context) (now : Time) (db : DB) (short : Short)
  : option error * Short * DB :=
  match createShort ctx now db short with
  | (Some err, short', _) => (Some err, short', db)
  | (None, short', tx') =>
      let '(short'', _) := attachShortAssociations tx' short' in
      (None, short'', tx')
  end.
End ShortService.

(** [deleteShort]. *)
Definition deleteShort (ctx : Context) (tx : DB) (key : string) : option error * DB :=
  match findShortByKey tx key with
  | Err err => (Some err, tx)
  | Ok _ => (None, deleteShortRows key tx)
  end.

(** [ShortService.DeleteShort]. *)
Definition DeleteShort (ctx : Context) (db : DB) (key : string) : option error * DB :=
  match deleteShort ctx db key with
  | (Some err, _) => (Some err, db)
  | (None, tx') => (None, tx')
  end.

(** *** Statements on [users] and [auths] *)

(** INSERT INTO users: [id] is AUTOINCREMENT, [email] is UNIQUE (a NULL
    never collides) and [api_key] is UNIQUE.  Returns the new id. *)
Definition insertUser (name : string) (email : option string) (api_key : string)
           (now : Time) (db : DB) : (DB * Z) + SqlError :=
  if match email with
     | Some e =>
         existsb (fun u => match users_email u with
                           | Some e' => (e' =? e)%string
                           | None => false
                           end) (users db)
     | None => false
     end
  then inr (UniqueConstraintFailed "users.email")
  else if existsb (fun u => (users_api_key u =? api_key)%string) (users db)
  then inr (UniqueConstraintFailed "users.api_key")
  else
    let id := users_seq db + 1 in
    inl ({| users := users db ++
                     [{| users_id := id; users_name := name; users_email := email;
                         users_api_key := api_key;
                         users_created_at := now; users_updated_at := now |}];
            auths := auths db; shorts := shorts db;
            users_seq := id; auths_seq := auths_seq db |}, id).

(** INSERT INTO auths: [id] is AUTOINCREMENT, UNIQUE(user_id, source),
    UNIQUE(source, source_id), [user_id] references [users (id)].
    Returns the new id. *)
Definition insertAuth (user_id : Z) (source source_id access refresh : string)
           (expiry : option Time) (now : Time) (db : DB) : (DB * Z) + SqlError :=
  if existsb (fun a => (auths_user_id a =? user_id)
                       && (auths_source a =? source)%string) (auths db)
  then inr (UniqueConstraintFailed "auths.user_id, auths.source")
  else if existsb (fun a => (auths_source a =? source)%string
                            && (auths_source_id a =? source_id)%string) (auths db)
  then inr (UniqueConstraintFailed "auths.source, auths.source_id")
  else if negb (existsb (fun u => users_id u =? user_id) (users db))
  then inr ForeignKeyConstraintFailed
  else
    let id := auths_seq db + 1 in
    inl ({| users := users db;
            auths := auths db ++
                     [{| auths_id := id; auths_user_id := user_id;
                         auths_source := source; auths_source_id := source_id;
                         auths_access_token := access;
                         auths_refresh_token := refresh;
                         auths_expiry := expiry;
                         auths_created_at := now; auths_updated_at := now |}];
            shorts := shorts db;
            users_seq := users_seq db; auths_seq := id |}, id).

(** Modelled from the spec: the update of step 1 of section 4.1,
    UPDATE auths SET access_token, refresh_token, expiry WHERE id = ?
    (the tokens and the expiry, nothing else). *)
Definition updateAuthRow (access refresh : string) (expiry : option Time)
           (a : AuthRow) : AuthRow :=
  {| auths_id := auths_id a; auths_user_id := auths_user_id a;
     auths_source := auths_source a; auths_source_id := auths_source_id a;
     auths_access_token := access; auths_refresh_token := refresh;
     auths_expiry := expiry;
     auths_created_at := auths_created_at a;
     auths_updated_at := auths_updated_at a |}.

Definition updateAuthRows (id : Z) (access refresh : string) (expiry : option Time)
           (db : DB) : DB :=
  set_auths db (map (fun a => if auths_id a =? id
                              then updateAuthRow access refresh expiry a
                              else a) (auths db)).

(** DELETE FROM users WHERE id = ?, with ON DELETE CASCADE on [auths]
    and [shorts]. *)
Definition deleteUserRows (id : Z) (db : DB) : DB :=
  {| users := filter (fun u => negb (users_id u =? id)) (users db);
     auths := filter (fun a => negb (auths_user_id a =? id)) (auths db);
     shorts := filter (fun r => negb (shorts_owner_id r =? id)) (shorts db);
     users_seq := users_seq db; auths_seq := auths_seq db |}.

Definition findAuthBySourceID (tx : DB) (source source_id : string) : option AuthRow :=
  find (fun a => (auths_source a =? source)%string
                 && (auths_source_id a =? source_id)%string) (auths tx).

Definition findUserByEmail (tx : DB) (email : string) : option UserRow :=
  find (fun u => match users_email u with
                 | Some e => (e =? email)%string
                 | None => false
                 end) (users tx).

(** Modelled from the spec: [AuthService.CreateAuth], the [Resolve] of
    section 4.1, whose implementation is not among the sources.  The
    assertion is the [Auth] the handlers build: provider [Source],
    subject [SourceID], tokens, expiry, and name and email in its
    [Auth_User].  One transaction:
    1. an identity with this (provider, subject) exists: its tokens and
       expiry are updated in place and its owning user is returned;
    2. otherwise, INVALID for an empty subject; with a non-empty email
       that a user has, a new identity is inserted for that user, and a
       uniqueness violation is CONFLICT; else a new user is created from
       name and email (with the fresh API key [api_key]) and the
       identity is inserted for it;
    3. on any failure the database is left as it was.
    On success the result carries the identity's id, the user's id and
    the user. *)
Definition CreateAuth (now : Time) (api_key : string) (db : DB) (auth : Auth)
  : result Auth * DB :=
  let done (id : Z) (u : User) (tx : DB) :=
    (Ok {| Auth_ID := id; UserID := ID u; Auth_User := Some u;
           Source := Source auth; SourceID := SourceID auth;
           AccessToken := AccessToken auth; RefreshToken := RefreshToken auth;
           Expiry := Expiry auth |}, tx) in
  match findAuthBySourceID db (Source auth) (SourceID auth) with
  | Some other =>
      let tx := updateAuthRows (auths_id other) (AccessToken auth)
                               (RefreshToken auth) (Expiry auth) db in
      match findUserByID tx (auths_user_id other) with
      | Ok u => done (auths_id other) u tx
      | Err err => (Err err, db)
      end
  | None =>
      if (SourceID auth =? "")%string
      then (Err (Errorf EINVALID "Source ID required."), db)
      else
        let name := match Auth_User auth with Some u => Name u | None => "" end in
        let email := match Auth_User auth with Some u => Email u | None => "" end in
        match (if (email =? "")%string then None else findUserByEmail db email) with
        | Some u =>
            match insertAuth (users_id u) (Source auth) (SourceID auth)
                             (AccessToken auth) (RefreshToken auth)
                             (Expiry auth) now db with
            | inl (tx, id) => done id (userOfRow u) tx
            | inr (UniqueConstraintFailed _) =>
                (Err (Errorf ECONFLICT "This account is already linked."), db)
            | inr err => (Err (FormatError err), db)
            end
        | None =>
            match insertUser name (if (email =? "")%string then None else Some email)
                             api_key now db with
            | inr err => (Err (FormatError err), db)
            | inl (tx, uid) =>
                match insertAuth uid (Source auth) (SourceID auth)
                                 (AccessToken auth) (RefreshToken auth)
                                 (Expiry auth) now tx with
                | inl (tx', id) =>
                    match findUserByID tx' uid with
                    | Ok u => done id u tx'
                    | Err err => (Err err, db)
                    end
                | inr (UniqueConstraintFailed _) =>
                    (Err (Errorf ECONFLICT "This account is already linked."), db)
                | inr err => (Err (FormatError err), db)
                end
            end
        end
  end.

(** Modelled from the spec: [UserService.DeleteUser], declared in
    user.go and implemented outside the sources: NOTFOUND if the user
    does not exist, UNAUTHORIZED if the caller is not that user;
    otherwise the user goes, and with it its identities and its shorts
    (section 3, ownership). *)
Definition DeleteUser (ctx : Context) (db : DB) (id : Z) : option error * DB :=
  match findUserByID db id with
  | Err err => (Some err, db)
  | Ok u =>
      if negb (ID u =? UserIDFromContext ctx)
      then (Some (Errorf EUNAUTHORIZED "You are not allowed to delete this user."), db)
      else (None, deleteUserRows id db)
  end.

(** *** The states the store can reach *)

(** The (provider, subject) of an identity, and its (user, provider). *)
Definition auth_account (a : AuthRow) : string * string :=
  (auths_source a, auths_source_id a).

Definition auth_binding (a : AuthRow) : Z * string :=
  (auths_user_id a, auths_source a).

(** At most one identity per (provider, subject) and at most one per
    (user, provider). *)
Definition auths_unique (db : DB) : Prop :=
  NoDup (map auth_account (auths db)) /\ NoDup (map auth_binding (auths db)).

(** The operations of the services that write to the store. *)
Inductive Op : Set :=
| OpCreateAuth (now : Time) (api_key : string) (auth : Auth)
| OpDeleteUser (ctx : Context) (id : Z)
| OpCreateShort (ctx : Context) (now : Time) (short : Short)
| OpDeleteShort (ctx : Context) (key : string).

Section Reachable.
Variable URL_String : URL -> string.

(** The store after an operation, whether it succeeded or failed. *)
Definition apply (op : Op) (db : DB) : DB :=
  match op with
  | OpCreateAuth now api_key auth => snd (CreateAuth now api_key db auth)
  | OpDeleteUser ctx id => snd (DeleteUser ctx db id)
  | OpCreateShort ctx now short => snd (CreateShort URL_String ctx now db short)
  | OpDeleteShort ctx key => snd (DeleteShort ctx db key)
  end.

Inductive reachable : DB -> Prop :=
| reachable_empty : reachable empty_db
| reachable_step (db : DB) (op : Op) :
    reachable db -> reachable (apply op db).
End Reachable.


End Sqlite.


(* ------------------------------------------------------------------ *)
(** ** Package http: sessions, middleware and handlers                  *)
(* ------------------------------------------------------------------ *)

Module Http.
Import Lil.

Definition SessionCookieName : string := "session".

(** [Session]: the data stored in the secure cookie. *)
Record Session : Set := mkSession {
  Session_UserID : Z;
  RedirectURL : string;
  State : string
}.

(** [Session{}]. *)
Definition Session_zero : Session :=
  {| Session_UserID := 0; RedirectURL := ""; State := "" |}.

(** What the handlers read of an [oauth2.Token]; a zero expiry is [0]. *)
Record Token : Set := mkToken {
  Token_AccessToken : string;
  Token_RefreshToken : string;
  Token_Expiry : Time
}.

(** What the handlers read of a [github.User]; the fields are pointers. *)
Record GitHubUser : Set := mkGitHubUser {
  GitHub_ID : option Z;
  GitHub_Name : option string;
  GitHub_Login : option string;
  GitHub_Email : option string
}.

(** What the handlers read of a Google [Userinfo]. *)
Record Userinfo : Set := mkUserinfo {
  Userinfo_Id : string;
  Userinfo_Name : string;
  Userinfo_Email : string
}.

(** What a request works on besides its own data: the database, the
    system random source and the clock. *)
Record World : Set := mkWorld {
  w_db : Sqlite.DB;
  w_rand : Generate.Rand;
  w_now : Time
}.

Definition set_db (w : World) (db : Sqlite.DB) : World :=
  {| w_db := db; w_rand := w_rand w; w_now := w_now w |}.

Definition set_rand (w : World) (rnd : Generate.Rand) : World :=
  {| w_db := w_db w; w_rand := rnd; w_now := w_now w |}.

(** What the handlers read of an [*http.Request]. *)
Record Request : Set := mkRequest {
  Header_Authorization : string;
  Header_Accept : string;
  Cookie_session : option string;  (* r.Cookie(SessionCookieName) *)
  FormValue : string -> string;
  URLParam : string -> string;     (* chi.URLParam *)
  RequestURI : string;             (* r.URL without scheme and host *)
  Body_Short : result Short;       (* the body decoded as JSON into a Short *)
  Ctx : Context
}.

Definition WithContext (r : Request) (ctx : Context) : Request :=
  {| Header_Authorization := Header_Authorization r;
     Header_Accept := Header_Accept r;
     Cookie_session := Cookie_session r;
     FormValue := FormValue r;
     URLParam := URLParam r;
     RequestURI := RequestURI r;
     Body_Short := Body_Short r;
     Ctx := ctx |}.

(** [Server]: its configuration, the services behind their interfaces,
    and the library functions its handlers call (secure cookie codec,
    net/url, the OAuth2 client and the provider APIs), which are
    parameters of the development. *)
Record Server : Type := mkServer {
  Domain : string;
  Port : Z;
  KeyLength : Z;
  Alphabet : string;
  (* gorilla/securecookie, with the keys of the server *)
  sc_Encode : Session -> result string;
  sc_Decode : string -> result Session;
  (* net/url *)
  URL_String : URL -> string;
  ParseRequestURI : string -> result URL;
  (* golang.org/x/oauth2 and the provider APIs *)
  AuthCodeURL : string -> string -> option string -> string;
  Exchange : string -> string -> option string -> result Token;
  GitHub_Users_Get : string -> result GitHubUser;
  Google_NewService : string -> option error;
  Google_Userinfo_Get : string -> result Userinfo;
  (* lil.AuthService, lil.ShortService, lil.UserService *)
  AuthService_CreateAuth : World -> Auth -> result Auth * World;
  ShortService_CreateShort : Context -> World -> Short -> option error * Short * World;
  ShortService_DeleteShort : Context -> World -> string -> option error * World;
  UserService_FindUserByID : World -> Z -> result User;
  UserService_FindUsers : World -> UserFilter -> result (list User)
}.

(** What a handler does that can be observed from outside. *)
Inductive Event : Set :=
| EvError (err : error)                     (* Error(w, r, err) *)
| EvLog (text : string)                     (* log.Printf *)
| EvSetCookie (name value : string)         (* http.SetCookie *)
| EvRedirect (url : string) (status : Z)    (* http.Redirect *)
| EvExchange (provider code : string)       (* OAuth2 code exchange *)
| EvFetchProfile (provider : string)        (* profile request to the provider *)
| EvCreateAuth (auth : Auth)                (* AuthService.CreateAuth *)
| EvCreateShort (short : Short)             (* ShortService.CreateShort *)
| EvDeleteShort (key : string)              (* ShortService.DeleteShort *)
| EvEncodeShort (short : Short)             (* JSON response *)
| EvRenderNewShort (ShortURL OriginalURL : string)
| EvPanic (what : string).

(** The handler monad: a handler reads and changes the world, emits
    events, and either goes on with a value or has returned. *)
Definition H (A : Type) : Type := World -> list Event * World * option A.

Definition ret {A : Type} (a : A) : H A := fun w => ([], w, Some a).

Definition bind {A B : Type} (m : H A) (k : A -> H B) : H B :=
  fun w =>
    match m w with
    | (ev, w', Some a) =>
        match k a w' with
        | (ev', w'', b) => (ev ++ ev', w'', b)
        end
    | (ev, w', None) => (ev, w', None)
    end.

Notation "x <- m ;; k" := (bind m (fun x => k))
  (at level 100, m at next level, right associativity).
Notation "m ;;; k" := (bind m (fun _ => k))
  (at level 100, right associativity).

Definition emit (e : Event) : H unit := fun w => ([e], w, Some tt).

(** The [return] statement of a handler. *)
Definition Return {A : Type} : H A := fun w => ([], w, None).

Definition world : H World := fun w => ([], w, Some w).

Definition trace {A : Type} (out : list Event * World * option A) : list Event :=
  fst (fst out).

Definition final {A : Type} (out : list Event * World * option A) : World :=
  snd (fst out).

(** [Error(w, r, err)]. *)
Definition Error (err : error) : H unit := emit (EvError err).

(** The idiom [if err != nil { Error(w, r, wrap(err)); return }]. *)
Definition orError {A : Type} (wrap : error -> error) (res : result A) : H A :=
  match res with
  | Ok a => ret a
  | Err err => Error (wrap err) ;;; Return
  end.

Definition UseTLS (s : Server) : bool := negb (Domain s =? "")%string.

Definition Server_Scheme (s : Server) : string :=
  if UseTLS s then "https" else "http".

Definition itoa (z : Z) : string := DecimalString.NilZero.string_of_int (Z.to_int z).

(** [Server.URL]. *)
Definition Server_URL (s : Server) : string :=
  let scheme := Server_Scheme s in
  let port := Port s in
  let domain := if negb (Domain s =? "")%string then Domain s else "localhost" in
  if ((scheme =? "http")%string && (port =? 80))
     || ((scheme =? "https")%string && (port =? 443))
  then (scheme ++ "://" ++ domain)%string
  else (scheme ++ "://" ++ domain ++ ":" ++ itoa port)%string.

Definition MarshalSession (s : Server) (session : Session) : result string :=
  sc_Encode s session.

Definition UnmarshalSession (s : Server) (data : string) : result Session :=
  sc_Decode s data.

(** [Server.session]: without a cookie the empty session and no error;
    with a cookie that does not decode the empty session and the error. *)
Definition session (s : Server) (r : Request) : Session * option error :=
  match Cookie_session r with
  | None => (Session_zero, None)
  | Some value =>
      match UnmarshalSession s value with
      | Err err => (Session_zero, Some err)
      | Ok session => (session, None)
      end
  end.

(** [Server.setSession]. *)
Definition setSession (s : Server) (session : Session) : H (option error) :=
  match MarshalSession s session with
  | Err err => ret (Some err)
  | Ok buf => emit (EvSetCookie SessionCookieName buf) ;;; ret None
  end.

Definition set_State (x : Session) (st : string) : Session :=
  {| Session_UserID := Session_UserID x; RedirectURL := RedirectURL x; State := st |}.

Definition set_RedirectURL (x : Session) (u : string) : Session :=
  {| Session_UserID := Session_UserID x; RedirectURL := u; State := State x |}.

(** [handleLogout]. *)
Definition handleLogout (s : Server) (r : Request) : H unit :=
  err <- setSession s Session_zero ;;
  match err with
  | Some err => Error err ;;; Return
  | None => emit (EvRedirect "/" 302)
  end.

Definition hex_digit (n : N) : ascii :=
  match n with
  | 0%N => "0" | 1%N => "1" | 2%N => "2" | 3%N => "3" | 4%N => "4"
  | 5%N => "5" | 6%N => "6" | 7%N => "7" | 8%N => "8" | 9%N => "9"
  | 10%N => "a" | 11%N => "b" | 12%N => "c" | 13%N => "d" | 14%N => "e"
  | _ => "f"
  end%char.

(** [hex.EncodeToString]. *)
Fixpoint hex_EncodeToString (bytes : list byte) : string :=
  match bytes with
  | [] => ""
  | b :: rest =>
      String (hex_digit (Byte.to_N b / 16)%N)
        (String (hex_digit (Byte.to_N b mod 16)%N) (hex_EncodeToString rest))
  end.

(** [io.ReadFull(rand.Reader, state)] on a fresh slice of [n] bytes. *)
Definition rand_ReadFull (n : nat) : H (result (list byte)) :=
  fun w =>
    if (n <=? List.length (w_rand w))%nat
    then ([], set_rand w (skipn n (w_rand w)), Some (Ok (firstn n (w_rand w))))
    else ([], w, Some (Err (GoError "unexpected EOF"))).

Definition redirect_uri (s : Server) (path : string) : option string :=
  Some (Server_URL s ++ path)%string.

(** The first half of both OAuth handlers: a fresh state is stored in
    the session cookie and the user is sent to the provider. *)
Definition handleOAuthGoogle (s : Server) (r : Request) : H unit :=
  let '(session, err) := session s r in
  match err with
  | Some err => Error err ;;; Return
  | None =>
      state <- (res <- rand_ReadFull 64 ;; orError (fun e => e) res) ;;
      let session := set_State session (hex_EncodeToString state) in
      err <- setSession s session ;;
      match err with
      | Some err => Error err ;;; Return
      | None =>
          emit (EvRedirect (AuthCodeURL s AuthSourceGoogle (State session)
                              (redirect_uri s "/oauth/google/callback")) 302)
      end
  end.

(** [handleOAuthGitHub]. *)
Definition handleOAuthGitHub (s : Server) (r : Request) : H unit :=
  let '(session, err) := session s r in
  match err with
  | Some err => Error err ;;; Return
  | None =>
      state <- (res <- rand_ReadFull 64 ;; orError (fun e => e) res) ;;
      let session := set_State session (hex_EncodeToString state) in
      err <- setSession s session ;;
      match err with
      | Some err => Error err ;;; Return
      | None =>
          emit (EvRedirect (AuthCodeURL s AuthSourceGitHub (State session) None) 302)
      end
  end.

(** The calls that leave the process, logged as events. *)
Definition call_Exchange (s : Server) (provider code : string) (uri : option string)
  : H (result Token) :=
  emit (EvExchange provider code) ;;; ret (Exchange s provider code uri).

Definition call_CreateAuth (s : Server) (auth : Auth) : H (result Auth) :=
  emit (EvCreateAuth auth) ;;;
  fun w => let '(res, w') := AuthService_CreateAuth s w auth in ([], w', Some res).

(** The second half of both callbacks, from [CreateAuth] on. *)
Definition finishLogin (s : Server) (session : Session) (auth : Auth) : H unit :=
  auth <- (res <- call_CreateAuth s auth ;;
           orError (fmt_Errorf "cannot create auth: ") res) ;;
  let redirectURL := RedirectURL session in
  let session :=
    {| Session_UserID := UserID auth; RedirectURL := ""; State := "" |} in
  err <- setSession s session ;;
  match err with
  | Some err => Error (fmt_Errorf "cannot set session cookie: " err) ;;; Return
  | None =>
      let redirectURL := if (redirectURL =? "")%string then "/" else redirectURL in
      emit (EvRedirect redirectURL 302)
  end.

Definition token_expiry (tok : Token) : option Time :=
  if Token_Expiry tok =? 0 then None else Some (Token_Expiry tok).

(** [handleOAuthGoogleCallback]. *)
Definition handleOAuthGoogleCallback (s : Server) (r : Request) : H unit :=
  let state := FormValue r "state" in
  let code := FormValue r "code" in
  let '(session, err) := session s r in
  match err with
  | Some err => Error (fmt_Errorf "cannot read session: " err) ;;; Return
  | None =>
      if negb (state =? State session)%string
      then Error (GoError "oauth state mismatch") ;;; Return
      else
        tok <- (res <- call_Exchange s AuthSourceGoogle code
                         (redirect_uri s "/oauth/google/callback") ;;
                orError (fmt_Errorf "oauth exchange error: ") res) ;;
        match Google_NewService s (Token_AccessToken tok) with
        | Some err => Error (fmt_Errorf "google client creation error: " err) ;;; Return
        | None =>
            c <- (emit (EvFetchProfile AuthSourceGoogle) ;;;
                  orError (fmt_Errorf "cannot fetch google user: ")
                          (Google_Userinfo_Get s (Token_AccessToken tok))) ;;
            if (Userinfo_Id c =? "")%string
            then Error (GoError "user ID not returned by Google, cannot authenticate user.") ;;; Return
            else
              let auth :=
                {| Auth_ID := 0; UserID := 0;
                   Auth_User := Some {| ID := 0; Name := Userinfo_Name c;
                                        Email := Userinfo_Email c; APIKey := "";
                                        User_CreatedAt := 0; User_UpdatedAt := 0 |};
                   Source := AuthSourceGitHub;
                   SourceID := Userinfo_Id c;
                   AccessToken := Token_AccessToken tok;
                   RefreshToken := Token_RefreshToken tok;
                   Expiry := token_expiry tok |} in
              finishLogin s session auth
        end
  end.

(** [handleOAuthGitHubCallback]. *)
Definition handleOAuthGitHubCallback (s : Server) (r : Request) : H unit :=
  let state := FormValue r "state" in
  let code := FormValue r "code" in
  let '(session, err) := session s r in
  match err with
  | Some err => Error (fmt_Errorf "cannot read session: " err) ;;; Return
  | None =>
      if negb (state =? State session)%string
      then Error (GoError "oauth state mismatch") ;;; Return
      else
        tok <- (res <- call_Exchange s AuthSourceGitHub code None ;;
                orError (fmt_Errorf "oauth exchange error: ") res) ;;
        u <- (emit (EvFetchProfile AuthSourceGitHub) ;;;
              orError (fmt_Errorf "cannot fetch github user: ")
                      (GitHub_Users_Get s (Token_AccessToken tok))) ;;
        match GitHub_ID u with
        | None => Error (GoError "user ID not returned by GitHub, cannot authenticate user") ;;; Return
        | Some id =>
            let name :=
              match GitHub_Name u, GitHub_Login u with
              | Some n, _ => n
              | None, Some l => l
              | None, None => ""
              end in
            let email := match GitHub_Email u with Some e => e | None => "" end in
            let auth :=
              {| Auth_ID := 0; UserID := 0;
                 Auth_User := Some {| ID := 0; Name := name; Email := email;
                                      APIKey := ""; User_CreatedAt := 0;
                                      User_UpdatedAt := 0 |};
                 Source := AuthSourceGitHub;
                 SourceID := itoa id;
                 AccessToken := Token_AccessToken tok;
                 RefreshToken := Token_RefreshToken tok;
                 Expiry := token_expiry tok |} in
            finishLogin s session auth
        end
  end.

(** [authenticate]: the middleware that loads the user of the request
    from the API key header or from the session cookie. *)
Definition authenticate (s : Server) (next : Request -> H unit) (r : Request) : H unit :=
  let v := Header_Authorization r in
  if String.prefix "Bearer " v
  then
    let apiKey := substring 7 (String.length v - 7) v in
    w <- world ;;
    match UserService_FindUsers s w
            {| UserFilter_ID := None; UserFilter_Email := None;
               UserFilter_APIKey := Some apiKey;
               UserFilter_Offset := 0; UserFilter_Limit := 0 |} with
    | Err err => Error err ;;; Return
    | Ok [] => Error (Errorf EUNAUTHORIZED "Invalid API key.") ;;; Return
    | Ok (u :: _) =>
        next (WithContext r (NewContextWithUser (Ctx r) u)) ;;; Return
    end
  else
    let '(session, _) := session s r in
    r <- (if negb (Session_UserID session =? 0)
          then
            w <- world ;;
            match UserService_FindUserByID s w (Session_UserID session) with
            | Err err => emit (EvLog "cannot find session user") ;;; ret r
            | Ok user => ret (WithContext r (NewContextWithUser (Ctx r) user))
            end
          else ret r) ;;
    next r.


(** [requireAuth]. *)
Definition requireAuth (s : Server) (next : Request -> H unit) (r : Request) : H unit :=
  if negb (UserIDFromContext (Ctx r) =? 0)
  then next r ;;; Return
  else
    let redirectURL := RequestURI r in
    let '(session, _) := session s r in
    let session := set_RedirectURL session redirectURL in
    err <- setSession s session ;;
    match err with
    | Some err => emit (EvLog "http: cannot set session")
    | None => ret tt
    end ;;;
    emit (EvRedirect "/login" 302).

(** [SetFlash]. *)
Definition SetFlash (text : string) : H unit := emit (EvSetCookie "flash" text).

Definition call_DeleteShort (s : Server) (ctx : Context) (key : string)
  : H (option error) :=
  emit (EvDeleteShort key) ;;;
  fun w => let '(err, w') := ShortService_DeleteShort s ctx w key in ([], w', Some err).

Definition call_CreateShort (s : Server) (ctx : Context) (short : Short)
  : H (option error * Short) :=
  emit (EvCreateShort short) ;;;
  fun w => let '(err, short', w') := ShortService_CreateShort s ctx w short in
           ([], w', Some (err, short')).

(** [handleShortURLDelete]. *)
Definition handleShortURLDelete (s : Server) (r : Request) : H unit :=
  let key := URLParam r "key" in
  if (key =? "")%string
  then Error (Errorf EINTERNAL
                "empty URLParameter: shouldn't happen, did you forget to configure the route?") ;;;
       Return
  else
    err <- call_DeleteShort s (Ctx r) key ;;
    match err with
    | Some err => Error err ;;; Return
    | None =>
        SetFlash ("Successfully deleted short " ++ key ++ ".")%string ;;;
        emit (EvRedirect "/short" 302)
    end.

(** [generate.SecureStringFromAlphabet(s.KeyLength, s.Alphabet)] on the
    random source of the world.  The characters of the alphabet stand
    for its runes, which is exact for an alphabet of ASCII characters
    such as the default one. *)
Definition generateKey (s : Server) : H (Generate.outcome string) :=
  fun w =>
    let '(out, rnd) :=
      Generate.SecureStringFromAlphabet (KeyLength s)
        (list_ascii_of_string (Alphabet s)) (w_rand w) in
    ([], set_rand w rnd,
     Some match out with
          | Generate.Done runes => Generate.Done (string_of_list_ascii runes)
          | Generate.Failed e => Generate.Failed e
          | Generate.Panic what => Generate.Panic what
          end).

Definition Short_zero : Short :=
  {| Short_URL := {| Scheme := ""; Opaque := ""; User_info := None; Host := "";
                     Path := ""; RawPath := ""; OmitHost := false;
                     ForceQuery := false; RawQuery := ""; Fragment := "";
                     RawFragment := "" |};
     Key := ""; Owner := None; OwnerID := 0; CreatedAt := 0; UpdatedAt := 0 |}.

Definition set_URL (x : Short) (u : URL) : Short :=
  {| Short_URL := u; Key := Key x; Owner := Owner x; OwnerID := OwnerID x;
     CreatedAt := CreatedAt x; UpdatedAt := UpdatedAt x |}.

Definition set_Key (x : Short) (k : string) : Short :=
  {| Short_URL := Short_URL x; Key := k; Owner := Owner x; OwnerID := OwnerID x;
     CreatedAt := CreatedAt x; UpdatedAt := UpdatedAt x |}.

(** [handleShortURLCreate]: one key is generated, one [CreateShort] is
    attempted, and its error, if any, is the response. *)
Definition handleShortURLCreate (s : Server) (r : Request) : H unit :=
  let short := Short_zero in
  short <- (if (Header_Accept r =? "application/json")%string
            then
              match Body_Short r with
              | Err _ =>
                  Error (Errorf EINVALID "We couldn't parse the request body.") ;;;
                  Return
              | Ok decoded => ret decoded
              end
            else
              match ParseRequestURI s (FormValue r "url") with
              | Err _ => Error (Errorf EINVALID "Invalid URL passed.") ;;; Return
              | Ok url => ret (set_URL short url)
              end) ;;
  out <- generateKey s ;;
  key <- match out with
         | Generate.Done key => ret key
         | Generate.Failed err => Error err ;;; Return
         | Generate.Panic what => emit (EvPanic what) ;;; Return
         end ;;
  let short := set_Key short key in
  res <- call_CreateShort s (Ctx r) short ;;
  match res with
  | (Some err, _) => Error err ;;; Return
  | (None, short) =>
      if (Header_Accept r =? "application/json")%string
      then emit (EvEncodeShort short)
      else emit (EvRenderNewShort (Server_URL s ++ "/s/" ++ Key short)%string
                                  (URL_String s (Short_URL short)))
  end.

(** *** The services of package sqlite behind the interfaces *)

Definition sqlite_CreateShort (URL_String : URL -> string)
           (ctx : Context) (w : World) (short : Short)
  : option error * Short * World :=
  let '(err, short', db') :=
    Sqlite.CreateShort URL_String ctx (w_now w) (w_db w) short in
  (err, short', set_db w db').

Definition sqlite_DeleteShort (ctx : Context) (w : World) (key : string)
  : option error * World :=
  let '(err, db') := Sqlite.DeleteShort ctx (w_db w) key in
  (err, set_db w db').

Definition sqlite_FindUserByID (w : World) (id : Z) : result User :=
  Sqlite.findUserByID (w_db w) id.

(** Modelled from the spec: [UserService.FindUsers] of the sqlite
    package (not among the sources): the users that match every field
    set in the filter. *)
Definition sqlite_FindUsers (w : World) (f : UserFilter) : result (list User) :=
  Ok (map Sqlite.userOfRow
        (filter (fun u =>
                   match UserFilter_ID f with
                   | Some id => Sqlite.users_id u =? id
                   | None => true
                   end
                   && match UserFilter_Email f with
                      | Some e => match Sqlite.users_email u with
                                  | Some e' => (e' =? e)%string
                                  | None => false
                                  end
                      | None => true
                      end
                   && match UserFilter_APIKey f with
                      | Some k => (Sqlite.users_api_key u =? k)%string
                      | None => true
                      end)
                (Sqlite.users (w_db w)))).

(** Modelled from the spec: [AuthService.CreateAuth] over the database
    of the world; the opaque API key of a new user (section 3) is drawn
    from the random source. *)
Definition sqlite_CreateAuth (w : World) (auth : Auth) : result Auth * World :=
  if (32 <=? List.length (w_rand w))%nat
  then
    let '(res, db') :=
      Sqlite.CreateAuth (w_now w) (hex_EncodeToString (firstn 32 (w_rand w)))
                        (w_db w) auth in
    (res, {| w_db := db'; w_rand := skipn 32 (w_rand w); w_now := w_now w |})
  else (Err (GoError "unexpected EOF"), w).


(** *** Observations on a trace *)

Definition is_CreateAuth (e : Event) : bool :=
  match e with EvCreateAuth _ => true | _ => false end.

Definition is_session_cookie (e : Event) : bool :=
  match e with
  | EvSetCookie name _ => (name =? SessionCookieName)%string
  | _ => false
  end.

Definition is_error (e : Event) : bool :=
  match e with EvError _ => true | _ => false end.

Definition is_CreateShort (e : Event) : bool :=
  match e with EvCreateShort _ => true | _ => false end.


End Http.


(* ------------------------------------------------------------------ *)
(** ** Package http: error statuses and the public route                *)
(* ------------------------------------------------------------------ *)

Module HttpStatus.
Import Lil.

Definition Code_eqb (a b : Code) : bool :=
  match a, b with
  | ECONFLICT, ECONFLICT | EINTERNAL, EINTERNAL | EINVALID, EINVALID
  | ENOTFOUND, ENOTFOUND | ENOTIMPLEMENTED, ENOTIMPLEMENTED
  | EUNAUTHORIZED, EUNAUTHORIZED => true
  | _, _ => false
  end.

(** [codes]: the lookup of application error codes to HTTP status
    codes, in the order it is written. *)
Definition codes : list (Code * Z) :=
  [(ECONFLICT, 409); (EINVALID, 400); (ENOTFOUND, 404);
   (ENOTIMPLEMENTED, 501); (EUNAUTHORIZED, 401); (EINTERNAL, 500)].

(** [ErrorStatusCode]. *)
Definition ErrorStatusCode (code : Code) : Z :=
  match find (fun kv => Code_eqb (fst kv) code) codes with
  | Some kv => snd kv
  | None => 500
  end.

(** [FromErrorStatusCode].  The loop ranges over a map, in an order the
    language leaves open: [order] is the order of one run, a
    permutation of [codes]. *)
Definition FromErrorStatusCode (order : list (Code * Z)) (code : Z) : Code :=
  match find (fun kv => snd kv =? code) order with
  | Some kv => fst kv
  | None => EINTERNAL
  end.

(** [Error(w, r, err)]: the status written, and whether the error is
    logged. *)
Definition Error_status (err : error) : Z := ErrorStatusCode (ErrorCode err).

Definition Error_logged (err : error) : bool := Code_eqb (ErrorCode err) EINTERNAL.

End HttpStatus.

Module Routes.
Import Lil Http.

(** [handleShortenedURL], over the [FindShortByKey] of the short
    service. *)
Definition handleShortenedURL (FindShortByKey : World -> string -> result Short)
           (s : Server) (r : Request) : H unit :=
  let key := URLParam r "key" in
  if (key =? "")%string
  then Error (Errorf EINTERNAL
                "empty URLParameter: shouldn't happen, did you forget to configure the route?") ;;;
       Return
  else
    w <- world ;;
    match FindShortByKey w key with
    | Err err => Error err ;;; Return
    | Ok short => emit (EvRedirect (URL_String s (Short_URL short)) 301)
    end.

(** [ShortService.FindShortByKey] of package sqlite behind the
    interface. *)
Definition sqlite_FindShortByKey (w : World) (key : string) : result Short :=
  Sqlite.FindShortByKey (w_db w) key.

(** The session a handler wrote, read off its trace: the value of the
    last session cookie set. *)
Definition cookie_written (evs : list Event) : option string :=
  fold_left (fun acc e =>
               match e with
               | EvSetCookie name value =>
                   if (name =? SessionCookieName)%string then Some value else acc
               | _ => acc
               end) evs None.

(** The same request, carrying another session cookie. *)
Definition WithCookie (r : Request) (cookie : option string) : Request :=
  {| Header_Authorization := Header_Authorization r;
     Header_Accept := Header_Accept r;
     Cookie_session := cookie;
     FormValue := FormValue r;
     URLParam := URLParam r;
     RequestURI := RequestURI r;
     Body_Short := Body_Short r;
     Ctx := Ctx r |}.

(** The codec of the server reads back what it wrote. *)
Definition codec_round_trip (s : Server) : Prop :=
  forall (x : Session) (buf : string), sc_Encode s x = Ok buf -> sc_Decode s buf = Ok x.

(** The characters [hex.EncodeToString] writes. *)
Definition is_hex_digit (c : ascii) : bool :=
  existsb (Ascii.eqb c) (list_ascii_of_string "0123456789abcdef").

(** The events of the calls to the provider. *)
Definition is_provider_call (e : Event) : bool :=
  match e with
  | EvExchange _ _ | EvFetchProfile _ => true
  | _ => false
  end.


End Routes.

(* ------------------------------------------------------------------ *)
(** ** The shorts a store holds                                         *)
(* ------------------------------------------------------------------ *)

Module ShortRows.
Import Lil Sqlite.

Section WellFormed.
Variable URL_String : URL -> string.

(** What [createShort] checks of a short before it inserts it, and what
    the table declares: a key, a target with scheme http or https, an
    owner that is a user. *)
Definition row_ok (db : DB) (r : ShortRow) : Prop :=
  shorts_key r <> "" /\
  URL_String (shorts_url r) <> "" /\
  (Scheme (shorts_url r) = "http" \/ Scheme (shorts_url r) = "https") /\
  shorts_owner_id r <> 0 /\
  In (shorts_owner_id r) (map users_id (users db)).

(** Every row is as above and no two rows have the same key. *)
Definition wellformed (db : DB) : Prop :=
  NoDup (map shorts_key (shorts db)) /\ Forall (row_ok db) (shorts db).
End WellFormed.

End ShortRows.


(* ------------------------------------------------------------------ *)
(** ** Concrete requests and stores                                     *)
(* ------------------------------------------------------------------ *)

Import Lil.

(** A simple rendering of a URL, used to run the services on concrete
    requests. *)
Definition render_URL (u : URL) : string :=
  ((if Scheme u =? "" then "" else Scheme u ++ ":")
   ++ (if Host u =? "" then "" else "//" ++ Host u)
   ++ Path u
   ++ (if RawQuery u =? "" then "" else "?" ++ RawQuery u)
   ++ (if Fragment u =? "" then "" else "#" ++ Fragment u))%string.

Definition example_com : URL :=
  {| Scheme := "https"; Opaque := ""; User_info := None; Host := "example.com";
     Path := ""; RawPath := ""; OmitHost := false; ForceQuery := false;
     RawQuery := ""; Fragment := ""; RawFragment := "" |}.

Definition ftp_x : URL :=
  {| Scheme := "ftp"; Opaque := ""; User_info := None; Host := "x";
     Path := ""; RawPath := ""; OmitHost := false; ForceQuery := false;
     RawQuery := ""; Fragment := ""; RawFragment := "" |}.

Definition alice : User :=
  {| ID := 1; Name := "Alice"; Email := "a@x.com"; APIKey := "k1";
     User_CreatedAt := 10; User_UpdatedAt := 10 |}.

Definition bob : User :=
  {| ID := 2; Name := "Bob"; Email := "b@x.com"; APIKey := "k2";
     User_CreatedAt := 11; User_UpdatedAt := 11 |}.

Definition as_user (u : User) : Context := NewContextWithUser Background u.

Definition row_of_user (u : User) : Sqlite.UserRow :=
  {| Sqlite.users_id := ID u; Sqlite.users_name := Name u;
     Sqlite.users_email := Some (Email u); Sqlite.users_api_key := APIKey u;
     Sqlite.users_created_at := User_CreatedAt u;
     Sqlite.users_updated_at := User_UpdatedAt u |}.

Definition short_row (key : string) (owner : Z) (t : Time) : Sqlite.ShortRow :=
  {| Sqlite.shorts_key := key; Sqlite.shorts_url := example_com;
     Sqlite.shorts_owner_id := owner;
     Sqlite.shorts_created_at := t; Sqlite.shorts_updated_at := t |}.

(** Two users; one short, owned by the first. *)
Definition db_one_short : Sqlite.DB :=
  {| Sqlite.users := [row_of_user alice; row_of_user bob];
     Sqlite.auths := [];
     Sqlite.shorts := [short_row "aB3xY9" 1 20];
     Sqlite.users_seq := 2; Sqlite.auths_seq := 0 |}.

(** Two users; three shorts of the first, inserted in this order. *)
Definition db_three_shorts : Sqlite.DB :=
  {| Sqlite.users := [row_of_user alice; row_of_user bob];
     Sqlite.auths := [];
     Sqlite.shorts := [short_row "12345" 1 20; short_row "23456" 1 21;
                       short_row "34567" 1 22];
     Sqlite.users_seq := 2; Sqlite.auths_seq := 0 |}.

(** Assertions of providers, as the callbacks build them. *)
Definition assertion (source source_id name email access : string) : Auth :=
  {| Auth_ID := 0; UserID := 0;
     Auth_User := Some {| ID := 0; Name := name; Email := email; APIKey := "";
                          User_CreatedAt := 0; User_UpdatedAt := 0 |};
     Source := source; SourceID := source_id;
     AccessToken := access; RefreshToken := ""; Expiry := None |}.

Definition github_123 : Auth := assertion AuthSourceGitHub "123" "A" "a@x.com" "tok1".
Definition github_123_later : Auth := assertion AuthSourceGitHub "123" "A" "a@x.com" "tok2".
Definition google_456 : Auth := assertion AuthSourceGoogle "456" "A" "a@x.com" "tok3".
Definition github_789 : Auth := assertion AuthSourceGitHub "789" "A" "a@x.com" "tok4".

(** The first login of github/123 on the empty database. *)
Definition first_login : result Auth * Sqlite.DB :=
  Eval vm_compute in Sqlite.CreateAuth 100 "key-A" Sqlite.empty_db github_123.

Definition first_login_auth : Auth :=
  match fst first_login with
  | Ok a => a
  | Err _ => github_123
  end.

Definition db_after_first_login : Sqlite.DB := snd first_login.

(** A stand-in for the secure cookie codec: two cookies decode, every
    other value is refused. *)
Definition toy_Decode (value : string) : result Http.Session :=
  if (value =? "pending")%string
  then Ok {| Http.Session_UserID := 0; Http.RedirectURL := "/short";
             Http.State := "nonce-1" |}
  else if (value =? "alice-pending")%string
  then Ok {| Http.Session_UserID := 1; Http.RedirectURL := "";
             Http.State := "nonce-2" |}
  else Err (GoError "securecookie: the value is not valid").

Definition toy_Encode (x : Http.Session) : result string :=
  Ok ("enc:" ++ Http.itoa (Http.Session_UserID x) ++ ":" ++ Http.RedirectURL x
      ++ ":" ++ Http.State x)%string.

Definition toy_ParseRequestURI (raw : string) : result URL :=
  if (raw =? "https://example.com")%string then Ok example_com
  else if (raw =? "ftp://x")%string then Ok ftp_x
  else Err (GoError "parse: invalid URI for request").

(** A server over the sqlite services, with stand-ins for the codec
    and the providers. *)
Definition test_server : Http.Server :=
  {| Http.Domain := ""; Http.Port := 8080;
     Http.KeyLength := Generate.DefaultKeyLength;
     Http.Alphabet := Generate.DefaultAlphabet;
     Http.sc_Encode := toy_Encode;
     Http.sc_Decode := toy_Decode;
     Http.URL_String := render_URL;
     Http.ParseRequestURI := toy_ParseRequestURI;
     Http.AuthCodeURL := fun provider state _ =>
       ("https://" ++ provider ++ "/authorize?state=" ++ state)%string;
     Http.Exchange := fun provider code _ =>
       if (code =? "good-code")%string
       then Ok {| Http.Token_AccessToken := "tok"; Http.Token_RefreshToken := "";
                  Http.Token_Expiry := 0 |}
       else Err (GoError "oauth2: cannot fetch token");
     Http.GitHub_Users_Get := fun _ =>
       Ok {| Http.GitHub_ID := Some 123; Http.GitHub_Name := Some "A";
             Http.GitHub_Login := Some "a"; Http.GitHub_Email := Some "a@x.com" |};
     Http.Google_NewService := fun _ => None;
     Http.Google_Userinfo_Get := fun _ =>
       Ok {| Http.Userinfo_Id := "456"; Http.Userinfo_Name := "A";
             Http.Userinfo_Email := "a@x.com" |};
     Http.AuthService_CreateAuth := Http.sqlite_CreateAuth;
     Http.ShortService_CreateShort := Http.sqlite_CreateShort render_URL;
     Http.ShortService_DeleteShort := Http.sqlite_DeleteShort;
     Http.UserService_FindUserByID := Http.sqlite_FindUserByID;
     Http.UserService_FindUsers := Http.sqlite_FindUsers |}.

(** A callback request: the session cookie and the [state] and [code]
    form values. *)
Definition callback_request (cookie : option string) (state code : string)
  : Http.Request :=
  {| Http.Header_Authorization := ""; Http.Header_Accept := "";
     Http.Cookie_session := cookie;
     Http.FormValue := fun k => if (k =? "state")%string then state
                                else if (k =? "code")%string then code else "";
     Http.URLParam := fun _ => "";
     Http.RequestURI := "/oauth/callback";
     Http.Body_Short := Err (GoError "EOF");
     Http.Ctx := Background |}.

(** A form request to create a short for [url], by [ctx]. *)
Definition create_request (ctx : Context) (url : string) : Http.Request :=
  {| Http.Header_Authorization := ""; Http.Header_Accept := "";
     Http.Cookie_session := None;
     Http.FormValue := fun k => if (k =? "url")%string then url else "";
     Http.URLParam := fun _ => "";
     Http.RequestURI := "/short/new";
     Http.Body_Short := Err (GoError "EOF");
     Http.Ctx := ctx |}.

Definition world_empty : Http.World :=
  {| Http.w_db := Sqlite.empty_db; Http.w_rand := repeat x2a 64; Http.w_now := 100 |}.

(** The short "aaaaaa" is stored; the random source will deliver six
    zero bytes, which select "aaaaaa" again, and then six bytes that
    would select the fresh key "bbbbbb". *)
Definition world_collision : Http.World :=
  {| Http.w_db :=
       {| Sqlite.users := [row_of_user alice; row_of_user bob];
          Sqlite.auths := [];
          Sqlite.shorts := [short_row "aaaaaa" 1 20];
          Sqlite.users_seq := 2; Sqlite.auths_seq := 0 |};
     Http.w_rand := repeat x00 6 ++ repeat x01 6;
     Http.w_now := 100 |}.


(** A codec that reads back what it wrote: it encodes the sessions of
    the runs below, each under a name of its own, and refuses every
    other session. *)
Definition Session_eqb (x y : Http.Session) : bool :=
  (Http.Session_UserID x =? Http.Session_UserID y)
  && (Http.RedirectURL x =? Http.RedirectURL y)%string
  && (Http.State x =? Http.State y)%string.

Definition flow_state : string :=
  Eval vm_compute in Http.hex_EncodeToString (repeat x2a 64).

Definition flow_sessions : list (Http.Session * string) :=
  [(Http.Session_zero, "c0");
   ({| Http.Session_UserID := 0; Http.RedirectURL := "/short"; Http.State := "" |}, "c1");
   ({| Http.Session_UserID := 0; Http.RedirectURL := "/short";
       Http.State := flow_state |}, "c2");
   ({| Http.Session_UserID := 1; Http.RedirectURL := ""; Http.State := "" |}, "c3")].

Definition flow_Encode (x : Http.Session) : result string :=
  match find (fun e => Session_eqb (fst e) x) flow_sessions with
  | Some e => Ok (snd e)
  | None => Err (GoError "securecookie: the value is too long")
  end.

Definition flow_Decode (buf : string) : result Http.Session :=
  match find (fun e => (snd e =? buf)%string) flow_sessions with
  | Some e => Ok (fst e)
  | None => Err (GoError "securecookie: the value is not valid")
  end.

Definition flow_server : Http.Server :=
  {| Http.Domain := Http.Domain test_server; Http.Port := Http.Port test_server;
     Http.KeyLength := Http.KeyLength test_server;
     Http.Alphabet := Http.Alphabet test_server;
     Http.sc_Encode := flow_Encode;
     Http.sc_Decode := flow_Decode;
     Http.URL_String := Http.URL_String test_server;
     Http.ParseRequestURI := Http.ParseRequestURI test_server;
     Http.AuthCodeURL := Http.AuthCodeURL test_server;
     Http.Exchange := Http.Exchange test_server;
     Http.GitHub_Users_Get := Http.GitHub_Users_Get test_server;
     Http.Google_NewService := Http.Google_NewService test_server;
     Http.Google_Userinfo_Get := Http.Google_Userinfo_Get test_server;
     Http.AuthService_CreateAuth := Http.AuthService_CreateAuth test_server;
     Http.ShortService_CreateShort := Http.ShortService_CreateShort test_server;
     Http.ShortService_DeleteShort := Http.ShortService_DeleteShort test_server;
     Http.UserService_FindUserByID := Http.UserService_FindUserByID test_server;
     Http.UserService_FindUsers := Http.UserService_FindUsers test_server |}.

(** A request for the page [uri], with a session cookie or without. *)
Definition page_request (ctx : Context) (cookie : option string) (uri : string)
  : Http.Request :=
  {| Http.Header_Authorization := ""; Http.Header_Accept := "";
     Http.Cookie_session := cookie;
     Http.FormValue := fun _ => "";
     Http.URLParam := fun _ => "";
     Http.RequestURI := uri;
     Http.Body_Short := Err (GoError "EOF");
     Http.Ctx := ctx |}.

(** A request on the route [/s/{key}]. *)
Definition key_request (ctx : Context) (key : string) : Http.Request :=
  {| Http.Header_Authorization := ""; Http.Header_Accept := "";
     Http.Cookie_session := None;
     Http.FormValue := fun _ => "";
     Http.URLParam := fun k => if (k =? "key")%string then key else "";
     Http.RequestURI := ("/s/" ++ key)%string;
     Http.Body_Short := Err (GoError "EOF");
     Http.Ctx := ctx |}.

(** Two users and one short; random bytes for one key, "cccccc". *)
Definition world_one_short : Http.World :=
  {| Http.w_db := db_one_short; Http.w_rand := repeat x02 6; Http.w_now := 100 |}.


(* ================================================================== *)
(** * Properties                                                        *)
(* ================================================================== *)

(* ------------------------------------------------------------------ *)
(** ** Key generator                                                    *)
(* ------------------------------------------------------------------ *)

Section KeyGenerator.
Import Generate.
Local Open Scope nat_scope.

Lemma all_bytes_to_nat : map Byte.to_nat all_bytes = seq 0 256.
Proof. vm_compute. reflexivity. Qed.

Lemma all_bytes_complete (b : byte) : In b all_bytes.
Proof. destruct b; vm_compute; tauto. Qed.

Lemma residues_succ L i N :
  residues L i (S N) = residues L i N + (if N mod L =? i then 1 else 0).
Proof.
  unfold residues. rewrite seq_S, filter_app, List.length_app. cbn [filter Nat.add].
  destruct (N mod L =? i); reflexivity.
Qed.

Lemma residues_formula L i N :
  0 < L -> i < L ->
  residues L i N = N / L + (if i <? N mod L then 1 else 0).
Proof.
  intros HL Hi. induction N as [|N IH].
  - unfold residues. cbn [seq filter List.length].
    rewrite Nat.Div0.div_0_l, Nat.Div0.mod_0_l by lia. reflexivity.
  - rewrite residues_succ, IH.
    pose proof (Nat.div_mod_eq N L) as HN.
    pose proof (Nat.mod_upper_bound N L ltac:(lia)) as HrN.
    clear IH. revert HN HrN. generalize (N / L) (N mod L). intros q r HN Hr.
    destruct (Nat.eq_dec (S r) L) as [Hlast|Hnot].
    + rewrite <- (Nat.div_unique (S N) L (S q) 0) by lia.
      rewrite <- (Nat.mod_unique (S N) L (S q) 0) by lia.
      destruct (Nat.ltb_spec i r), (Nat.eqb_spec r i), (Nat.ltb_spec i 0); lia.
    + rewrite <- (Nat.div_unique (S N) L q (S r)) by lia.
      rewrite <- (Nat.mod_unique (S N) L q (S r)) by lia.
      destruct (Nat.ltb_spec i r), (Nat.eqb_spec r i), (Nat.ltb_spec i (S r)); lia.
Qed.

Lemma preimages_residues {rune : Type} (arune : list rune) (i : nat) :
  preimages arune i = residues (List.length arune) i 256.
Proof.
  unfold preimages, residues, symbolIndex.
  rewrite <- all_bytes_to_nat.
  generalize all_bytes. intros l. induction l as [|b l IH]; [reflexivity|].
  cbn [map filter]. destruct (Byte.to_nat b mod List.length arune =? i); cbn [List.length]; congruence.
Qed.

(** With a non-empty alphabet the loop never panics and writes, for each
    byte, the symbol at the byte's residue. *)
Lemma writeRunes_map {rune : Type} (arune : list rune) (d : rune) bytes out :
  arune <> [] ->
  writeRunes arune bytes out =
  Some (out ++ map (fun b => nth (symbolIndex arune b) arune d) bytes)%list.
Proof.
  intros Hne. revert out. induction bytes as [|b bytes IH]; intros out.
  - cbn. now rewrite app_nil_r.
  - cbn [writeRunes map]. unfold runeAt.
    destruct arune as [|a arune']; [congruence|].
    set (al := a :: arune') in *.
    assert (Hlt : symbolIndex al b < List.length al).
    { unfold symbolIndex. apply Nat.mod_upper_bound. subst al. cbn. lia. }
    destruct (nth_error al (symbolIndex al b)) as [r|] eqn:E.
    + rewrite IH, <- app_assoc. cbn [app].
      now rewrite (nth_error_nth al _ d E).
    + apply nth_error_None in E. lia.
Qed.

Lemma SecureStringFromAlphabet_done {rune : Type} (arune : list rune) (d : rune)
      (n : Z) (rnd : Rand) :
  arune <> [] -> (0 <= n)%Z -> Z.to_nat n <= List.length rnd ->
  SecureStringFromAlphabet n arune rnd =
  (Done (map (fun b => nth (symbolIndex arune b) arune d) (firstn (Z.to_nat n) rnd)),
   skipn (Z.to_nat n) rnd).
Proof.
  intros Hne Hn Hlen. unfold SecureStringFromAlphabet, generateRandomBytes.
  destruct (Z.ltb_spec n 0); [lia|].
  destruct (Nat.leb_spec (Z.to_nat n) (List.length rnd)); [|lia].
  now rewrite (writeRunes_map arune d _ [] Hne).
Qed.

(** C3, as stated, fails: the default alphabet has 62 symbols, 62 does
    not divide 256, and its first symbol is selected by five byte values
    while its last symbol is selected by four, so the symbols are not
    equally likely under a uniformly random byte. *)
Lemma default_alphabet_modulo_bias :
  let arune := list_ascii_of_string DefaultAlphabet in
  arune <> [] /\ 256 mod (List.length arune) <> 0 /\
  preimages arune 0 = 5 /\ preimages arune 61 = 4 /\
  ~ no_modulo_bias arune.
Proof.
  cbv zeta. split; [discriminate|]. split; [vm_compute; discriminate|].
  split; [vm_compute; reflexivity|]. split; [vm_compute; reflexivity|].
  intros H. specialize (H 0 61). vm_compute in H.
  assert (0 < 62) as H0 by lia. assert (61 < 62) as H1 by lia.
  specialize (H H0 H1). discriminate.
Qed.

(** C3, amended: for every non-empty alphabet of length [L], the symbol
    at index [i] is selected by [256 / L] byte values, plus one when
    [i < 256 mod L]; so the selection is free of modulo bias exactly
    when [L] divides 256, and is biased towards the first [256 mod L]
    symbols otherwise. *)
Theorem symbol_weights {rune : Type} (arune : list rune) :
  arune <> [] ->
  (forall i, i < List.length arune ->
     preimages arune i =
     256 / List.length arune + (if i <? 256 mod (List.length arune) then 1 else 0))
  /\ (no_modulo_bias arune <-> 256 mod (List.length arune) = 0).
Proof.
  intros Hne.
  assert (HL : 0 < List.length arune) by (destruct arune; [congruence | cbn; lia]).
  assert (Hw : forall i, i < List.length arune ->
     preimages arune i =
     256 / List.length arune + (if i <? 256 mod (List.length arune) then 1 else 0)).
  { intros i Hi. rewrite preimages_residues. now apply residues_formula. }
  split; [exact Hw|]. split.
  - intros Hu.
    destruct (Nat.eq_dec (256 mod (List.length arune)) 0) as [E|E]; [exact E|].
    exfalso.
    pose proof (Nat.mod_upper_bound 256 (List.length arune) ltac:(lia)) as Hr.
    assert (H1 : List.length arune <> 1).
    { intros E1. rewrite E1 in E. now apply E. }
    specialize (Hu 0 (List.length arune - 1) ltac:(lia) ltac:(lia)).
    rewrite (Hw 0), (Hw (List.length arune - 1)) in Hu by lia.
    destruct (Nat.ltb_spec 0 (256 mod (List.length arune))),
             (Nat.ltb_spec (List.length arune - 1) (256 mod (List.length arune))); lia.
  - intros E i j Hi Hj. rewrite (Hw i Hi), (Hw j Hj), E. reflexivity.
Qed.

Lemma symbol_weights_witness :
  let arune := list_ascii_of_string DefaultAlphabet in
  arune <> [] /\
  ((forall i, i < List.length arune ->
      preimages arune i =
      256 / List.length arune + (if i <? 256 mod (List.length arune) then 1 else 0))
   /\ (no_modulo_bias arune <-> 256 mod (List.length arune) = 0)).
Proof.
  cbv zeta. split; [discriminate|].
  apply (symbol_weights (list_ascii_of_string DefaultAlphabet)). discriminate.
Defined.

End KeyGenerator.

(* ------------------------------------------------------------------ *)
(** ** Short links: creation, deletion, listing                         *)
(* ------------------------------------------------------------------ *)

Section ShortStore.
Import Sqlite.
Variable URL_String : URL -> string.

Lemma Validate_invalid (s : Short) (err : error) :
  Validate URL_String s = Some err -> ErrorCode err = EINVALID.
Proof.
  unfold Validate. intros H.
  repeat match type of H with
         | (if ?c then _ else _) = _ => destruct c
         end; inversion H; reflexivity.
Qed.

Lemma Validate_bad_url (s : Short) :
  URL_String (Short_URL s) = "" \/
  (Scheme (Short_URL s) <> "http" /\ Scheme (Short_URL s) <> "https") ->
  exists err, Validate URL_String s = Some err.
Proof.
  unfold Validate. intros [H|[H1 H2]].
  - rewrite H. cbn. eauto.
  - destruct (URL_String (Short_URL s) =? "")%string; [eauto|].
    apply String.eqb_neq in H1, H2. rewrite H1, H2. cbn. eauto.
Qed.

(** Whatever [createShort] returns with an error, [CreateShort] rolls
    back. *)
Lemma CreateShort_error_rolls_back ctx now db short err short' db' :
  CreateShort URL_String ctx now db short = (Some err, short', db') -> db' = db.
Proof.
  unfold CreateShort.
  destruct (createShort URL_String ctx now db short) as [[[e|] s1] tx'].
  - intros H. inversion H. reflexivity.
  - destruct (attachShortAssociations tx' s1). discriminate.
Qed.

(** C6, amended: [CreateShort] checks the caller first and fails with
    UNAUTHORIZED when the context carries user id 0, whatever the URL;
    for an authenticated caller it fails with INVALID when the target
    URL is empty or its scheme is neither http nor https; and whenever
    it fails, with whatever error, the store is left as it was. *)
Theorem CreateShort_failures ctx now db short :
  (UserIDFromContext ctx = 0 ->
   exists err short',
     CreateShort URL_String ctx now db short = (Some err, short', db) /\
     ErrorCode err = EUNAUTHORIZED)
  /\
  (UserIDFromContext ctx <> 0 ->
   URL_String (Short_URL short) = "" \/
   (Scheme (Short_URL short) <> "http" /\ Scheme (Short_URL short) <> "https") ->
   exists err short',
     CreateShort URL_String ctx now db short = (Some err, short', db) /\
     ErrorCode err = EINVALID)
  /\
  (forall err short' db',
     CreateShort URL_String ctx now db short = (Some err, short', db') ->
     db' = db).
Proof.
  split; [|split].
  - intros H0. unfold CreateShort, createShort. rewrite H0. cbn.
    eexists _, _. split; reflexivity.
  - intros Hu Hbad. unfold CreateShort, createShort.
    apply Z.eqb_neq in Hu. rewrite Hu.
    set (s := {| Short_URL := Short_URL short; Key := Key short;
                 Owner := Owner short; OwnerID := UserIDFromContext ctx;
                 CreatedAt := now; UpdatedAt := now |}).
    destruct (Validate_bad_url s Hbad) as [err Herr].
    rewrite Herr. eexists _, _. split; [reflexivity|].
    exact (Validate_invalid s err Herr).
  - intros err short' db'. apply CreateShort_error_rolls_back.
Qed.

End ShortStore.

(** C6, as stated, fails: for an anonymous caller and a target URL
    whose scheme is ftp, [CreateShort] fails with UNAUTHORIZED, not with
    INVALID. *)
Lemma CreateShort_anonymous_bad_scheme :
  let short := {| Short_URL := ftp_x; Key := "Zz9aaa"; Owner := None; OwnerID := 0;
                  CreatedAt := 0; UpdatedAt := 0 |} in
  Scheme (Short_URL short) <> "http" /\ Scheme (Short_URL short) <> "https" /\
  UserIDFromContext Background = 0 /\
  Sqlite.CreateShort render_URL Background 30 db_one_short short
    = (Some (Errorf EUNAUTHORIZED "You must be logged in to create a short."),
       short, db_one_short) /\
  ErrorCode (Errorf EUNAUTHORIZED "You must be logged in to create a short.")
    <> EINVALID.
Proof.
  cbv zeta. repeat split; try discriminate.
Qed.

Lemma CreateShort_failures_witness :
  (exists err short',
     Sqlite.CreateShort render_URL Background 30 db_one_short
       {| Short_URL := example_com; Key := "Zz9aaa"; Owner := None; OwnerID := 0;
          CreatedAt := 0; UpdatedAt := 0 |} = (Some err, short', db_one_short) /\
     ErrorCode err = EUNAUTHORIZED)
  /\
  (exists err short',
     Sqlite.CreateShort render_URL (as_user alice) 30 db_one_short
       {| Short_URL := ftp_x; Key := "Zz9aaa"; Owner := None; OwnerID := 0;
          CreatedAt := 0; UpdatedAt := 0 |} = (Some err, short', db_one_short) /\
     ErrorCode err = EINVALID).
Proof.
  split.
  - apply (CreateShort_failures render_URL Background 30 db_one_short).
    reflexivity.
  - apply (CreateShort_failures render_URL (as_user alice) 30 db_one_short).
    + cbn. lia.
    + right. cbn. split; discriminate.
Defined.

(** The scenario of the spec: an ftp target is refused with INVALID and
    no row is persisted; an https target of an authenticated caller is
    stored. *)
Example CreateShort_scenarios :
  (let '(err, _, db') :=
     Sqlite.CreateShort render_URL (as_user alice) 30 db_one_short
       {| Short_URL := ftp_x; Key := "Zz9aaa"; Owner := None; OwnerID := 0;
          CreatedAt := 0; UpdatedAt := 0 |} in
   err = Some ErrInvalidURLScheme /\ db' = db_one_short)
  /\
  (let '(err, s, db') :=
     Sqlite.CreateShort render_URL (as_user alice) 30 db_one_short
       {| Short_URL := example_com; Key := "Zz9aaa"; Owner := None; OwnerID := 0;
          CreatedAt := 0; UpdatedAt := 0 |} in
   err = None /\ OwnerID s = 1 /\ Owner s = Some alice /\
   Sqlite.shorts db' = [short_row "aB3xY9" 1 20; short_row "Zz9aaa" 1 30]).
Proof. vm_compute. repeat split. Qed.

Section ShortLookup.
Import Sqlite.

Lemma last_cons_default {A : Type} (l : list A) (x d : A) :
  last (x :: l) d = last l x.
Proof.
  revert x d. induction l as [|y l IH]; intros x d; [reflexivity|].
  change (last (x :: y :: l) d) with (last (y :: l) d).
  now rewrite 2!IH.
Qed.

Lemma last_map_const {A B : Type} (c d : B) (x : A) (l : list A) :
  last (map (fun _ => c) (x :: l)) d = c.
Proof.
  cbn [map]. rewrite last_cons_default.
  induction l as [|y l IH]; [reflexivity|].
  cbn [map]. now rewrite last_cons_default.
Qed.

(** The scan loop of [findShorts], in closed form. *)
Lemma scan_loop (rows : list (ShortRow * Z)) (acc : list Short) (n : Z) :
  fold_left (fun (acc : list Short * Z) (row : ShortRow * Z) =>
               (fst acc ++ [scanShort (fst row)], snd row)) rows (acc, n)
  = (acc ++ map (fun row => scanShort (fst row)) rows,
     last (map snd rows) n).
Proof.
  revert acc n. induction rows as [|row rows IH]; intros acc n.
  - cbn. now rewrite app_nil_r.
  - cbn [fold_left fst snd]. rewrite IH. cbn [map]. rewrite <- app_assoc. cbn [app].
    f_equal. symmetry. apply last_cons_default.
Qed.

(** What [findShorts] returns for a filter with a URL: the error of
    the argument, no short and the count 0, whatever the store holds. *)
Lemma findShorts_url_filter (tx : DB) (f : ShortFilter) (u : URL) :
  Filter_URL f = Some u ->
  exists m, findShorts tx f = ([], 0, Some (GoError m)).
Proof.
  intros Hu. unfold findShorts, selectShorts, shorts_args. rewrite Hu.
  cbn [FormatError]. eexists. reflexivity.
Qed.

(** What [findShorts] returns for a filter without a URL: the shorts of
    the window, in table order, and as count the number of all matching
    rows when the window holds a row, but 0 when the window is empty. *)
Lemma findShorts_closed_form (tx : DB) (f : ShortFilter) :
  Filter_URL f = None ->
  let matching := filter (shorts_where f) (shorts tx) in
  let window := FormatLimitOffset (Limit f) (Offset f) matching in
  findShorts tx f =
  (map scanShort window,
   match window with
   | [] => 0
   | _ :: _ => Z.of_nat (List.length matching)
   end,
   None).
Proof.
  intros Hu. cbv zeta. unfold findShorts, selectShorts, shorts_args. rewrite Hu.
  rewrite scan_loop. cbn [app].
  rewrite !map_map. cbn [fst snd].
  f_equal. f_equal.
  destruct (FormatLimitOffset (Limit f) (Offset f) (filter (shorts_where f) (shorts tx)))
    as [|r w]; [reflexivity|].
  apply last_map_const.
Qed.

Lemma findShortByKey_found (tx : DB) (key : string) :
  findShortByKey tx key =
  match filter (fun r => (shorts_key r =? key)%string) (shorts tx) with
  | [] => Err (Errorf ENOTFOUND "Short not found.")
  | r :: _ => Ok (scanShort r)
  end.
Proof.
  unfold findShortByKey. rewrite findShorts_closed_form by reflexivity.
  cbn [Filter_Key Filter_URL Limit Offset]. unfold FormatLimitOffset. cbn [Z.ltb Z.compare].
  assert (E : filter (shorts_where {| Filter_Key := Some key; Filter_URL := None;
                                      Offset := 0; Limit := 0 |}) (shorts tx)
              = filter (fun r => (shorts_key r =? key)%string) (shorts tx)).
  { apply filter_ext. intros r. unfold shorts_where. reflexivity. }
  rewrite E. clear E.
  destruct (filter (fun r => (shorts_key r =? key)%string) (shorts tx)); reflexivity.
Qed.

(** [DeleteShort] of a key that no short has: NOTFOUND, store unchanged. *)
Lemma DeleteShort_not_found (ctx : Context) (db : DB) (key : string) :
  (forall r, In r (shorts db) -> shorts_key r <> key) ->
  DeleteShort ctx db key = (Some (Errorf ENOTFOUND "Short not found."), db).
Proof.
  intros Habs. unfold DeleteShort, deleteShort. rewrite findShortByKey_found.
  destruct (filter _ (shorts db)) as [|r l] eqn:E; [reflexivity|].
  assert (Hin : In r (filter (fun r => (shorts_key r =? key)%string) (shorts db)))
    by (rewrite E; now left).
  apply filter_In in Hin. destruct Hin as [Hin Hk].
  apply String.eqb_eq in Hk. now apply Habs in Hin.
Qed.

(** [DeleteShort] of a key that a short has: the rows with the key are
    removed, whoever the caller is. *)
Lemma DeleteShort_found (ctx : Context) (db : DB) (key : string) (r : ShortRow) :
  In r (shorts db) -> shorts_key r = key ->
  DeleteShort ctx db key = (None, deleteShortRows key db).
Proof.
  intros Hin Hk. unfold DeleteShort, deleteShort. rewrite findShortByKey_found.
  destruct (filter _ (shorts db)) as [|r' l] eqn:E; [|reflexivity].
  assert (Hf : In r (filter (fun r => (shorts_key r =? key)%string) (shorts db))).
  { apply filter_In. split; [exact Hin|]. now apply String.eqb_eq. }
  rewrite E in Hf. destruct Hf.
Qed.

(** X25: for a filter without a URL and without an offset the count is
    the number of all the shorts that match the key of the filter,
    whatever the limit. *)
Lemma FindShorts_count_without_offset (db : DB) (f : ShortFilter) :
  Filter_URL f = None -> Offset f <= 0 ->
  snd (fst (FindShorts db f))
  = Z.of_nat (List.length (filter (shorts_where f) (shorts db))).
Proof.
  intros Hu Hoff. unfold FindShorts. rewrite findShorts_closed_form by exact Hu.
  cbn [fst snd].
  unfold FormatLimitOffset.
  destruct (Z.ltb_spec 0 (Offset f)) as [Hpos|_]; [lia|].
  destruct (filter (shorts_where f) (shorts db)) as [|row rows]; [|].
  - destruct (0 <? Limit f); [rewrite firstn_nil|]; reflexivity.
  - destruct (Z.ltb_spec 0 (Limit f)) as [Hlim|_]; [|reflexivity].
    destruct (Z.to_nat (Limit f)) as [|k] eqn:Ek; [lia|]. reflexivity.
Qed.

(** X26: the shorts returned are a run of consecutive matching shorts,
    in the order of the table, which is the order of insertion. *)
Lemma FindShorts_in_table_order (db : DB) (f : ShortFilter) :
  exists before after,
    map scanShort (filter (shorts_where f) (shorts db))
    = before ++ fst (fst (FindShorts db f)) ++ after.
Proof.
  unfold FindShorts.
  destruct (Filter_URL f) as [u|] eqn:Hu.
  { destruct (findShorts_url_filter db f u Hu) as [m Hm]. rewrite Hm. cbn [fst].
    exists (map scanShort (filter (shorts_where f) (shorts db))), [].
    now rewrite !app_nil_r. }
  rewrite findShorts_closed_form by exact Hu. cbn [fst].
  unfold FormatLimitOffset.
  set (matching := filter (shorts_where f) (shorts db)).
  set (skipped := if 0 <? Offset f then skipn (Z.to_nat (Offset f)) matching
                  else matching).
  assert (Hs : exists before, matching = before ++ skipped).
  { unfold skipped. destruct (0 <? Offset f).
    - exists (firstn (Z.to_nat (Offset f)) matching). now rewrite firstn_skipn.
    - now exists []. }
  destruct Hs as [before Hs].
  exists (map scanShort before).
  destruct (0 <? Limit f).
  - exists (map scanShort (skipn (Z.to_nat (Limit f)) skipped)).
    rewrite <- !map_app. f_equal. now rewrite firstn_skipn.
  - exists []. rewrite app_nil_r, <- map_app. now f_equal.
Qed.


End ShortLookup.

(** C5: the code at the failing input.  The short "aB3xY9" belongs to
    user 1; the caller is user 2, who is not allowed to edit it.
    [DeleteShort] returns no error and the short is gone: a later lookup
    of the key is NOTFOUND.  C5 asks for UNAUTHORIZED and for the
    short to stay. *)
Theorem DeleteShort_by_non_owner :
  Sqlite.findShortByKey db_one_short "aB3xY9"
    = Ok (Sqlite.scanShort (short_row "aB3xY9" 1 20)) /\
  CanEditShort (as_user bob) (Sqlite.scanShort (short_row "aB3xY9" 1 20)) = false /\
  Sqlite.DeleteShort (as_user bob) db_one_short "aB3xY9"
    = (None, Sqlite.set_shorts db_one_short []) /\
  Sqlite.FindShortByKey (Sqlite.set_shorts db_one_short []) "aB3xY9"
    = Err (Errorf ENOTFOUND "Short not found.").
Proof. vm_compute. repeat split. Qed.

(** The parts of C5 that the code does keep: NOTFOUND for an absent key,
    removal for the owner. *)
Example DeleteShort_scenarios :
  Sqlite.DeleteShort (as_user alice) db_one_short "nokey1"
    = (Some (Errorf ENOTFOUND "Short not found."), db_one_short) /\
  Sqlite.DeleteShort (as_user alice) db_one_short "aB3xY9"
    = (None, Sqlite.set_shorts db_one_short []).
Proof. vm_compute. repeat split. Qed.

(** C9: the code at the failing input.  Three shorts are stored and the
    empty filter matches all of them.  With the default limit of the
    listing handler and an offset past the last match no row is
    scanned, so the count stays 0 although three shorts match; with
    offset 0 the same filter counts 3.  The count depends on [Offset]. *)
Theorem FindShorts_count_past_offset :
  Sqlite.FindShorts db_three_shorts
    {| Filter_Key := None; Filter_URL := None; Offset := 5; Limit := 20 |}
    = ([], 0, None) /\
  snd (fst (Sqlite.FindShorts db_three_shorts
    {| Filter_Key := None; Filter_URL := None; Offset := 0; Limit := 20 |})) = 3 /\
  List.length (filter (Sqlite.shorts_where
    {| Filter_Key := None; Filter_URL := None; Offset := 5; Limit := 20 |})
    (Sqlite.shorts db_three_shorts)) = 3%nat.
Proof. vm_compute. repeat split. Qed.

(** The parts of C9 that the code does keep: the shorts come in insertion
    order, and a limit alone does not change the count. *)
Example FindShorts_scenarios :
  map Key (fst (fst (Sqlite.FindShorts db_three_shorts
    {| Filter_Key := None; Filter_URL := None; Offset := 0; Limit := 0 |})))
    = ["12345"; "23456"; "34567"] /\
  (let '(l, n, _) := Sqlite.FindShorts db_three_shorts
    {| Filter_Key := None; Filter_URL := None; Offset := 1; Limit := 1 |} in
   map Key l = ["23456"] /\ n = 3).
Proof. vm_compute. repeat split. Qed.

(* ------------------------------------------------------------------ *)
(** ** Identities: uniqueness and repeated logins                       *)
(* ------------------------------------------------------------------ *)

Section Identities.
Import Sqlite.

Lemma NoDup_snoc {A : Type} (l : list A) (x : A) :
  NoDup l -> ~ In x l -> NoDup (l ++ [x]).
Proof.
  intros Hl Hx. apply NoDup_app.
  - exact Hl.
  - constructor; [intros [] | constructor].
  - intros a Ha [<-|[]]. exact (Hx Ha).
Qed.

(** Deleting rows keeps the keys of a table distinct. *)
Lemma distinct_keys_filter {Row K : Type} (key : Row -> K) (keep : Row -> bool)
      (rows : list Row) :
  NoDup (map key rows) -> NoDup (map key (filter keep rows)).
Proof.
  intros Hd. induction rows as [|row rows IH]; [constructor|].
  cbn [map filter] in *.
  apply NoDup_cons_iff in Hd. destruct Hd as [Hfresh Hd].
  destruct (keep row); [|now apply IH].
  cbn [map]. apply NoDup_cons; [|now apply IH].
  intros Hin. apply Hfresh.
  apply in_map_iff in Hin. destruct Hin as (row' & Hk & Hin).
  apply filter_In in Hin.
  apply in_map_iff. exists row'. tauto.
Qed.

Lemma insertAuth_auths uid src sid acc ref exp now db db' id :
  insertAuth uid src sid acc ref exp now db = inl (db', id) ->
  existsb (fun a => (auths_user_id a =? uid) && (auths_source a =? src)%string)
          (auths db) = false /\
  existsb (fun a => (auths_source a =? src)%string && (auths_source_id a =? sid)%string)
          (auths db) = false /\
  users db' = users db /\
  auths db' = auths db ++
              [{| auths_id := id; auths_user_id := uid;
                  auths_source := src; auths_source_id := sid;
                  auths_access_token := acc; auths_refresh_token := ref;
                  auths_expiry := exp;
                  auths_created_at := now; auths_updated_at := now |}].
Proof.
  unfold insertAuth.
  destruct (existsb (fun a => (auths_user_id a =? uid) && (auths_source a =? src)%string)
                    (auths db)); [discriminate|].
  destruct (existsb (fun a => (auths_source a =? src)%string
                              && (auths_source_id a =? sid)%string)
                    (auths db)); [discriminate|].
  destruct (negb (existsb (fun u => users_id u =? uid) (users db))); [discriminate|].
  intros H. inversion H; subst. cbn. auto.
Qed.

Lemma insertAuth_unique uid src sid acc ref exp now db db' id :
  auths_unique db ->
  insertAuth uid src sid acc ref exp now db = inl (db', id) ->
  auths_unique db'.
Proof.
  intros [H1 H2] Hins.
  apply insertAuth_auths in Hins. destruct Hins as (E1 & E2 & _ & Hau).
  unfold auths_unique. rewrite Hau, !map_app. cbn [map].
  split; apply NoDup_snoc; try assumption.
  - intros Hin. apply in_map_iff in Hin. destruct Hin as [a [Ha Hin]].
    unfold auth_account in Ha. cbn in Ha. inversion Ha as [[Hs Hi]].
    assert (Hex : existsb (fun a => (auths_source a =? src)%string
                                    && (auths_source_id a =? sid)%string)
                          (auths db) = true).
    { apply existsb_exists. exists a. split; [exact Hin|].
      rewrite Hs, Hi, !String.eqb_refl. reflexivity. }
    congruence.
  - intros Hin. apply in_map_iff in Hin. destruct Hin as [a [Ha Hin]].
    unfold auth_binding in Ha. cbn in Ha. inversion Ha as [[Hu Hs]].
    assert (Hex : existsb (fun a => (auths_user_id a =? uid)
                                    && (auths_source a =? src)%string)
                          (auths db) = true).
    { apply existsb_exists. exists a. split; [exact Hin|].
      rewrite Hu, Hs, Z.eqb_refl, String.eqb_refl. reflexivity. }
    congruence.
Qed.

Lemma insertUser_tables name email key now db db' id :
  insertUser name email key now db = inl (db', id) ->
  auths db' = auths db /\
  users db' = users db ++
              [{| users_id := id; users_name := name; users_email := email;
                  users_api_key := key;
                  users_created_at := now; users_updated_at := now |}].
Proof.
  unfold insertUser.
  destruct (match email with Some _ => _ | None => _ end); [discriminate|].
  destruct (existsb _ (users db)); [discriminate|].
  intros H. inversion H; subst. cbn. auto.
Qed.

Lemma updateAuthRows_keys id acc ref exp db :
  map auth_account (auths (updateAuthRows id acc ref exp db))
    = map auth_account (auths db) /\
  map auth_binding (auths (updateAuthRows id acc ref exp db))
    = map auth_binding (auths db).
Proof.
  unfold updateAuthRows. cbn [auths set_auths]. rewrite !map_map.
  split; apply map_ext; intros a; destruct (auths_id a =? id); reflexivity.
Qed.

Lemma updateAuthRows_unique id acc ref exp db :
  auths_unique db -> auths_unique (updateAuthRows id acc ref exp db).
Proof.
  unfold auths_unique. destruct (updateAuthRows_keys id acc ref exp db) as [-> ->].
  trivial.
Qed.

Lemma deleteUserRows_unique id db :
  auths_unique db -> auths_unique (deleteUserRows id db).
Proof.
  unfold auths_unique, deleteUserRows. cbn [auths].
  intros [H1 H2]. split; now apply distinct_keys_filter.
Qed.

Lemma CreateAuth_unique now key db auth :
  auths_unique db -> auths_unique (snd (CreateAuth now key db auth)).
Proof.
  intros Hu. unfold CreateAuth.
  destruct (findAuthBySourceID db (Source auth) (SourceID auth)) as [other|].
  - destruct (findUserByID _ (auths_user_id other)); cbn [snd];
      [now apply updateAuthRows_unique | exact Hu].
  - destruct (SourceID auth =? "")%string; [exact Hu|].
    destruct (if (_ =? "")%string then None else findUserByEmail db _) as [u|].
    + destruct (insertAuth (users_id u) _ _ _ _ _ now db) as [[tx id]|err] eqn:E.
      * cbn [snd]. exact (insertAuth_unique _ _ _ _ _ _ _ _ _ _ Hu E).
      * destruct err; exact Hu.
    + destruct (insertUser _ _ key now db) as [[tx uid]|err] eqn:EU; [|exact Hu].
      assert (Hu' : auths_unique tx).
      { apply insertUser_tables in EU. destruct EU as [Ha _].
        unfold auths_unique. now rewrite Ha. }
      destruct (insertAuth uid _ _ _ _ _ now tx) as [[tx' id]|err] eqn:E.
      * destruct (findUserByID tx' uid); cbn [snd]; [|exact Hu].
        exact (insertAuth_unique _ _ _ _ _ _ _ _ _ _ Hu' E).
      * destruct err; exact Hu.
Qed.

Lemma findUserByID_ID db id u : findUserByID db id = Ok u -> ID u = id.
Proof.
  unfold findUserByID.
  destruct (find (fun u => users_id u =? id) (users db)) as [r|] eqn:E; [|discriminate].
  intros H. inversion H; subst. cbn.
  apply find_some in E. now apply Z.eqb_eq.
Qed.

Lemma findUserByID_of_row db r :
  In r (users db) -> exists u, findUserByID db (users_id r) = Ok u.
Proof.
  intros Hin. unfold findUserByID.
  destruct (find (fun u => users_id u =? users_id r) (users db)) as [r'|] eqn:E; [eauto|].
  pose proof (find_none _ _ E r Hin) as Hn. cbn in Hn.
  rewrite Z.eqb_refl in Hn. discriminate.
Qed.

Lemma find_app_none {A : Type} (p : A -> bool) (l l' : list A) :
  find p l = None -> find p (l ++ l') = find p l'.
Proof.
  induction l as [|a l IH]; cbn; [reflexivity|].
  destruct (p a); [discriminate | exact IH].
Qed.

Lemma find_map_inv {A : Type} (p : A -> bool) (g : A -> A) (l : list A) :
  (forall a, p (g a) = p a) ->
  find p (map g l) = option_map g (find p l).
Proof.
  intros Hp. induction l as [|a l IH]; cbn; [reflexivity|].
  rewrite Hp. destruct (p a); [reflexivity | exact IH].
Qed.

(** Step 1 of the algorithm, in closed form: when the identity exists
    and its owner is found, the tokens and the expiry of the identity
    are updated and the owner is the result. *)
Lemma CreateAuth_existing now key db auth other u :
  findAuthBySourceID db (Source auth) (SourceID auth) = Some other ->
  findUserByID db (auths_user_id other) = Ok u ->
  CreateAuth now key db auth =
  (Ok {| Auth_ID := auths_id other; UserID := ID u; Auth_User := Some u;
         Source := Source auth; SourceID := SourceID auth;
         AccessToken := AccessToken auth; RefreshToken := RefreshToken auth;
         Expiry := Expiry auth |},
   updateAuthRows (auths_id other) (AccessToken auth) (RefreshToken auth)
                  (Expiry auth) db).
Proof.
  intros Hf Hu. unfold CreateAuth. rewrite Hf.
  change (findUserByID (updateAuthRows (auths_id other) (AccessToken auth)
                          (RefreshToken auth) (Expiry auth) db)
                       (auths_user_id other))
    with (findUserByID db (auths_user_id other)).
  now rewrite Hu.
Qed.

Lemma find_new_auth db src sid row :
  findAuthBySourceID db src sid = None ->
  auths_source row = src -> auths_source_id row = sid ->
  find (fun a => (auths_source a =? src)%string && (auths_source_id a =? sid)%string)
       (auths db ++ [row]) = Some row.
Proof.
  intros Hn Hs Hi. unfold findAuthBySourceID in Hn.
  rewrite (find_app_none _ _ _ Hn). cbn.
  now rewrite Hs, Hi, !String.eqb_refl.
Qed.

(** After a successful [CreateAuth] the identity of the assertion is
    stored, and its owner is the user that was returned. *)
Lemma CreateAuth_post now key db auth a1 db1 :
  CreateAuth now key db auth = (Ok a1, db1) ->
  exists other u,
    findAuthBySourceID db1 (Source auth) (SourceID auth) = Some other /\
    findUserByID db1 (auths_user_id other) = Ok u /\
    ID u = UserID a1 /\ auths_id other = Auth_ID a1.
Proof.
  unfold CreateAuth.
  destruct (findAuthBySourceID db (Source auth) (SourceID auth)) as [other|] eqn:Hf.
  - change (findUserByID (updateAuthRows (auths_id other) (AccessToken auth)
                            (RefreshToken auth) (Expiry auth) db)
                         (auths_user_id other))
      with (findUserByID db (auths_user_id other)).
    destruct (findUserByID db (auths_user_id other)) as [u|] eqn:Hu; [|discriminate].
    intros H. inversion H; subst. clear H.
    set (g := fun a => if auths_id a =? auths_id other
                       then updateAuthRow (AccessToken auth) (RefreshToken auth)
                                          (Expiry auth) a
                       else a).
    exists (g other), u.
    assert (Hg : forall a, auths_user_id (g a) = auths_user_id a /\
                           auths_id (g a) = auths_id a /\
                           auths_source (g a) = auths_source a /\
                           auths_source_id (g a) = auths_source_id a).
    { intros a. unfold g. destruct (auths_id a =? auths_id other); cbn; auto. }
    repeat split.
    + unfold findAuthBySourceID, updateAuthRows. cbn [auths set_auths].
      fold g. rewrite find_map_inv.
      * unfold findAuthBySourceID in Hf. now rewrite Hf.
      * intros a. destruct (Hg a) as (_ & _ & -> & ->). reflexivity.
    + destruct (Hg other) as (-> & _). exact Hu.
    + apply (Hg other).
  - destruct (SourceID auth =? "")%string; [discriminate|].
    destruct (if (_ =? "")%string then None else findUserByEmail db _) as [r|] eqn:Hr.
    + destruct (insertAuth (users_id r) _ _ _ _ _ now db) as [[tx id]|err] eqn:E;
        [|destruct err; discriminate].
      intros H. inversion H; subst. clear H. cbn [UserID Auth_ID ID userOfRow].
      apply insertAuth_auths in E. destruct E as (_ & _ & Hus & Hau).
      assert (Hin : In r (users db)).
      { destruct (_ =? "")%string; [discriminate|].
        unfold findUserByEmail in Hr. now apply find_some in Hr. }
      destruct (findUserByID_of_row db r Hin) as [u Hu].
      eexists _, u. repeat split.
      * unfold findAuthBySourceID. rewrite Hau. now apply find_new_auth.
      * cbn [auths_user_id]. unfold findUserByID in *. now rewrite Hus.
      * now apply findUserByID_ID in Hu.
      * reflexivity.
    + destruct (insertUser _ _ key now db) as [[tx uid]|err] eqn:EU; [|discriminate].
      destruct (insertAuth uid _ _ _ _ _ now tx) as [[tx' id]|err] eqn:E;
        [|destruct err; discriminate].
      destruct (findUserByID tx' uid) as [u|] eqn:Hu; [|discriminate].
      intros H. inversion H; subst. clear H. cbn [UserID Auth_ID].
      apply insertAuth_auths in E. destruct E as (_ & _ & _ & Hau).
      apply insertUser_tables in EU. destruct EU as [Ha _].
      eexists _, u. repeat split.
      * unfold findAuthBySourceID. rewrite Hau, Ha. now apply find_new_auth.
      * exact Hu.
      * now apply findUserByID_ID in Hu.
Qed.

(** The identity that the update of step 1 leaves under its (provider,
    subject): the one that was there, with the new tokens and expiry. *)
Lemma updateAuthRows_find db src sid other acc ref exp :
  findAuthBySourceID db src sid = Some other ->
  exists row,
    findAuthBySourceID (updateAuthRows (auths_id other) acc ref exp db) src sid
      = Some row /\
    auths_id row = auths_id other /\ auths_user_id row = auths_user_id other /\
    auths_access_token row = acc /\ auths_refresh_token row = ref /\
    auths_expiry row = exp.
Proof.
  intros Hf. unfold findAuthBySourceID, updateAuthRows in *. cbn [auths set_auths].
  rewrite find_map_inv.
  - rewrite Hf. cbn [option_map]. rewrite Z.eqb_refl. eexists. split; [reflexivity|].
    cbn. repeat split.
  - intros a. destruct (auths_id a =? auths_id other); reflexivity.
Qed.

(** The table of identities after the update, row by row. *)
Lemma updateAuthRows_rows id acc ref exp db :
  Forall2 (fun old new =>
             if auths_id old =? id
             then auths_id new = auths_id old /\
                  auths_user_id new = auths_user_id old /\
                  auths_source new = auths_source old /\
                  auths_source_id new = auths_source_id old /\
                  auths_created_at new = auths_created_at old /\
                  auths_access_token new = acc /\
                  auths_refresh_token new = ref /\
                  auths_expiry new = exp
             else new = old)
          (auths db) (auths (updateAuthRows id acc ref exp db)).
Proof.
  unfold updateAuthRows. cbn [auths set_auths].
  induction (auths db) as [|a l IH]; cbn [map]; constructor; [|exact IH].
  destruct (auths_id a =? id); cbn; [repeat split | reflexivity].
Qed.

(** C4: after a successful resolution of a (provider, subject), every
    further resolution of the same pair succeeds with the same user id
    and the same identity id.  It creates no user and no identity: the
    users, the shorts and both id counters are as they were, and the
    identities are as many, under the same (provider, subject) pairs.
    The identity stored for the pair then holds the access token, the
    refresh token and the expiry of the second assertion, under the id
    and the user it had; row by row, the identity with that id keeps
    its id, user, provider, subject and creation time and takes the new
    tokens and expiry, and every other identity is untouched. *)
Theorem CreateAuth_idempotent now1 key1 db auth1 a1 db1 now2 key2 auth2 :
  CreateAuth now1 key1 db auth1 = (Ok a1, db1) ->
  Source auth2 = Source auth1 -> SourceID auth2 = SourceID auth1 ->
  exists a2 db2,
    CreateAuth now2 key2 db1 auth2 = (Ok a2, db2) /\
    UserID a2 = UserID a1 /\ Auth_ID a2 = Auth_ID a1 /\
    users db2 = users db1 /\ shorts db2 = shorts db1 /\
    users_seq db2 = users_seq db1 /\ auths_seq db2 = auths_seq db1 /\
    List.length (auths db2) = List.length (auths db1) /\
    map auth_account (auths db2) = map auth_account (auths db1) /\
    (exists row,
       findAuthBySourceID db2 (Source auth1) (SourceID auth1) = Some row /\
       auths_id row = Auth_ID a1 /\ auths_user_id row = UserID a1 /\
       auths_access_token row = AccessToken auth2 /\
       auths_refresh_token row = RefreshToken auth2 /\
       auths_expiry row = Expiry auth2) /\
    Forall2 (fun old new =>
               if auths_id old =? Auth_ID a1
               then auths_id new = auths_id old /\
                    auths_user_id new = auths_user_id old /\
                    auths_source new = auths_source old /\
                    auths_source_id new = auths_source_id old /\
                    auths_created_at new = auths_created_at old /\
                    auths_access_token new = AccessToken auth2 /\
                    auths_refresh_token new = RefreshToken auth2 /\
                    auths_expiry new = Expiry auth2
               else new = old)
            (auths db1) (auths db2).
Proof.
  intros H1 Hs Hi.
  destruct (CreateAuth_post _ _ _ _ _ _ H1) as (other & u & Hf & Hu & Hid & Haid).
  pose proof (findUserByID_ID _ _ _ Hu) as Huid.
  destruct (updateAuthRows_find db1 _ _ other (AccessToken auth2) (RefreshToken auth2)
              (Expiry auth2) Hf) as (row & Hrow & Hr1 & Hr2 & Hr3 & Hr4 & Hr5).
  rewrite <- Hs, <- Hi in Hf.
  eexists _, _. split; [exact (CreateAuth_existing now2 key2 db1 auth2 other u Hf Hu)|].
  cbn [UserID Auth_ID]. rewrite <- Haid.
  split; [exact Hid|]. split; [reflexivity|].
  split; [reflexivity|]. split; [reflexivity|].
  split; [reflexivity|]. split; [reflexivity|].
  split; [unfold updateAuthRows; cbn [auths set_auths]; now rewrite length_map|].
  split; [apply updateAuthRows_keys|].
  split.
  - exists row. split; [exact Hrow|].
    repeat split; try assumption. congruence.
  - apply updateAuthRows_rows.
Qed.


Section Invariant.
Variable URL_String : URL -> string.

Lemma CreateShort_auths ctx now db short :
  auths (snd (CreateShort URL_String ctx now db short)) = auths db.
Proof.
  unfold CreateShort, createShort.
  destruct (UserIDFromContext ctx =? 0); [reflexivity|].
  destruct (Validate URL_String _); [reflexivity|].
  unfold insertShort.
  destruct (existsb _ (shorts db)); [reflexivity|].
  destruct (negb _); [reflexivity|].
  destruct (attachShortAssociations _ _). reflexivity.
Qed.

Lemma DeleteShort_auths ctx db key :
  auths (snd (DeleteShort ctx db key)) = auths db.
Proof.
  unfold DeleteShort, deleteShort.
  destruct (findShortByKey db key); reflexivity.
Qed.

Lemma apply_unique (op : Op) (db : DB) :
  auths_unique db -> auths_unique (apply URL_String op db).
Proof.
  intros Hu. destruct op as [now key auth|ctx id|ctx now short|ctx key]; cbn [apply].
  - now apply CreateAuth_unique.
  - unfold DeleteUser. destruct (findUserByID db id) as [u|]; [|exact Hu].
    destruct (negb _); cbn [snd]; [exact Hu | now apply deleteUserRows_unique].
  - unfold auths_unique. now rewrite CreateShort_auths.
  - unfold auths_unique. now rewrite DeleteShort_auths.
Qed.

(** C8: in every state the store can reach from the empty database
    through the operations of the services there is at most one
    identity per (provider, subject) and at most one per (user,
    provider); and every operation, successful or not, preserves both
    constraints. *)
Theorem auths_unique_invariant :
  (forall db, reachable URL_String db -> auths_unique db) /\
  (forall op db, auths_unique db -> auths_unique (apply URL_String op db)).
Proof.
  split; [|exact apply_unique].
  intros db Hr. induction Hr as [|db op Hr IH].
  - split; constructor.
  - now apply apply_unique.
Qed.

End Invariant.
End Identities.

Lemma CreateAuth_idempotent_witness :
  Sqlite.CreateAuth 100 "key-A" Sqlite.empty_db github_123
    = (Ok first_login_auth, db_after_first_login) /\
  map Sqlite.auths_access_token (Sqlite.auths db_after_first_login) = ["tok1"] /\
  exists a2 db2,
    Sqlite.CreateAuth 200 "key-B" db_after_first_login github_123_later
      = (Ok a2, db2) /\
    UserID a2 = UserID first_login_auth /\ Auth_ID a2 = Auth_ID first_login_auth /\
    Sqlite.users db2 = Sqlite.users db_after_first_login /\
    List.length (Sqlite.auths db2) = 1%nat /\
    exists row,
      Sqlite.findAuthBySourceID db2 "github" "123" = Some row /\
      Sqlite.auths_access_token row = "tok2".
Proof.
  split; [reflexivity|]. split; [reflexivity|].
  destruct (CreateAuth_idempotent 100 "key-A" Sqlite.empty_db github_123
              first_login_auth db_after_first_login 200 "key-B" github_123_later
              eq_refl eq_refl eq_refl)
    as (a2 & db2 & Hc & Hu & Ha & Hus & _ & _ & _ & Hlen & _ & Hrow & _).
  exists a2, db2. split; [exact Hc|]. split; [exact Hu|]. split; [exact Ha|].
  split; [exact Hus|]. split; [exact Hlen|].
  destruct Hrow as (row & Hf & _ & _ & Hacc & _).
  exists row. split; [exact Hf | exact Hacc].
Defined.

Lemma auths_unique_invariant_witness :
  Sqlite.reachable render_URL db_after_first_login /\
  Sqlite.auths_unique db_after_first_login /\
  Sqlite.auths_unique
    (Sqlite.apply render_URL (Sqlite.OpCreateAuth 300 "key-C" github_789)
                  db_after_first_login).
Proof.
  assert (R : Sqlite.reachable render_URL db_after_first_login).
  { exact (Sqlite.reachable_step render_URL Sqlite.empty_db
             (Sqlite.OpCreateAuth 100 "key-A" github_123)
             (Sqlite.reachable_empty render_URL)). }
  split; [exact R|]. split.
  - exact (proj1 (auths_unique_invariant render_URL) _ R).
  - apply (proj2 (auths_unique_invariant render_URL)).
    exact (proj1 (auths_unique_invariant render_URL) _ R).
Defined.

(** The scenarios of the spec for the identity linker. *)
Example CreateAuth_scenarios :
  (* new account: one user, one identity *)
  (Sqlite.users db_after_first_login
     = [{| Sqlite.users_id := 1; Sqlite.users_name := "A";
           Sqlite.users_email := Some "a@x.com"; Sqlite.users_api_key := "key-A";
           Sqlite.users_created_at := 100; Sqlite.users_updated_at := 100 |}] /\
   map Sqlite.auth_account (Sqlite.auths db_after_first_login) = [("github", "123")]) /\
  (* cross-provider linking: one user, two identities *)
  (let '(res, db) := Sqlite.CreateAuth 200 "key-B" db_after_first_login google_456 in
   (exists a, res = Ok a /\ UserID a = 1) /\
   List.length (Sqlite.users db) = 1%nat /\
   map Sqlite.auth_binding (Sqlite.auths db) = [(1, "github"); (1, "google")]) /\
  (* provider reuse: CONFLICT, nothing changes *)
  (Sqlite.CreateAuth 200 "key-B" db_after_first_login github_789
     = (Err (Errorf ECONFLICT "This account is already linked."),
        db_after_first_login)).
Proof.
  vm_compute. repeat split. eexists. split; reflexivity.
Qed.

(* ------------------------------------------------------------------ *)
(** ** Sessions and the OAuth callbacks                                 *)
(* ------------------------------------------------------------------ *)

Section Sessions.
Import Http.

Lemma session_decode_failure (s : Server) (r : Request) (value : string) (err : error) :
  Cookie_session r = Some value -> sc_Decode s value = Err err ->
  session s r = (Session_zero, Some err).
Proof.
  intros Hc Hd. unfold session, UnmarshalSession. now rewrite Hc, Hd.
Qed.

(** C1: a callback, of GitHub or of Google, whose [state] form value
    differs from the state of the session read from the cookie answers
    with one error and does nothing else: [CreateAuth] is not called,
    the session cookie is not written (so the user id the client holds
    is the one it had), and the world is as it was.  When the cookie
    decoded, the error is the state mismatch. *)
Theorem callback_state_mismatch (s : Server) (r : Request) (w : World) :
  FormValue r "state" <> State (fst (session s r)) ->
  forall handler,
    handler = handleOAuthGitHubCallback \/ handler = handleOAuthGoogleCallback ->
    existsb is_CreateAuth (trace (handler s r w)) = false /\
    existsb is_session_cookie (trace (handler s r w)) = false /\
    (exists err, handler s r w = ([EvError err], w, None)) /\
    (snd (session s r) = None ->
     handler s r w = ([EvError (GoError "oauth state mismatch")], w, None)).
Proof.
  intros Hne handler Hh. apply String.eqb_neq in Hne.
  assert (E : exists err,
             handler s r w = ([EvError err], w, None) /\
             (snd (session s r) = None -> err = GoError "oauth state mismatch")).
  { destruct Hh; subst handler;
      unfold handleOAuthGitHubCallback, handleOAuthGoogleCallback;
      destruct (session s r) as [sess [err|]]; cbn [fst snd] in *.
    - eexists. split; [reflexivity | discriminate].
    - rewrite Hne. eexists. split; reflexivity.
    - eexists. split; [reflexivity | discriminate].
    - rewrite Hne. eexists. split; reflexivity. }
  destruct E as [err [E Herr]]. rewrite E. repeat split.
  - exists err. reflexivity.
  - intros Hn. now rewrite (Herr Hn).
Qed.

Lemma callback_state_mismatch_witness :
  let r := callback_request (Some "alice-pending") "forged" "code" in
  session test_server r
    = ({| Session_UserID := 1; RedirectURL := ""; State := "nonce-2" |}, None) /\
  FormValue r "state" <> State (fst (session test_server r)) /\
  existsb is_CreateAuth (trace (handleOAuthGitHubCallback test_server r world_empty))
    = false /\
  existsb is_session_cookie (trace (handleOAuthGitHubCallback test_server r world_empty))
    = false /\
  (exists err, handleOAuthGitHubCallback test_server r world_empty
               = ([EvError err], world_empty, None)) /\
  (snd (session test_server r) = None ->
   handleOAuthGitHubCallback test_server r world_empty
     = ([EvError (GoError "oauth state mismatch")], world_empty, None)).
Proof.
  cbv zeta. split; [reflexivity|].
  assert (Hne : FormValue (callback_request (Some "alice-pending") "forged" "code") "state"
                <> State (fst (session test_server
                                 (callback_request (Some "alice-pending") "forged" "code")))).
  { cbn. discriminate. }
  split; [exact Hne|].
  apply (callback_state_mismatch test_server
           (callback_request (Some "alice-pending") "forged" "code") world_empty Hne).
  left. reflexivity.
Defined.

Lemma finishLogin_CreateAuth (s : Server) (sess : Session) (auth a : Auth) (w : World) :
  In (EvCreateAuth a) (trace (finishLogin s sess auth w)) -> a = auth.
Proof.
  unfold finishLogin, call_CreateAuth, orError, setSession, MarshalSession,
    Error, bind, emit, ret, Return, trace.
  destruct (AuthService_CreateAuth s w auth) as [[a'|e] w']; cbn.
  - destruct (sc_Encode s _); cbn; intros H;
      repeat (destruct H as [H|H]; [inversion H; reflexivity || discriminate|]);
      try destruct H.
  - intros H.
    repeat (destruct H as [H|H]; [inversion H; reflexivity || discriminate|]);
      try destruct H.
Qed.

(** C10: whenever the Google callback calls [CreateAuth], the [Auth] it
    passes has the GitHub provider tag as its source, not a Google
    one. *)
Theorem google_callback_source (s : Server) (r : Request) (w : World) (auth : Auth) :
  In (EvCreateAuth auth) (trace (handleOAuthGoogleCallback s r w)) ->
  Source auth = AuthSourceGitHub /\ Source auth <> AuthSourceGoogle.
Proof.
  intros Hin.
  assert (Hsrc : Source auth = AuthSourceGitHub); [|rewrite Hsrc; split; [reflexivity|discriminate]].
  revert Hin. unfold handleOAuthGoogleCallback.
  destruct (session s r) as [sess [err|]]; [cbn; intros [H|[]]; discriminate|].
  destruct (negb (FormValue r "state" =? State sess)%string);
    [cbn; intros [H|[]]; discriminate|].
  unfold call_Exchange, orError, Error, bind at 1 2 3, emit, ret, Return, trace.
  destruct (Exchange s AuthSourceGoogle (FormValue r "code") _) as [tok|e]; cbn;
    [|intros [H|[H|[]]]; discriminate].
  destruct (Google_NewService s (Token_AccessToken tok)) as [e|]; cbn;
    [intros [H|[H|[]]]; discriminate|].
  unfold bind at 1 2. cbn.
  destruct (Google_Userinfo_Get s (Token_AccessToken tok)) as [c|e]; cbn;
    [|intros [H|[H|[H|[]]]]; discriminate].
  destruct (Userinfo_Id c =? "")%string; cbn;
    [intros [H|[H|[H|[]]]]; discriminate|].
  match goal with
  | |- context [finishLogin s sess ?a w] =>
      pose proof (finishLogin_CreateAuth s sess a auth w) as HF;
      destruct (finishLogin s sess a w) as [[ev w'] o]
  end.
  cbn in *. intros [H|[H|Hin]]; try discriminate.
  rewrite (HF Hin). reflexivity.
Qed.

Lemma google_callback_source_witness :
  let auth := assertion AuthSourceGitHub "456" "A" "a@x.com" "tok" in
  In (EvCreateAuth auth)
     (trace (handleOAuthGoogleCallback test_server
               (callback_request (Some "pending") "nonce-1" "good-code") world_empty)) /\
  Source auth = AuthSourceGitHub /\ Source auth <> AuthSourceGoogle.
Proof.
  cbv zeta.
  assert (Hin : In (EvCreateAuth (assertion AuthSourceGitHub "456" "A" "a@x.com" "tok"))
     (trace (handleOAuthGoogleCallback test_server
               (callback_request (Some "pending") "nonce-1" "good-code") world_empty))).
  { vm_compute. right. right. left. reflexivity. }
  split; [exact Hin|].
  exact (google_callback_source test_server
           (callback_request (Some "pending") "nonce-1" "good-code") world_empty _ Hin).
Defined.

(** A Google login on the empty database, from the callback to the
    redirect: the identity is stored under the provider "github". *)
Example google_login_run :
  let out := handleOAuthGoogleCallback test_server
               (callback_request (Some "pending") "nonce-1" "good-code") world_empty in
  trace out =
    [EvExchange "google" "good-code"; EvFetchProfile "google";
     EvCreateAuth (assertion AuthSourceGitHub "456" "A" "a@x.com" "tok");
     EvSetCookie "session" "enc:1::"; EvRedirect "/short" 302] /\
  map Sqlite.auth_account (Sqlite.auths (w_db (final out))) = [("github", "456")].
Proof. vm_compute. split; reflexivity. Qed.

(** C2, as stated, fails: a callback request whose session cookie does
    not decode is answered with an error. *)
Lemma callback_reports_decode_error :
  let r := callback_request (Some "tampered") "nonce-1" "good-code" in
  sc_Decode test_server "tampered"
    = Err (GoError "securecookie: the value is not valid") /\
  session test_server r
    = (Session_zero, Some (GoError "securecookie: the value is not valid")) /\
  trace (handleOAuthGoogleCallback test_server r world_empty)
    = [EvError (GoError "cannot read session: securecookie: the value is not valid")] /\
  existsb is_error (trace (handleOAuthGoogleCallback test_server r world_empty)) = true.
Proof. vm_compute. repeat split. Qed.

(** C2, amended: for a request whose session cookie does not decode,
    [session] returns the empty session together with the decoding
    error.  The middleware drops the error: [authenticate] (without an
    API key header) hands the request on unchanged, so an anonymous
    request stays anonymous (user id 0), and [requireAuth] answers an
    anonymous request without any error response.  The four OAuth
    handlers report the error to the client and stop. *)
Theorem undecodable_session (s : Server) (r : Request) (w : World)
        (value : string) (err : error) (next : Request -> H unit) :
  Cookie_session r = Some value ->
  sc_Decode s value = Err err ->
  session s r = (Session_zero, Some err) /\
  (String.prefix "Bearer " (Header_Authorization r) = false ->
   authenticate s next r w = next r w) /\
  (UserIDFromContext (Ctx r) = 0 ->
   existsb is_error (trace (requireAuth s next r w)) = false) /\
  handleOAuthGitHub s r w = ([EvError err], w, None) /\
  handleOAuthGoogle s r w = ([EvError err], w, None) /\
  handleOAuthGitHubCallback s r w
    = ([EvError (fmt_Errorf "cannot read session: " err)], w, None) /\
  handleOAuthGoogleCallback s r w
    = ([EvError (fmt_Errorf "cannot read session: " err)], w, None).
Proof.
  intros Hc Hd. pose proof (session_decode_failure s r value err Hc Hd) as Hs.
  split; [exact Hs|]. split; [|split].
  - intros Hb. unfold authenticate. rewrite Hb, Hs. cbn.
    unfold bind, ret. destruct (next r w) as [[ev w'] o]. reflexivity.
  - intros Hu. unfold requireAuth. rewrite Hu, Hs. cbn.
    unfold setSession, MarshalSession, bind, emit, ret, trace.
    destruct (sc_Encode s _); reflexivity.
  - unfold handleOAuthGitHub, handleOAuthGoogle, handleOAuthGitHubCallback,
      handleOAuthGoogleCallback. rewrite Hs. repeat split.
Qed.

Lemma undecodable_session_witness :
  let r := callback_request (Some "tampered") "nonce-1" "good-code" in
  Cookie_session r = Some "tampered" /\
  sc_Decode test_server "tampered"
    = Err (GoError "securecookie: the value is not valid") /\
  session test_server r
    = (Session_zero, Some (GoError "securecookie: the value is not valid")).
Proof.
  cbv zeta. split; [reflexivity|]. split; [reflexivity|].
  apply (undecodable_session test_server
           (callback_request (Some "tampered") "nonce-1" "good-code") world_empty
           "tampered" (GoError "securecookie: the value is not valid")
           (fun _ => ret tt)); reflexivity.
Defined.

End Sessions.

(* ------------------------------------------------------------------ *)
(** ** Key collisions on creation                                       *)
(* ------------------------------------------------------------------ *)

Section Collisions.
Import Http.

(** C7, as stated, fails: the first key generated collides with a stored
    short; the handler calls [CreateShort] once and answers CONFLICT,
    leaving unread the random bytes of a second key, although that key
    is free: the same request, repeated on those bytes, succeeds. *)
Lemma first_collision_is_conflict :
  let r := create_request (as_user alice) "https://example.com" in
  let out := handleShortURLCreate test_server r world_collision in
  trace out =
    [EvCreateShort (set_Key (set_URL Short_zero example_com) "aaaaaa");
     EvError (Errorf ECONFLICT "Short with the same key already exists.")] /\
  List.length (filter is_CreateShort (trace out)) = 1%nat /\
  w_rand (final out) = repeat x01 6 /\
  w_db (final out) = w_db world_collision /\
  trace (handleShortURLCreate test_server r (final out)) =
    [EvCreateShort (set_Key (set_URL Short_zero example_com) "bbbbbb");
     EvRenderNewShort "http://localhost:8080/s/bbbbbb" "https://example.com"].
Proof. vm_compute. repeat split. Qed.

Lemma generateKey_db (s : Server) (w w1 : World) (out : Generate.outcome string) :
  generateKey s w = ([], w1, Some out) -> w_db w1 = w_db w /\ w_now w1 = w_now w.
Proof.
  unfold generateKey.
  destruct (Generate.SecureStringFromAlphabet _ _ _) as [o rnd].
  intros H. inversion H; subst. split; reflexivity.
Qed.

Lemma insertShort_collision (row : Sqlite.ShortRow) (db : Sqlite.DB) :
  In (Sqlite.shorts_key row) (map Sqlite.shorts_key (Sqlite.shorts db)) ->
  Sqlite.insertShort row db = inr (Sqlite.UniqueConstraintFailed "shorts.key").
Proof.
  intros Hin. unfold Sqlite.insertShort.
  assert (E : existsb (fun r => (Sqlite.shorts_key r =? Sqlite.shorts_key row)%string)
                      (Sqlite.shorts db) = true).
  { apply in_map_iff in Hin. destruct Hin as [x [Hx Hin]].
    apply existsb_exists. exists x. split; [exact Hin|]. now apply String.eqb_eq. }
  now rewrite E.
Qed.

(** A collision at the store: CONFLICT at once, and the store unchanged. *)
Lemma CreateShort_collision (URL_String : URL -> string) ctx now db short :
  UserIDFromContext ctx <> 0 ->
  URL_String (Short_URL short) <> "" ->
  Scheme (Short_URL short) = "http" \/ Scheme (Short_URL short) = "https" ->
  Key short <> "" ->
  In (Key short) (map Sqlite.shorts_key (Sqlite.shorts db)) ->
  exists short',
    Sqlite.CreateShort URL_String ctx now db short =
    (Some (Errorf ECONFLICT "Short with the same key already exists."), short', db).
Proof.
  intros Hu Hurl Hsch Hkey Hin. unfold Sqlite.CreateShort, Sqlite.createShort.
  apply Z.eqb_neq in Hu. rewrite Hu.
  unfold Validate. cbn [Short_URL Key OwnerID CreatedAt UpdatedAt].
  apply String.eqb_neq in Hurl, Hkey. rewrite Hurl, Hkey, Hu.
  assert (Hs : negb (Scheme (Short_URL short) =? "https")%string
               && negb (Scheme (Short_URL short) =? "http")%string = false).
  { destruct Hsch as [-> | ->]; reflexivity. }
  rewrite Hs. rewrite insertShort_collision by exact Hin.
  cbn. eexists. reflexivity.
Qed.

(** C7, amended: over the sqlite short service, when the key generated
    for a valid request of an authenticated caller collides with the
    key of a stored short, the handler has generated that one key,
    calls [CreateShort] once, and answers CONFLICT; nothing is
    regenerated or retried, and the store is unchanged. *)
Theorem create_collision_conflict (s : Server) (r : Request) (w w1 : World)
        (short0 : Short) (key : string) :
  ShortService_CreateShort s = sqlite_CreateShort (URL_String s) ->
  ((Header_Accept r =? "application/json")%string = true /\
   Body_Short r = Ok short0) \/
  ((Header_Accept r =? "application/json")%string = false /\
   exists url, ParseRequestURI s (FormValue r "url") = Ok url /\
               short0 = set_URL Short_zero url) ->
  generateKey s w = ([], w1, Some (Generate.Done key)) ->
  UserIDFromContext (Ctx r) <> 0 ->
  URL_String s (Short_URL short0) <> "" ->
  Scheme (Short_URL short0) = "http" \/ Scheme (Short_URL short0) = "https" ->
  key <> "" ->
  In key (map Sqlite.shorts_key (Sqlite.shorts (w_db w))) ->
  handleShortURLCreate s r w =
    ([EvCreateShort (set_Key short0 key);
      EvError (Errorf ECONFLICT "Short with the same key already exists.")],
     w1, None) /\
  w_db w1 = w_db w.
Proof.
  intros Hsvc Hreq Hgen Hu Hurl Hsch Hkey Hin.
  destruct (generateKey_db s w w1 _ Hgen) as [Hdb Hnow].
  split; [|exact Hdb].
  assert (Hcs : exists short',
             ShortService_CreateShort s (Ctx r) w1 (set_Key short0 key) =
             (Some (Errorf ECONFLICT "Short with the same key already exists."),
              short', w1)).
  { rewrite Hsvc. unfold sqlite_CreateShort.
    destruct (CreateShort_collision (URL_String s) (Ctx r) (w_now w1) (w_db w1)
                (set_Key short0 key) Hu Hurl Hsch Hkey) as [short' E].
    { cbn [Key set_Key]. now rewrite Hdb. }
    rewrite E. exists short'. destruct w1; reflexivity. }
  destruct Hcs as [short' Hcs].
  unfold handleShortURLCreate.
  destruct Hreq as [[Hj Hb] | [Hj [url [Hp ->]]]]; rewrite Hj.
  - rewrite Hb. unfold bind at 1. cbn [ret].
    unfold bind at 1. rewrite Hgen.
    unfold bind at 1. cbn [ret].
    unfold call_CreateShort, bind, emit, Error, Return. rewrite Hcs. reflexivity.
  - rewrite Hp. unfold bind at 1. cbn [ret].
    unfold bind at 1. rewrite Hgen.
    unfold bind at 1. cbn [ret].
    unfold call_CreateShort, bind, emit, Error, Return. rewrite Hcs. reflexivity.
Qed.

Lemma create_collision_conflict_witness :
  let r := create_request (as_user alice) "https://example.com" in
  let w1 := set_rand world_collision (repeat x01 6) in
  handleShortURLCreate test_server r world_collision =
    ([EvCreateShort (set_Key (set_URL Short_zero example_com) "aaaaaa");
      EvError (Errorf ECONFLICT "Short with the same key already exists.")],
     w1, None) /\
  w_db w1 = w_db world_collision.
Proof.
  cbv zeta.
  apply (create_collision_conflict test_server
           (create_request (as_user alice) "https://example.com")
           world_collision (set_rand world_collision (repeat x01 6))
           (set_URL Short_zero example_com) "aaaaaa").
  - reflexivity.
  - right. split; [reflexivity|]. exists example_com. split; reflexivity.
  - reflexivity.
  - cbn. lia.
  - cbn. discriminate.
  - right. reflexivity.
  - discriminate.
  - cbn. left. reflexivity.
Defined.

End Collisions.

(* ================================================================== *)
(** * Further properties of the code                                    *)
(* ================================================================== *)

(* ------------------------------------------------------------------ *)
(** ** Key generator: the shape of a key and the ways to fail           *)
(* ------------------------------------------------------------------ *)

Section KeyShape.
Import Generate.
Local Open Scope nat_scope.

(** X1: over a non-empty alphabet, for a length that is not negative and
    a random source that can serve it, [SecureStringFromAlphabet]
    returns a key of exactly that many symbols, all of the alphabet, the
    k-th being the one the k-th random byte selects, and it reads
    exactly that many bytes of the source. *)
Theorem SecureStringFromAlphabet_key_shape {rune : Type} (arune : list rune)
        (n : Z) (rnd : Rand) :
  arune <> [] -> (0 <= n)%Z -> Z.to_nat n <= List.length rnd ->
  exists key,
    SecureStringFromAlphabet n arune rnd = (Done key, skipn (Z.to_nat n) rnd) /\
    List.length key = Z.to_nat n /\
    Forall (fun r => In r arune) key /\
    (forall k b, k < Z.to_nat n -> nth_error rnd k = Some b ->
                 nth_error key k = nth_error arune (symbolIndex arune b)).
Proof.
  intros Hne Hn Hlen.
  destruct arune as [|d arune'] eqn:Ea; [congruence|]. rewrite <- Ea in *.
  assert (HL : 0 < List.length arune) by (rewrite Ea; cbn; lia).
  eexists. split; [exact (SecureStringFromAlphabet_done arune d n rnd Hne Hn Hlen)|].
  split; [|split].
  - rewrite length_map, length_firstn. lia.
  - apply Forall_map, Forall_forall. intros b _.
    apply nth_In. unfold symbolIndex. now apply Nat.mod_upper_bound, Nat.neq_0_lt_0.
  - intros k b Hk Hb.
    rewrite nth_error_map, nth_error_firstn.
    destruct (Nat.ltb_spec k (Z.to_nat n)); [|lia].
    rewrite Hb. cbn [option_map]. symmetry. apply nth_error_nth'.
    unfold symbolIndex. now apply Nat.mod_upper_bound, Nat.neq_0_lt_0.
Qed.

Lemma SecureStringFromAlphabet_key_shape_witness :
  let arune := list_ascii_of_string DefaultAlphabet in
  let rnd := [x00; x01; x3e; x3f; xff; x80; x07] in
  arune <> [] /\ (0 <= 6)%Z /\ Z.to_nat 6 <= List.length rnd /\
  exists key,
    SecureStringFromAlphabet 6 arune rnd = (Done key, skipn (Z.to_nat 6) rnd) /\
    List.length key = Z.to_nat 6 /\
    Forall (fun r => In r arune) key /\
    (forall k b, k < Z.to_nat 6 -> nth_error rnd k = Some b ->
                 nth_error key k = nth_error arune (symbolIndex arune b)).
Proof.
  cbv zeta. split; [discriminate|]. split; [lia|]. split; [cbn; lia|].
  apply (SecureStringFromAlphabet_key_shape (list_ascii_of_string DefaultAlphabet) 6
           [x00; x01; x3e; x3f; xff; x80; x07]).
  - discriminate.
  - lia.
  - cbn. lia.
Defined.

(** The key of the bytes above: bytes 62 and 63 wrap to the first two
    symbols. *)
Example SecureStringFromAlphabet_run :
  fst (SecureStringFromAlphabet 6 (list_ascii_of_string DefaultAlphabet)
         [x00; x01; x3e; x3f; xff; x80; x07])
  = Done (list_ascii_of_string "ababhe").
Proof. vm_compute. reflexivity. Qed.

(** X2: the ways [SecureStringFromAlphabet] does not return a key.  A
    negative length panics before the source is read; a source that
    cannot serve the length is an error and nothing is read; length 0
    gives the empty key, even over an empty alphabet; and an empty
    alphabet with a positive length panics, on the division by zero,
    after the bytes were read. *)
Theorem SecureStringFromAlphabet_failures {rune : Type} (arune : list rune)
        (n : Z) (rnd : Rand) :
  ((n < 0)%Z ->
   exists what, SecureStringFromAlphabet n arune rnd = (Panic what, rnd)) /\
  ((0 <= n)%Z -> List.length rnd < Z.to_nat n ->
   exists e, SecureStringFromAlphabet n arune rnd = (Failed e, rnd)) /\
  (n = 0%Z -> SecureStringFromAlphabet n arune rnd = (Done [], rnd)) /\
  (arune = [] -> (0 < n)%Z -> Z.to_nat n <= List.length rnd ->
   exists what,
     SecureStringFromAlphabet n arune rnd = (Panic what, skipn (Z.to_nat n) rnd)).
Proof.
  unfold SecureStringFromAlphabet, generateRandomBytes. repeat split.
  - intros Hn. apply Z.ltb_lt in Hn. rewrite Hn. eauto.
  - intros Hn Hlen. destruct (Z.ltb_spec n 0); [lia|].
    destruct (Nat.leb_spec (Z.to_nat n) (List.length rnd)); [lia|]. eauto.
  - intros ->. reflexivity.
  - intros -> Hn Hlen. destruct (Z.ltb_spec n 0); [lia|].
    destruct (Nat.leb_spec (Z.to_nat n) (List.length rnd)); [|lia].
    destruct (firstn (Z.to_nat n) rnd) as [|b bytes] eqn:E.
    + apply (f_equal (@List.length byte)) in E. rewrite length_firstn in E.
      cbn in E. lia.
    + cbn. eauto.
Qed.

Lemma SecureStringFromAlphabet_failures_witness :
  (exists what,
     SecureStringFromAlphabet (-1) (list_ascii_of_string DefaultAlphabet) [x00]
     = (Panic what, [x00])) /\
  (exists e,
     SecureStringFromAlphabet 6 (list_ascii_of_string DefaultAlphabet) [x00; x01]
     = (Failed e, [x00; x01])) /\
  SecureStringFromAlphabet 0 (@nil ascii) [x00] = (Done [], [x00]) /\
  (exists what,
     SecureStringFromAlphabet 1 (@nil ascii) [x00; x01]
     = (Panic what, skipn (Z.to_nat 1) [x00; x01])).
Proof.
  pose proof (SecureStringFromAlphabet_failures
                (list_ascii_of_string DefaultAlphabet) (-1) [x00]) as (H1 & _).
  pose proof (SecureStringFromAlphabet_failures
                (list_ascii_of_string DefaultAlphabet) 6 [x00; x01]) as (_ & H2 & _).
  pose proof (SecureStringFromAlphabet_failures (@nil ascii) 0 [x00]) as (_ & _ & H3 & _).
  pose proof (SecureStringFromAlphabet_failures (@nil ascii) 1 [x00; x01])
    as (_ & _ & _ & H4).
  split; [|split; [|split]].
  - apply H1. lia.
  - apply H2; cbn; lia.
  - apply H3. reflexivity.
  - apply H4; [reflexivity | lia | cbn; lia].
Defined.

(** X3: a symbol of the alphabet can be selected at all exactly when its
    index is below 256: in an alphabet of more than 256 runes the runes
    from the 257th on never appear in a key, and in a shorter alphabet
    every symbol can appear. *)
Theorem symbol_reachable {rune : Type} (arune : list rune) (i : nat) :
  i < List.length arune -> (0 < preimages arune i <-> i < 256).
Proof.
  intros Hi. rewrite preimages_residues, residues_formula by lia.
  destruct (Nat.le_gt_cases (List.length arune) 256) as [Hle|Hgt].
  - pose proof (Nat.div_str_pos 256 (List.length arune) ltac:(lia)). lia.
  - rewrite Nat.div_small, Nat.mod_small by lia.
    destruct (Nat.ltb_spec i 256); lia.
Qed.

Lemma symbol_reachable_witness :
  61 < List.length (list_ascii_of_string DefaultAlphabet) /\
  (0 < preimages (list_ascii_of_string DefaultAlphabet) 61 <-> 61 < 256).
Proof.
  split; [vm_compute; lia|].
  apply (symbol_reachable (list_ascii_of_string DefaultAlphabet) 61).
  vm_compute. lia.
Defined.

End KeyShape.

(* ------------------------------------------------------------------ *)
(** ** The short service: creation, lookup, deletion                    *)
(* ------------------------------------------------------------------ *)

Section ShortService.
Import Sqlite ShortRows.
Variable URL_String : URL -> string.

Lemma Validate_passes (s : Short) :
  URL_String (Short_URL s) <> "" ->
  Scheme (Short_URL s) = "http" \/ Scheme (Short_URL s) = "https" ->
  Key s <> "" -> OwnerID s <> 0 ->
  Validate URL_String s = None.
Proof.
  intros Hurl Hsch Hkey Hown. unfold Validate.
  apply String.eqb_neq in Hurl, Hkey. apply Z.eqb_neq in Hown.
  rewrite Hurl, Hkey, Hown.
  destruct Hsch as [-> | ->]; reflexivity.
Qed.

Lemma Validate_passed (s : Short) :
  Validate URL_String s = None ->
  URL_String (Short_URL s) <> "" /\
  (Scheme (Short_URL s) = "http" \/ Scheme (Short_URL s) = "https") /\
  Key s <> "" /\ OwnerID s <> 0.
Proof.
  unfold Validate.
  destruct (String.eqb_spec (URL_String (Short_URL s)) ""); [discriminate|].
  destruct (String.eqb_spec (Scheme (Short_URL s)) "https") as [Hs|Hs];
    destruct (String.eqb_spec (Scheme (Short_URL s)) "http") as [Hp|Hp];
    cbn [negb andb]; try discriminate;
    (destruct (String.eqb_spec (Key s) ""); [discriminate|]);
    (destruct (Z.eqb_spec (OwnerID s) 0); [discriminate|]);
    intros _; auto.
Qed.

Lemma findUserByID_member (db : DB) (id : Z) :
  In id (map users_id (users db)) -> exists u, findUserByID db id = Ok u.
Proof.
  intros Hin. apply in_map_iff in Hin. destruct Hin as [r [<- Hin]].
  now apply findUserByID_of_row.
Qed.

Lemma member_existsb (db : DB) (id : Z) :
  existsb (fun u => users_id u =? id) (users db) = true <->
  In id (map users_id (users db)).
Proof.
  rewrite existsb_exists, in_map_iff. split.
  - intros [u [Hin He]]. exists u. split; [now apply Z.eqb_eq | exact Hin].
  - intros [u [He Hin]]. exists u. split; [exact Hin | now apply Z.eqb_eq].
Qed.

Lemma key_existsb (db : DB) (key : string) :
  existsb (fun r => (shorts_key r =? key)%string) (shorts db) = true <->
  In key (map shorts_key (shorts db)).
Proof.
  rewrite existsb_exists, in_map_iff. split.
  - intros [r [Hin He]]. exists r. split; [now apply String.eqb_eq | exact Hin].
  - intros [r [He Hin]]. exists r. split; [exact Hin | now apply String.eqb_eq].
Qed.

(** What a successful [CreateShort] has done. *)
Lemma CreateShort_inserted ctx now db short short' db' :
  CreateShort URL_String ctx now db short = (None, short', db') ->
  let uid := UserIDFromContext ctx in
  let row := {| shorts_key := Key short; shorts_url := Short_URL short;
                shorts_owner_id := uid;
                shorts_created_at := now; shorts_updated_at := now |} in
  db' = set_shorts db (shorts db ++ [row]) /\
  row_ok URL_String db row /\
  ~ In (Key short) (map shorts_key (shorts db)) /\
  short' = fst (attachShortAssociations db'
                  {| Short_URL := Short_URL short; Key := Key short;
                     Owner := Owner short; OwnerID := uid;
                     CreatedAt := now; UpdatedAt := now |}).
Proof.
  cbv zeta. unfold CreateShort, createShort.
  destruct (Z.eqb_spec (UserIDFromContext ctx) 0) as [|Hu]; [discriminate|].
  destruct (Validate URL_String _) as [e|] eqn:HV; [discriminate|].
  apply Validate_passed in HV. cbn [Short_URL Key OwnerID] in HV.
  destruct HV as (Hurl & Hsch & Hkey & _).
  unfold insertShort. cbn [shorts_key shorts_owner_id Key Short_URL OwnerID CreatedAt UpdatedAt].
  destruct (existsb (fun r => (shorts_key r =? Key short)%string) (shorts db)) eqn:Ek;
    [discriminate|].
  destruct (existsb (fun u => users_id u =? UserIDFromContext ctx) (users db)) eqn:Eu;
    cbn [negb]; [|discriminate].
  destruct (attachShortAssociations _ _) as [s'' e] eqn:Ea.
  intros H. inversion H; subst. rewrite Ea. cbn [fst].
  repeat split; auto.
  - now apply member_existsb.
  - intros Hin. apply key_existsb in Hin. congruence.
Qed.

(** [createShort] on a request that passes every check. *)
Lemma createShort_succeeds ctx now db short :
  UserIDFromContext ctx <> 0 ->
  In (UserIDFromContext ctx) (map users_id (users db)) ->
  URL_String (Short_URL short) <> "" ->
  Scheme (Short_URL short) = "http" \/ Scheme (Short_URL short) = "https" ->
  Key short <> "" ->
  ~ In (Key short) (map shorts_key (shorts db)) ->
  createShort URL_String ctx now db short =
  (None,
   {| Short_URL := Short_URL short; Key := Key short; Owner := Owner short;
      OwnerID := UserIDFromContext ctx; CreatedAt := now; UpdatedAt := now |},
   set_shorts db
     (shorts db ++
      [{| shorts_key := Key short; shorts_url := Short_URL short;
          shorts_owner_id := UserIDFromContext ctx;
          shorts_created_at := now; shorts_updated_at := now |}])).
Proof.
  intros Hu Hmem Hurl Hsch Hkey Hfresh. unfold createShort.
  destruct (Z.eqb_spec (UserIDFromContext ctx) 0) as [|_]; [contradiction|].
  rewrite Validate_passes by assumption.
  unfold insertShort. cbn [shorts_key shorts_owner_id Key Short_URL OwnerID CreatedAt UpdatedAt].
  destruct (existsb (fun r => (shorts_key r =? Key short)%string) (shorts db)) eqn:Ek.
  { apply key_existsb in Ek. contradiction. }
  apply member_existsb in Hmem. rewrite Hmem. reflexivity.
Qed.

(** The lookup of a key that was just appended to the table. *)
Lemma FindShortByKey_appended db key url uid t1 t2 owner :
  ~ In key (map shorts_key (shorts db)) ->
  findUserByID db uid = Ok owner ->
  FindShortByKey
    (set_shorts db
       (shorts db ++ [{| shorts_key := key; shorts_url := url; shorts_owner_id := uid;
                         shorts_created_at := t1; shorts_updated_at := t2 |}])) key
  = Ok {| Short_URL := url; Key := key; Owner := Some owner; OwnerID := uid;
          CreatedAt := t1; UpdatedAt := t2 |}.
Proof.
  intros Hfresh Hown.
  unfold FindShortByKey. rewrite findShortByKey_found. cbn [shorts set_shorts].
  rewrite filter_app. cbn [filter shorts_key]. rewrite String.eqb_refl.
  assert (E : filter (fun r => (shorts_key r =? key)%string) (shorts db) = []).
  { destruct (filter _ (shorts db)) as [|r l] eqn:E; [reflexivity|].
    exfalso. apply Hfresh.
    assert (Hin : In r (filter (fun r => (shorts_key r =? key)%string) (shorts db)))
      by (rewrite E; now left).
    apply filter_In in Hin. destruct Hin as [Hin Hk].
    apply String.eqb_eq in Hk. rewrite <- Hk. now apply in_map. }
  rewrite E. cbn [app].
  unfold attachShortAssociations, scanShort.
  cbn [OwnerID shorts_owner_id].
  change (findUserByID (set_shorts db _) uid) with (findUserByID db uid).
  rewrite Hown. reflexivity.
Qed.

(** X4: for an authenticated caller that is a user of the store, a
    non-empty target URL of scheme http or https and a non-empty key
    that no stored short has, [CreateShort] succeeds: it appends one row
    with that key and URL, owned by the caller and stamped with the time
    of the transaction, and returns the short with its owner attached. *)
Theorem CreateShort_success ctx now db short :
  UserIDFromContext ctx <> 0 ->
  In (UserIDFromContext ctx) (map users_id (users db)) ->
  URL_String (Short_URL short) <> "" ->
  Scheme (Short_URL short) = "http" \/ Scheme (Short_URL short) = "https" ->
  Key short <> "" ->
  ~ In (Key short) (map shorts_key (shorts db)) ->
  exists owner,
    findUserByID db (UserIDFromContext ctx) = Ok owner /\
    CreateShort URL_String ctx now db short =
    (None,
     {| Short_URL := Short_URL short; Key := Key short; Owner := Some owner;
        OwnerID := UserIDFromContext ctx; CreatedAt := now; UpdatedAt := now |},
     set_shorts db
       (shorts db ++
        [{| shorts_key := Key short; shorts_url := Short_URL short;
            shorts_owner_id := UserIDFromContext ctx;
            shorts_created_at := now; shorts_updated_at := now |}])).
Proof.
  intros Hu Hmem Hurl Hsch Hkey Hfresh.
  destruct (findUserByID_member db _ Hmem) as [owner Hown].
  exists owner. split; [exact Hown|].
  unfold CreateShort.
  rewrite createShort_succeeds by assumption.
  unfold attachShortAssociations. cbn [OwnerID].
  change (findUserByID (set_shorts db _) (UserIDFromContext ctx))
    with (findUserByID db (UserIDFromContext ctx)).
  rewrite Hown. reflexivity.
Qed.

(** X5: a short that [CreateShort] stored is found under its key.  The
    columns [key] and [owner_id] are a string and an integer, written
    and scanned as they are: after a successful [CreateShort] the
    lookup of the key succeeds, and the short it returns has the key
    that was asked for, the caller as owner id, and the same owner
    attached as the short that [CreateShort] returned, the user with
    that id.  (Nothing is said here of the URL and the times, which are
    written and read through [DBUrl] and [NullTime].) *)
Theorem CreateShort_then_FindShortByKey ctx now db short short' db' :
  CreateShort URL_String ctx now db short = (None, short', db') ->
  exists found owner,
    FindShortByKey db' (Key short) = Ok found /\
    Key found = Key short /\ Key short' = Key short /\
    OwnerID found = UserIDFromContext ctx /\
    OwnerID short' = UserIDFromContext ctx /\
    Owner found = Some owner /\ Owner short' = Some owner /\
    ID owner = UserIDFromContext ctx /\ UserIDFromContext ctx <> 0.
Proof.
  intros HC. apply CreateShort_inserted in HC. cbv zeta in HC.
  destruct HC as (-> & Hok & Hfresh & ->).
  destruct Hok as (_ & _ & _ & Hnz & Hmem). cbn [shorts_owner_id] in Hmem, Hnz.
  destruct (findUserByID_member db _ Hmem) as [owner Hown].
  rewrite (FindShortByKey_appended db _ _ _ _ _ owner Hfresh Hown).
  unfold attachShortAssociations. cbn [OwnerID].
  change (findUserByID (set_shorts db _) (UserIDFromContext ctx))
    with (findUserByID db (UserIDFromContext ctx)).
  rewrite Hown. cbn [fst set_Owner].
  eexists _, owner. split; [reflexivity|]. cbn [Key OwnerID Owner].
  repeat split; try reflexivity; [|exact Hnz].
  eapply findUserByID_ID. exact Hown.
Qed.

(** X6: [CreateShort] takes from its argument the URL and the key only:
    the owner id, the owner and the timestamps it carries are
    overwritten, so two arguments that agree on URL and key give the
    same error, the same store and, on success, the same short. *)
Theorem CreateShort_reads_url_and_key ctx now db short1 short2 :
  Short_URL short1 = Short_URL short2 -> Key short1 = Key short2 ->
  fst (fst (CreateShort URL_String ctx now db short1))
    = fst (fst (CreateShort URL_String ctx now db short2)) /\
  snd (CreateShort URL_String ctx now db short1)
    = snd (CreateShort URL_String ctx now db short2) /\
  (fst (fst (CreateShort URL_String ctx now db short1)) = None ->
   snd (fst (CreateShort URL_String ctx now db short1))
     = snd (fst (CreateShort URL_String ctx now db short2))).
Proof.
  intros Hurl Hkey. unfold CreateShort, createShort.
  destruct (UserIDFromContext ctx =? 0); [cbn; repeat split; discriminate|].
  unfold Validate. cbn [Short_URL Key OwnerID CreatedAt UpdatedAt].
  rewrite Hurl, Hkey.
  destruct (URL_String (Short_URL short2) =? "")%string; [cbn; repeat split; discriminate|].
  destruct (negb _ && negb _); [cbn; repeat split; discriminate|].
  destruct (Key short2 =? "")%string; [cbn; repeat split; discriminate|].
  destruct (UserIDFromContext ctx =? 0); [cbn; repeat split; discriminate|].
  destruct (insertShort _ db) as [tx|e]; [|cbn; repeat split; discriminate].
  unfold attachShortAssociations. cbn [OwnerID].
  destruct (findUserByID tx (UserIDFromContext ctx)); cbn; repeat split.
Qed.

End ShortService.

Lemma CreateShort_success_witness :
  exists owner,
    Sqlite.findUserByID db_one_short (UserIDFromContext (as_user alice)) = Ok owner /\
    Sqlite.CreateShort render_URL (as_user alice) 30 db_one_short
      {| Short_URL := example_com; Key := "Zz9aaa"; Owner := None; OwnerID := 7;
         CreatedAt := 1; UpdatedAt := 2 |} =
    (None,
     {| Short_URL := example_com; Key := "Zz9aaa"; Owner := Some owner;
        OwnerID := 1; CreatedAt := 30; UpdatedAt := 30 |},
     Sqlite.set_shorts db_one_short
       (Sqlite.shorts db_one_short ++ [short_row "Zz9aaa" 1 30])).
Proof.
  apply (CreateShort_success render_URL (as_user alice) 30 db_one_short
           {| Short_URL := example_com; Key := "Zz9aaa"; Owner := None; OwnerID := 7;
              CreatedAt := 1; UpdatedAt := 2 |}).
  - cbn. lia.
  - cbn. left. reflexivity.
  - cbn. discriminate.
  - right. reflexivity.
  - cbn. discriminate.
  - cbn. intros [H|[]]. discriminate.
Defined.

Lemma CreateShort_then_FindShortByKey_witness :
  let short := {| Short_URL := example_com; Key := "Zz9aaa"; Owner := None;
                  OwnerID := 0; CreatedAt := 0; UpdatedAt := 0 |} in
  let out := Sqlite.CreateShort render_URL (as_user alice) 30 db_one_short short in
  fst (fst out) = None /\
  exists found owner,
    Sqlite.FindShortByKey (snd out) "Zz9aaa" = Ok found /\
    Key found = "Zz9aaa" /\ OwnerID found = 1 /\
    Owner found = Some owner /\ ID owner = 1.
Proof.
  cbv zeta. split; [reflexivity|].
  destruct (CreateShort_then_FindShortByKey render_URL (as_user alice) 30 db_one_short
              {| Short_URL := example_com; Key := "Zz9aaa"; Owner := None;
                 OwnerID := 0; CreatedAt := 0; UpdatedAt := 0 |} _ _ eq_refl)
    as (found & owner & Hf & Hk & _ & Ho & _ & Hown & _ & Hid & _).
  exists found, owner.
  split; [exact Hf|]. split; [exact Hk|]. split; [exact Ho|].
  split; [exact Hown | exact Hid].
Defined.

Lemma CreateShort_reads_url_and_key_witness :
  let short1 := {| Short_URL := example_com; Key := "Zz9aaa"; Owner := None;
                   OwnerID := 0; CreatedAt := 0; UpdatedAt := 0 |} in
  let short2 := {| Short_URL := example_com; Key := "Zz9aaa"; Owner := Some bob;
                   OwnerID := 2; CreatedAt := 5; UpdatedAt := 6 |} in
  snd (Sqlite.CreateShort render_URL (as_user alice) 30 db_one_short short1)
    = snd (Sqlite.CreateShort render_URL (as_user alice) 30 db_one_short short2).
Proof.
  cbv zeta.
  apply (CreateShort_reads_url_and_key render_URL (as_user alice) 30 db_one_short
           {| Short_URL := example_com; Key := "Zz9aaa"; Owner := None;
              OwnerID := 0; CreatedAt := 0; UpdatedAt := 0 |}
           {| Short_URL := example_com; Key := "Zz9aaa"; Owner := Some bob;
              OwnerID := 2; CreatedAt := 5; UpdatedAt := 6 |}); reflexivity.
Defined.

Section ShortTable.
Import Sqlite ShortRows.

Lemma filter_key_absent (db : DB) (key : string) :
  ~ In key (map shorts_key (shorts db)) <->
  filter (fun r => (shorts_key r =? key)%string) (shorts db) = [].
Proof.
  split.
  - intros Habs.
    destruct (filter _ (shorts db)) as [|r l] eqn:E; [reflexivity|].
    exfalso. apply Habs.
    assert (Hin : In r (filter (fun r => (shorts_key r =? key)%string) (shorts db)))
      by (rewrite E; now left).
    apply filter_In in Hin. destruct Hin as [Hin Hk].
    apply String.eqb_eq in Hk. rewrite <- Hk. now apply in_map.
  - intros E Hin. apply in_map_iff in Hin. destruct Hin as [r [Hk Hin]].
    assert (Hf : In r (filter (fun r => (shorts_key r =? key)%string) (shorts db))).
    { apply filter_In. split; [exact Hin | now apply String.eqb_eq]. }
    rewrite E in Hf. destruct Hf.
Qed.

(** X9: [findShortByKey] never returns a short of another key: what it
    returns is a stored row with the key asked for, and it fails, with
    NOTFOUND and nothing else, exactly when no stored short has the
    key. *)
Theorem findShortByKey_sound (db : DB) (key : string) :
  match findShortByKey db key with
  | Ok s => Key s = key /\ exists r, In r (shorts db) /\ s = scanShort r
  | Err e => e = Errorf ENOTFOUND "Short not found." /\
             ~ In key (map shorts_key (shorts db))
  end.
Proof.
  rewrite findShortByKey_found.
  destruct (filter (fun r => (shorts_key r =? key)%string) (shorts db)) as [|r l] eqn:E.
  - split; [reflexivity|]. now apply filter_key_absent.
  - assert (Hin : In r (filter (fun r => (shorts_key r =? key)%string) (shorts db)))
      by (rewrite E; now left).
    apply filter_In in Hin. destruct Hin as [Hin Hk]. apply String.eqb_eq in Hk.
    split; [exact Hk|]. exists r. split; [exact Hin | reflexivity].
Qed.

(** X8: deleting a key that a short has removes the rows of that key and
    nothing else: users, identities and the shorts of every other key
    are as before, in the same order; the key is then NOTFOUND, and a
    second deletion is NOTFOUND and leaves the store alone. *)
Theorem DeleteShort_effect (ctx : Context) (db : DB) (key : string) (r : ShortRow) :
  In r (shorts db) -> shorts_key r = key ->
  exists db',
    DeleteShort ctx db key = (None, db') /\
    users db' = users db /\ auths db' = auths db /\
    shorts db' = filter (fun r => negb (shorts_key r =? key)%string) (shorts db) /\
    (forall key', key' <> key -> findShortByKey db' key' = findShortByKey db key') /\
    findShortByKey db' key = Err (Errorf ENOTFOUND "Short not found.") /\
    DeleteShort ctx db' key = (Some (Errorf ENOTFOUND "Short not found."), db').
Proof.
  intros Hin Hk. exists (deleteShortRows key db).
  assert (Habs : forall r', In r' (shorts (deleteShortRows key db)) ->
                            shorts_key r' <> key).
  { intros r' Hr'. cbn in Hr'. apply filter_In in Hr'. destruct Hr' as [_ Hn].
    apply negb_true_iff in Hn. now apply String.eqb_neq. }
  split; [exact (DeleteShort_found ctx db key r Hin Hk)|].
  repeat split.
  - intros key' Hne. rewrite !findShortByKey_found. cbn [shorts deleteShortRows set_shorts].
    assert (E : filter (fun r => (shorts_key r =? key')%string)
                       (filter (fun r => negb (shorts_key r =? key)%string) (shorts db))
                = filter (fun r => (shorts_key r =? key')%string) (shorts db)).
    { clear Hin Habs. induction (shorts db) as [|a l IH]; [reflexivity|]. cbn [filter].
      destruct (String.eqb_spec (shorts_key a) key) as [Ea|Ea]; cbn [negb filter].
      - destruct (String.eqb_spec (shorts_key a) key'); [congruence | exact IH].
      - destruct (shorts_key a =? key')%string; [now rewrite IH | exact IH]. }
    now rewrite E.
  - rewrite findShortByKey_found.
    assert (E : filter (fun r => (shorts_key r =? key)%string)
                       (shorts (deleteShortRows key db)) = []).
    { apply filter_key_absent. intros Hm. apply in_map_iff in Hm.
      destruct Hm as [r' [Hk' Hr']]. exact (Habs r' Hr' Hk'). }
    now rewrite E.
  - now apply DeleteShort_not_found.
Qed.

Lemma DeleteShort_effect_witness :
  exists db',
    DeleteShort (as_user alice) db_three_shorts "23456" = (None, db') /\
    users db' = users db_three_shorts /\ auths db' = auths db_three_shorts /\
    shorts db' = filter (fun r => negb (shorts_key r =? "23456")%string)
                        (shorts db_three_shorts) /\
    (forall key', key' <> "23456" ->
                  findShortByKey db' key' = findShortByKey db_three_shorts key') /\
    findShortByKey db' "23456" = Err (Errorf ENOTFOUND "Short not found.") /\
    DeleteShort (as_user alice) db' "23456"
      = (Some (Errorf ENOTFOUND "Short not found."), db').
Proof.
  apply (DeleteShort_effect (as_user alice) db_three_shorts "23456"
           (short_row "23456" 1 21)).
  - cbn. right. left. reflexivity.
  - reflexivity.
Defined.

Lemma window_incl {A : Type} (limit offset : Z) (rows : list A) :
  incl (FormatLimitOffset limit offset rows) rows /\
  (List.length (FormatLimitOffset limit offset rows) <= List.length rows)%nat.
Proof.
  unfold FormatLimitOffset.
  set (skipped := if 0 <? offset then skipn (Z.to_nat offset) rows else rows).
  assert (Hs : incl skipped rows /\ (List.length skipped <= List.length rows)%nat).
  { unfold skipped. destruct (0 <? offset).
    - split; [|rewrite length_skipn; lia].
      intros x Hx. rewrite <- (firstn_skipn (Z.to_nat offset) rows).
      apply in_or_app. now right.
    - split; [apply incl_refl | lia]. }
  destruct Hs as [Hi Hl]. destruct (0 <? limit).
  - split.
    + intros x Hx. apply Hi. rewrite <- (firstn_skipn (Z.to_nat limit) skipped).
      apply in_or_app. now left.
    + rewrite length_firstn. lia.
  - split; assumption.
Qed.

(** X10: what [FindShorts] returns.  For a filter with a URL the query
    is refused before it runs, whatever the store holds: no short, the
    count 0 and a plain (internal) error.  For a filter without a URL
    there is no error; every short returned is a stored row, with the
    key of the filter when that is set; and the count is never below
    the number of shorts returned and never above the number of rows
    that match. *)
Theorem FindShorts_results (db : DB) (f : ShortFilter) :
  match Filter_URL f with
  | Some _ =>
      exists err, FindShorts db f = ([], 0, Some err) /\ ErrorCode err = EINTERNAL
  | None =>
      snd (FindShorts db f) = None /\
      Forall (fun s => (exists r, In r (shorts db) /\ s = scanShort r) /\
                       match Filter_Key f with
                       | Some key => Key s = key
                       | None => True
                       end)
             (fst (fst (FindShorts db f))) /\
      Z.of_nat (List.length (fst (fst (FindShorts db f))))
        <= snd (fst (FindShorts db f)) /\
      snd (fst (FindShorts db f))
        <= Z.of_nat (List.length (filter (shorts_where f) (shorts db)))
  end.
Proof.
  destruct (Filter_URL f) as [u|] eqn:Hu.
  { destruct (findShorts_url_filter db f u Hu) as [m Hm].
    exists (GoError m). split; [exact Hm | reflexivity]. }
  unfold FindShorts. rewrite findShorts_closed_form by exact Hu. cbn [fst snd].
  set (matching := filter (shorts_where f) (shorts db)).
  destruct (window_incl (Limit f) (Offset f) matching) as [Hincl Hlen].
  split; [reflexivity|]. split; [|split].
  - apply Forall_map, Forall_forall. intros r Hr.
    apply Hincl in Hr. unfold matching in Hr. apply filter_In in Hr.
    destruct Hr as [Hin Hw]. split; [exists r; auto|].
    unfold shorts_where in Hw. cbn [scanShort Key].
    destruct (Filter_Key f) as [key|]; [|exact I].
    now apply String.eqb_eq in Hw.
  - rewrite length_map.
    destruct (FormatLimitOffset (Limit f) (Offset f) matching); cbn [List.length] in *; lia.
  - destruct (FormatLimitOffset (Limit f) (Offset f) matching); lia.
Qed.

(** A listing by URL on the store of three shorts: the URL is the one
    of each of them, and nothing is listed. *)
Example FindShorts_by_url :
  FindShorts db_three_shorts
    {| Filter_Key := None; Filter_URL := Some example_com; Offset := 0; Limit := 0 |}
  = ([], 0,
     Some (GoError "sql: converting argument $1 type: unsupported type url.URL, a struct")).
Proof. reflexivity. Qed.

End ShortTable.

Section ShortInvariant.
Import Sqlite ShortRows.
Variable URL_String : URL -> string.

Lemma row_ok_users (db db' : DB) (r : ShortRow) :
  (forall id, In id (map users_id (users db)) -> In id (map users_id (users db'))) ->
  row_ok URL_String db r -> row_ok URL_String db' r.
Proof.
  intros Hsub (H1 & H2 & H3 & H4 & H5). repeat split; auto.
Qed.

Lemma wellformed_same_shorts (db db' : DB) :
  shorts db' = shorts db ->
  (forall id, In id (map users_id (users db)) -> In id (map users_id (users db'))) ->
  wellformed URL_String db -> wellformed URL_String db'.
Proof.
  intros Hs Hu [Hd Hf]. unfold wellformed. rewrite Hs. split; [exact Hd|].
  eapply Forall_impl; [|exact Hf]. intros r. now apply row_ok_users.
Qed.

Lemma insertAuth_shorts uid src sid acc ref exp now db db' id :
  insertAuth uid src sid acc ref exp now db = inl (db', id) ->
  shorts db' = shorts db.
Proof.
  unfold insertAuth.
  repeat match goal with
         | |- context [if ?c then _ else _] => destruct c; [discriminate|]
         end.
  intros H. inversion H. reflexivity.
Qed.

Lemma insertUser_shorts name email key now db db' id :
  insertUser name email key now db = inl (db', id) -> shorts db' = shorts db.
Proof.
  unfold insertUser.
  repeat match goal with
         | |- context [if ?c then _ else _] => destruct c; [discriminate|]
         end.
  intros H. inversion H. reflexivity.
Qed.

Lemma CreateAuth_wellformed now key db auth :
  wellformed URL_String db -> wellformed URL_String (snd (CreateAuth now key db auth)).
Proof.
  intros Hw. unfold CreateAuth.
  destruct (findAuthBySourceID db (Source auth) (SourceID auth)) as [other|].
  - destruct (findUserByID _ (auths_user_id other)); cbn [snd]; [|exact Hw].
    apply (wellformed_same_shorts db); [reflexivity | auto | exact Hw].
  - destruct (SourceID auth =? "")%string; [exact Hw|].
    destruct (if (_ =? "")%string then None else findUserByEmail db _) as [u|].
    + destruct (insertAuth (users_id u) _ _ _ _ _ now db) as [[tx id]|err] eqn:E;
        [|destruct err; exact Hw].
      cbn [snd]. apply (wellformed_same_shorts db); [|
        | exact Hw].
      * exact (insertAuth_shorts _ _ _ _ _ _ _ _ _ _ E).
      * apply insertAuth_auths in E. destruct E as (_ & _ & -> & _). auto.
    + destruct (insertUser _ _ key now db) as [[tx uid]|err] eqn:EU; [|exact Hw].
      destruct (insertAuth uid _ _ _ _ _ now tx) as [[tx' id]|err] eqn:E;
        [|destruct err; exact Hw].
      destruct (findUserByID tx' uid); cbn [snd]; [|exact Hw].
      apply (wellformed_same_shorts db); [| | exact Hw].
      * rewrite (insertAuth_shorts _ _ _ _ _ _ _ _ _ _ E).
        exact (insertUser_shorts _ _ _ _ _ _ _ EU).
      * apply insertAuth_auths in E. destruct E as (_ & _ & -> & _).
        apply insertUser_tables in EU. destruct EU as [_ ->].
        intros i Hi. rewrite map_app. apply in_or_app. now left.
Qed.

Lemma DeleteUser_wellformed ctx db id :
  wellformed URL_String db -> wellformed URL_String (snd (DeleteUser ctx db id)).
Proof.
  intros Hw. unfold DeleteUser.
  destruct (findUserByID db id) as [u|]; [|exact Hw].
  destruct (negb _); cbn [snd]; [exact Hw|].
  destruct Hw as [Hd Hf]. unfold wellformed, deleteUserRows. cbn [shorts users]. split.
  - now apply distinct_keys_filter.
  - apply Forall_forall. intros r Hr. apply filter_In in Hr. destruct Hr as [Hr Hne].
    apply negb_true_iff, Z.eqb_neq in Hne.
    rewrite Forall_forall in Hf. destruct (Hf r Hr) as (H1 & H2 & H3 & H4 & H5).
    repeat split; auto. cbn [users].
    apply in_map_iff in H5. destruct H5 as [u' [Hid Hu']].
    apply in_map_iff. exists u'. split; [exact Hid|].
    apply filter_In. split; [exact Hu'|].
    apply negb_true_iff, Z.eqb_neq. congruence.
Qed.

Lemma CreateShort_wellformed ctx now db short :
  wellformed URL_String db ->
  wellformed URL_String (snd (CreateShort URL_String ctx now db short)).
Proof.
  intros Hw.
  destruct (CreateShort URL_String ctx now db short) as [[[e|] s'] db'] eqn:HC.
  - apply CreateShort_error_rolls_back in HC. cbn [snd]. now subst.
  - cbn [snd]. apply CreateShort_inserted in HC. cbv zeta in HC.
    destruct HC as (-> & Hok & Hfresh & _). destruct Hw as [Hd Hf].
    unfold wellformed. cbn [shorts set_shorts]. split.
    + rewrite map_app. cbn [map shorts_key]. now apply NoDup_snoc.
    + apply Forall_app. split.
      * eapply Forall_impl; [|exact Hf]. intros r. now apply row_ok_users.
      * constructor; [|constructor]. revert Hok. now apply row_ok_users.
Qed.

Lemma DeleteShort_wellformed ctx db key :
  wellformed URL_String db -> wellformed URL_String (snd (DeleteShort ctx db key)).
Proof.
  intros Hw. unfold DeleteShort, deleteShort.
  destruct (findShortByKey db key); cbn [snd]; [|exact Hw].
  destruct Hw as [Hd Hf]. unfold wellformed, deleteShortRows. cbn [shorts set_shorts].
  split.
  - now apply distinct_keys_filter.
  - apply Forall_forall. intros r Hr. apply filter_In in Hr. destruct Hr as [Hr _].
    rewrite Forall_forall in Hf. exact (Hf r Hr).
Qed.

(** X7: in every state the store reaches from the empty database, and
    across every operation that writes to it, whether it succeeded or
    failed, no two shorts have the same key, and every short has a
    non-empty key, a non-empty target URL of scheme http or https, and
    an owner that is not 0 and is a user of the store. *)
Theorem shorts_wellformed_invariant :
  (forall db, reachable URL_String db -> wellformed URL_String db) /\
  (forall op db, wellformed URL_String db ->
                 wellformed URL_String (apply URL_String op db)).
Proof.
  assert (Hstep : forall op db, wellformed URL_String db ->
                                wellformed URL_String (apply URL_String op db)).
  { intros op db Hw.
    destruct op as [now key auth|ctx id|ctx now short|ctx key]; cbn [apply].
    - now apply CreateAuth_wellformed.
    - now apply DeleteUser_wellformed.
    - now apply CreateShort_wellformed.
    - now apply DeleteShort_wellformed. }
  split; [|exact Hstep].
  intros db Hr. induction Hr as [|db op Hr IH].
  - split; constructor.
  - now apply Hstep.
Qed.

End ShortInvariant.

Lemma shorts_wellformed_invariant_witness :
  let op := Sqlite.OpCreateShort (as_user alice) 150
              {| Short_URL := example_com; Key := "Zz9aaa"; Owner := None;
                 OwnerID := 0; CreatedAt := 0; UpdatedAt := 0 |} in
  Sqlite.reachable render_URL (Sqlite.apply render_URL op db_after_first_login) /\
  map Sqlite.shorts_key
      (Sqlite.shorts (Sqlite.apply render_URL op db_after_first_login)) = ["Zz9aaa"] /\
  ShortRows.wellformed render_URL (Sqlite.apply render_URL op db_after_first_login).
Proof.
  cbv zeta.
  assert (R : Sqlite.reachable render_URL
                (Sqlite.apply render_URL
                   (Sqlite.OpCreateShort (as_user alice) 150
                      {| Short_URL := example_com; Key := "Zz9aaa"; Owner := None;
                         OwnerID := 0; CreatedAt := 0; UpdatedAt := 0 |})
                   db_after_first_login)).
  { apply Sqlite.reachable_step.
    exact (Sqlite.reachable_step render_URL Sqlite.empty_db
             (Sqlite.OpCreateAuth 100 "key-A" github_123)
             (Sqlite.reachable_empty render_URL)). }
  split; [exact R|]. split; [reflexivity|].
  exact (proj1 (shorts_wellformed_invariant render_URL) _ R).
Defined.

(* ------------------------------------------------------------------ *)
(** ** Error statuses                                                   *)
(* ------------------------------------------------------------------ *)

Section Statuses.
Import HttpStatus.

Lemma find_unique_value (order : list (Code * Z)) (kv : Code * Z) :
  NoDup (map snd order) -> In kv order ->
  find (fun x => snd x =? snd kv) order = Some kv.
Proof.
  induction order as [|a l IH]; intros Hd Hin; [destruct Hin|].
  cbn [map] in Hd. apply NoDup_cons_iff in Hd. destruct Hd as [Hfresh Hd].
  cbn [find]. destruct Hin as [->|Hin].
  - now rewrite Z.eqb_refl.
  - destruct (Z.eqb_spec (snd a) (snd kv)) as [E|_]; [|now apply IH].
    exfalso. apply Hfresh. rewrite E. now apply in_map.
Qed.

(** X11: [FromErrorStatusCode] undoes [ErrorStatusCode] on every error
    code, in whatever order the loop meets the entries of the table
    (no two codes share a status, so the first match is the only one);
    and a status that is not in the table gives INTERNAL. *)
Theorem status_round_trip (order : list (Code * Z)) :
  Permutation.Permutation codes order ->
  (forall code, FromErrorStatusCode order (ErrorStatusCode code) = code) /\
  (forall status, ~ In status (map snd codes) ->
                  FromErrorStatusCode order status = EINTERNAL).
Proof.
  intros HP. split.
  - intros code. unfold FromErrorStatusCode.
    assert (Hin : In (code, ErrorStatusCode code) order).
    { eapply Permutation.Permutation_in; [exact HP|].
      destruct code; vm_compute; tauto. }
    assert (Hd : NoDup (map snd order)).
    { eapply Permutation.Permutation_NoDup;
        [apply Permutation.Permutation_map; exact HP|].
      vm_compute. repeat constructor; cbn; intuition discriminate. }
    pose proof (find_unique_value order _ Hd Hin) as E. cbn [snd] in E.
    now rewrite E.
  - intros status Hnot. unfold FromErrorStatusCode.
    destruct (find (fun kv => snd kv =? status) order) as [kv|] eqn:E; [|reflexivity].
    exfalso. apply find_some in E. destruct E as [Hin He]. apply Z.eqb_eq in He.
    apply Hnot. rewrite <- He. apply in_map.
    eapply Permutation.Permutation_in;
      [apply Permutation.Permutation_sym; exact HP | exact Hin].
Qed.

Lemma status_round_trip_witness :
  Permutation.Permutation codes (rev codes) /\
  (forall code, FromErrorStatusCode (rev codes) (ErrorStatusCode code) = code).
Proof.
  assert (HP : Permutation.Permutation codes (rev codes))
    by apply Permutation.Permutation_rev.
  split; [exact HP|].
  exact (proj1 (status_round_trip (rev codes) HP)).
Defined.

End Statuses.

(* ------------------------------------------------------------------ *)
(** ** Sessions: logout, login, the deferred redirect                   *)
(* ------------------------------------------------------------------ *)

Section SessionFlows.
Import Http Routes HttpStatus.

Lemma hex_EncodeToString_length (bytes : list byte) :
  String.length (hex_EncodeToString bytes) = (2 * List.length bytes)%nat.
Proof.
  induction bytes as [|b bytes IH]; [reflexivity|].
  cbn [hex_EncodeToString String.length List.length]. rewrite IH. lia.
Qed.

Lemma hex_EncodeToString_digits (bytes : list byte) :
  forallb is_hex_digit (list_ascii_of_string (hex_EncodeToString bytes)) = true.
Proof.
  induction bytes as [|b bytes IH]; [reflexivity|].
  cbn [hex_EncodeToString list_ascii_of_string forallb]. rewrite IH.
  destruct b; vm_compute; reflexivity.
Qed.

Lemma round_trip_session (s : Server) (r : Request) (x : Session) (buf : string) :
  codec_round_trip s -> sc_Encode s x = Ok buf -> Cookie_session r = Some buf ->
  session s r = (x, None).
Proof.
  intros Hrt He Hc. unfold session, UnmarshalSession. rewrite Hc, (Hrt x buf He).
  reflexivity.
Qed.

(** X12: logout writes the empty session and sends the client to the
    home page, without touching the world; when the codec reads back
    what it wrote, the next request with that cookie and no API key
    passes [authenticate] unchanged, as an anonymous request.  If the
    empty session cannot be encoded the client gets the error and no
    cookie. *)
Theorem logout_then_anonymous (s : Server) (r : Request) (w : World) :
  codec_round_trip s ->
  match sc_Encode s Session_zero with
  | Ok buf =>
      handleLogout s r w
        = ([EvSetCookie SessionCookieName buf; EvRedirect "/" 302], w, Some tt) /\
      forall next r' w',
        Cookie_session r' = Some buf ->
        String.prefix "Bearer " (Header_Authorization r') = false ->
        authenticate s next r' w' = next r' w'
  | Err err => handleLogout s r w = ([EvError err], w, None)
  end.
Proof.
  intros Hrt. unfold handleLogout, setSession, MarshalSession.
  destruct (sc_Encode s Session_zero) as [buf|err] eqn:He; [|reflexivity].
  split; [reflexivity|].
  intros next r' w' Hc Hb. unfold authenticate.
  rewrite Hb, (round_trip_session s r' Session_zero buf Hrt He Hc). cbn.
  unfold bind, ret. destruct (next r' w') as [[ev w''] o]. reflexivity.
Qed.

Lemma Session_eqb_eq (x y : Session) : Session_eqb x y = true -> x = y.
Proof.
  destruct x, y. unfold Session_eqb. cbn. intros H.
  apply andb_true_iff in H. destruct H as [H H3].
  apply andb_true_iff in H. destruct H as [H1 H2].
  apply Z.eqb_eq in H1. apply String.eqb_eq in H2, H3. now subst.
Qed.

Lemma flow_codec_round_trip : codec_round_trip flow_server.
Proof.
  intros x buf. cbn [sc_Encode sc_Decode flow_server].
  unfold flow_Encode, flow_sessions. cbn [find fst snd].
  repeat match goal with
         | |- context [Session_eqb ?e x] =>
             destruct (Session_eqb e x) eqn:E;
             [apply Session_eqb_eq in E; subst x; intros H; inversion H; reflexivity|];
             clear E
         end.
  discriminate.
Qed.

Lemma logout_then_anonymous_witness :
  codec_round_trip flow_server /\
  handleLogout flow_server (page_request (as_user alice) (Some "c3") "/logout")
               world_empty
    = ([EvSetCookie SessionCookieName "c0"; EvRedirect "/" 302], world_empty, Some tt).
Proof.
  split; [exact flow_codec_round_trip|].
  exact (proj1 (logout_then_anonymous flow_server
                  (page_request (as_user alice) (Some "c3") "/logout") world_empty
                  flow_codec_round_trip)).
Defined.

(** X13: the start of a login, for GitHub and for Google.  With 64
    bytes of the random source the handler stores a fresh state in the
    session, 128 hexadecimal digits made of those bytes, keeps the user
    id and the deferred redirect of the session, and sends the client
    to the provider with that state; an encoding error is reported
    instead.  When the source cannot deliver 64 bytes the client gets an
    error, no cookie is written and nothing is read. *)
Theorem login_start (s : Server) (r : Request) (w : World) (sess : Session)
        (handler : Server -> Request -> H unit) (provider : string) (uri : option string) :
  (handler = handleOAuthGitHub /\ provider = AuthSourceGitHub /\ uri = None) \/
  (handler = handleOAuthGoogle /\ provider = AuthSourceGoogle /\
   uri = redirect_uri s "/oauth/google/callback") ->
  session s r = (sess, None) ->
  let state := hex_EncodeToString (firstn 64 (w_rand w)) in
  ((64 <= List.length (w_rand w))%nat ->
   String.length state = 128%nat /\
   forallb is_hex_digit (list_ascii_of_string state) = true /\
   match sc_Encode s (set_State sess state) with
   | Ok buf =>
       handler s r w
       = ([EvSetCookie SessionCookieName buf;
           EvRedirect (AuthCodeURL s provider state uri) 302],
          set_rand w (skipn 64 (w_rand w)), Some tt)
   | Err err => handler s r w = ([EvError err], set_rand w (skipn 64 (w_rand w)), None)
   end) /\
  ((List.length (w_rand w) < 64)%nat ->
   exists err, handler s r w = ([EvError err], w, None)).
Proof.
  intros Hh Hs. cbv zeta. split.
  - intros Hlen. split; [|split].
    + rewrite hex_EncodeToString_length, length_firstn. lia.
    + apply hex_EncodeToString_digits.
    + destruct Hh as [(-> & -> & ->) | (-> & -> & ->)];
        unfold handleOAuthGitHub, handleOAuthGoogle; rewrite Hs;
        unfold rand_ReadFull, setSession, MarshalSession, orError, Error, bind,
          emit, ret, Return;
        (destruct (Nat.leb_spec 64 (List.length (w_rand w))); [|lia]);
        cbn [State set_State];
        destruct (sc_Encode s _); reflexivity.
  - intros Hlen.
    destruct Hh as [(-> & -> & ->) | (-> & -> & ->)];
      unfold handleOAuthGitHub, handleOAuthGoogle; rewrite Hs;
      unfold rand_ReadFull, orError, Error, bind, emit, ret, Return;
      (destruct (Nat.leb_spec 64 (List.length (w_rand w))); [lia|]);
      eexists; reflexivity.
Qed.

Lemma login_start_witness :
  let r := page_request Background (Some "c1") "/oauth/github" in
  session flow_server r
    = ({| Session_UserID := 0; RedirectURL := "/short"; State := "" |}, None) /\
  (64 <= List.length (w_rand world_empty))%nat /\
  handleOAuthGitHub flow_server r world_empty
    = ([EvSetCookie SessionCookieName "c2";
        EvRedirect (AuthCodeURL flow_server AuthSourceGitHub flow_state None) 302],
       set_rand world_empty [], Some tt).
Proof.
  cbv zeta. split; [reflexivity|]. split; [cbn; lia|].
  pose proof (login_start flow_server
                (page_request Background (Some "c1") "/oauth/github") world_empty
                {| Session_UserID := 0; RedirectURL := "/short"; State := "" |}
                handleOAuthGitHub AuthSourceGitHub None
                (or_introl (conj eq_refl (conj eq_refl eq_refl))) eq_refl) as [H _].
  assert (Hlen : (64 <= List.length (w_rand world_empty))%nat) by (cbn; lia).
  destruct (H Hlen) as (_ & _ & H3). exact H3.
Defined.


(** The end of a callback, from [CreateAuth] on: either an error after
    the call, or the new session, which carries the user id that
    [CreateAuth] returned and nothing else, and the redirect. *)
Lemma finishLogin_shape (s : Server) (sess : Session) (auth : Auth) (w : World) :
  (exists m, trace (finishLogin s sess auth w) = [EvCreateAuth auth; EvError (GoError m)]) \/
  (exists auth' buf,
     fst (AuthService_CreateAuth s w auth) = Ok auth' /\
     sc_Encode s {| Session_UserID := UserID auth'; RedirectURL := ""; State := "" |}
       = Ok buf /\
     trace (finishLogin s sess auth w) =
     [EvCreateAuth auth; EvSetCookie SessionCookieName buf;
      EvRedirect (if (RedirectURL sess =? "")%string then "/" else RedirectURL sess) 302]).
Proof.
  unfold finishLogin, call_CreateAuth, orError, setSession, MarshalSession, Error,
    fmt_Errorf, bind, emit, ret, Return, trace.
  destruct (AuthService_CreateAuth s w auth) as [[a'|e] w'] eqn:E; cbn.
  - destruct (sc_Encode s _) as [buf|e] eqn:E2; cbn.
    + right. exists a', buf. repeat split. exact E2.
    + left. eexists. reflexivity.
  - left. eexists. reflexivity.
Qed.

(** The runs of a callback: an error, after at most the calls to the
    provider; or, for a session that was read and whose state is the
    one of the request, the code exchange, the profile request and the
    end of the login. *)
Lemma callback_shape (s : Server) (r : Request) (w : World)
      (handler : Server -> Request -> H unit) (provider : string) :
  (handler = handleOAuthGitHubCallback /\ provider = AuthSourceGitHub) \/
  (handler = handleOAuthGoogleCallback /\ provider = AuthSourceGoogle) ->
  (exists m pre,
     trace (handler s r w) = pre ++ [EvError (GoError m)] /\
     forallb is_provider_call pre = true) \/
  (exists auth,
     snd (session s r) = None /\
     FormValue r "state" = State (fst (session s r)) /\
     trace (handler s r w) =
     [EvExchange provider (FormValue r "code"); EvFetchProfile provider]
       ++ trace (finishLogin s (fst (session s r)) auth w)).
Proof.
  intros [[-> ->] | [-> ->]].
  - unfold handleOAuthGitHubCallback.
    destruct (session s r) as [sess [err|]]; cbn [fst snd];
      [left; exists ("cannot read session: " ++ error_text err)%string, []; split; reflexivity|].
    destruct (String.eqb_spec (FormValue r "state") (State sess)) as [Hst|_]; cbn [negb];
      [|left; exists "oauth state mismatch", []; split; reflexivity].
    unfold call_Exchange, orError, Error, fmt_Errorf, bind at 1 2 3, emit, ret, Return, trace.
    destruct (Exchange s AuthSourceGitHub (FormValue r "code") None) as [tok|e]; cbn;
      [|left; eexists _, [_]; split; reflexivity].
    unfold bind at 1 2. cbn.
    destruct (GitHub_Users_Get s (Token_AccessToken tok)) as [u|e]; cbn;
      [|left; eexists _, [_; _]; split; reflexivity].
    destruct (GitHub_ID u) as [id|]; cbn;
      [|left; eexists _, [_; _]; split; reflexivity].
    match goal with
    | |- context [finishLogin s sess ?a w] => right; exists a
    end.
    split; [reflexivity|]. split; [exact Hst|].
    match goal with
    | |- context [finishLogin s sess ?a w] =>
        destruct (finishLogin s sess a w) as [[ev w'] o]
    end.
    reflexivity.
  - unfold handleOAuthGoogleCallback.
    destruct (session s r) as [sess [err|]]; cbn [fst snd];
      [left; exists ("cannot read session: " ++ error_text err)%string, []; split; reflexivity|].
    destruct (String.eqb_spec (FormValue r "state") (State sess)) as [Hst|_]; cbn [negb];
      [|left; exists "oauth state mismatch", []; split; reflexivity].
    unfold call_Exchange, orError, Error, fmt_Errorf, bind at 1 2 3, emit, ret, Return, trace.
    destruct (Exchange s AuthSourceGoogle (FormValue r "code") _) as [tok|e]; cbn;
      [|left; eexists _, [_]; split; reflexivity].
    destruct (Google_NewService s (Token_AccessToken tok)) as [e|]; cbn;
      [left; eexists _, [_]; split; reflexivity|].
    unfold bind at 1 2. cbn.
    destruct (Google_Userinfo_Get s (Token_AccessToken tok)) as [c|e]; cbn;
      [|left; eexists _, [_; _]; split; reflexivity].
    destruct (Userinfo_Id c =? "")%string; cbn;
      [left; eexists _, [_; _]; split; reflexivity|].
    match goal with
    | |- context [finishLogin s sess ?a w] => right; exists a
    end.
    split; [reflexivity|]. split; [exact Hst|].
    match goal with
    | |- context [finishLogin s sess ?a w] =>
        destruct (finishLogin s sess a w) as [[ev w'] o]
    end.
    reflexivity.
Qed.

Lemma provider_calls_only (pre : list Event) (e : Event) :
  forallb is_provider_call pre = true -> In e pre -> is_provider_call e = true.
Proof.
  intros Hf Hin. rewrite forallb_forall in Hf. now apply Hf.
Qed.

Lemma cookie_written_app (a b : list Event) :
  cookie_written (a ++ b) =
  match cookie_written b with
  | Some v => Some v
  | None => cookie_written a
  end.
Proof.
  unfold cookie_written. rewrite fold_left_app.
  generalize (fold_left
                (fun acc e =>
                   match e with
                   | EvSetCookie name value =>
                       if (name =? SessionCookieName)%string then Some value else acc
                   | _ => acc
                   end) a None).
  induction b as [|e b IH]; intros acc; [destruct acc; reflexivity|].
  cbn [fold_left]. rewrite IH.
  destruct e; try reflexivity.
  destruct (name =? SessionCookieName)%string; cbn [fold_left]; [|reflexivity].
  rewrite (IH (Some value)).
  destruct (fold_left _ b None); reflexivity.
Qed.

Lemma cookie_written_calls (pre : list Event) :
  forallb is_provider_call pre = true -> cookie_written pre = None.
Proof.
  induction pre as [|e pre IH]; [reflexivity|].
  cbn [forallb]. intros H. apply andb_true_iff in H. destruct H as [He Hp].
  change (e :: pre) with ([e] ++ pre). rewrite cookie_written_app, (IH Hp).
  destruct e; try discriminate; reflexivity.
Qed.

(** The cookie a callback writes holds a user id and nothing else. *)
Lemma callback_cookie (s : Server) (r : Request) (w : World)
      (handler : Server -> Request -> H unit) (buf : string) :
  handler = handleOAuthGitHubCallback \/ handler = handleOAuthGoogleCallback ->
  cookie_written (trace (handler s r w)) = Some buf ->
  exists uid,
    sc_Encode s {| Session_UserID := uid; RedirectURL := ""; State := "" |} = Ok buf.
Proof.
  intros Hh Hc.
  assert (Hs : exists provider,
             (handler = handleOAuthGitHubCallback /\ provider = AuthSourceGitHub) \/
             (handler = handleOAuthGoogleCallback /\ provider = AuthSourceGoogle)).
  { destruct Hh; [exists AuthSourceGitHub | exists AuthSourceGoogle]; auto. }
  destruct Hs as [provider Hs].
  destruct (callback_shape s r w handler provider Hs)
    as [(m & pre & Ht & Hp) | (auth & _ & _ & Ht)]; rewrite Ht in Hc.
  - rewrite cookie_written_app in Hc. cbn in Hc.
    rewrite (cookie_written_calls pre Hp) in Hc. discriminate.
  - rewrite cookie_written_app in Hc.
    destruct (finishLogin_shape s (fst (session s r)) auth w)
      as [(m & Hf) | (auth' & buf' & _ & He & Hf)]; rewrite Hf in Hc; cbn in Hc.
    + discriminate.
    + inversion Hc; subst. now exists (UserID auth').
Qed.

Lemma trace_bind_prefix {A B : Type} (m : H A) (k : A -> H B) (w : World) :
  exists rest, trace (bind m k w) = trace (m w) ++ rest.
Proof.
  unfold bind, trace. destruct (m w) as [[ev w'] [a|]].
  - destruct (k a w') as [[ev' w''] b]. now exists ev'.
  - exists []. cbn. now rewrite app_nil_r.
Qed.

(** A callback whose session was read and holds the state of the
    request goes on to the exchange of the code, whatever the world. *)
Lemma callback_accepts (s : Server) (r : Request) (w : World)
      (handler : Server -> Request -> H unit) (provider : string) :
  (handler = handleOAuthGitHubCallback /\ provider = AuthSourceGitHub) \/
  (handler = handleOAuthGoogleCallback /\ provider = AuthSourceGoogle) ->
  snd (session s r) = None ->
  FormValue r "state" = State (fst (session s r)) ->
  exists rest,
    trace (handler s r w) = EvExchange provider (FormValue r "code") :: rest.
Proof.
  intros Hh Herr Hst.
  destruct (session s r) as [sess e] eqn:Hs. cbn [fst snd] in Herr, Hst. subst e.
  destruct Hh as [[-> ->] | [-> ->]];
    unfold handleOAuthGitHubCallback, handleOAuthGoogleCallback;
    rewrite Hs, Hst, String.eqb_refl; cbn [negb];
    match goal with
    | |- context [trace (bind (bind ?m ?f) ?k w)] =>
        destruct (trace_bind_prefix (bind m f) k w) as [rest1 E1];
        destruct (trace_bind_prefix m f w) as [rest2 E2];
        rewrite E1, E2
    end;
    exists (rest2 ++ rest1); reflexivity.
Qed.

(** X14: what a login leaves of its state.  When the codec reads back
    what it wrote, the session cookie that a callback writes carries no
    state: a later callback that presents that cookie with a non-empty
    state is refused with the state mismatch and does nothing else.
    The state itself is not used up.  The handlers keep no record of
    the states they accepted, so the request that was accepted,
    presented again with the cookie it came with, passes the state
    check again in every world, and its code is exchanged again. *)
Theorem callback_cookie_has_no_state (s : Server) (r : Request) (w : World)
        (handler : Server -> Request -> H unit) (provider buf : string) :
  codec_round_trip s ->
  (handler = handleOAuthGitHubCallback /\ provider = AuthSourceGitHub) \/
  (handler = handleOAuthGoogleCallback /\ provider = AuthSourceGoogle) ->
  cookie_written (trace (handler s r w)) = Some buf ->
  (forall (handler' : Server -> Request -> H unit) (r' : Request) (w' : World),
      handler' = handleOAuthGitHubCallback \/ handler' = handleOAuthGoogleCallback ->
      Cookie_session r' = Some buf ->
      FormValue r' "state" <> "" ->
      handler' s r' w' = ([EvError (GoError "oauth state mismatch")], w', None)) /\
  (forall w' : World,
      exists rest,
        trace (handler s r w') = EvExchange provider (FormValue r "code") :: rest).
Proof.
  intros Hrt Hs Hc.
  assert (Hh : handler = handleOAuthGitHubCallback \/ handler = handleOAuthGoogleCallback)
    by (destruct Hs as [[-> _] | [-> _]]; auto).
  split.
  - intros handler' r' w' Hh' Hck Hst.
    destruct (callback_cookie s r w handler buf Hh Hc) as [uid He].
    pose proof (round_trip_session s r' _ buf Hrt He Hck) as Hsess.
    apply String.eqb_neq in Hst.
    destruct Hh'; subst handler';
      unfold handleOAuthGitHubCallback, handleOAuthGoogleCallback;
      rewrite Hsess; cbn [State]; rewrite Hst; reflexivity.
  - intros w'.
    destruct (callback_shape s r w handler provider Hs)
      as [(m & pre & Ht & Hp) | (auth & Herr & Hst & _)].
    + rewrite Ht, cookie_written_app in Hc. cbn in Hc.
      rewrite (cookie_written_calls pre Hp) in Hc. discriminate.
    + exact (callback_accepts s r w' handler provider Hs Herr Hst).
Qed.

Lemma callback_cookie_has_no_state_witness :
  let r := callback_request (Some "c2") flow_state "good-code" in
  let r' := callback_request (Some "c3") flow_state "good-code" in
  codec_round_trip flow_server /\
  cookie_written (trace (handleOAuthGitHubCallback flow_server r world_empty))
    = Some "c3" /\
  handleOAuthGitHubCallback flow_server r' world_empty
    = ([EvError (GoError "oauth state mismatch")], world_empty, None) /\
  exists rest,
    trace (handleOAuthGitHubCallback flow_server r world_one_short)
    = EvExchange AuthSourceGitHub "good-code" :: rest.
Proof.
  cbv zeta. split; [exact flow_codec_round_trip|].
  assert (Hc : cookie_written
                 (trace (handleOAuthGitHubCallback flow_server
                           (callback_request (Some "c2") flow_state "good-code")
                           world_empty)) = Some "c3") by (vm_compute; reflexivity).
  split; [exact Hc|].
  destruct (callback_cookie_has_no_state flow_server
              (callback_request (Some "c2") flow_state "good-code") world_empty
              handleOAuthGitHubCallback AuthSourceGitHub "c3" flow_codec_round_trip
              (or_introl (conj eq_refl eq_refl)) Hc) as [Hnew Hagain].
  split.
  - apply (Hnew handleOAuthGitHubCallback
             (callback_request (Some "c3") flow_state "good-code") world_empty
             (or_introl eq_refl) eq_refl).
    vm_compute. discriminate.
  - exact (Hagain world_one_short).
Defined.

(** X15: the errors of a callback are internal errors.  Every error that
    either callback reports, also the failure of [CreateAuth] whatever
    its code was, is a plain error: it is answered with status 500 and
    logged. *)
Theorem callback_errors_are_internal (s : Server) (r : Request) (w : World)
        (handler : Server -> Request -> H unit) (err : error) :
  handler = handleOAuthGitHubCallback \/ handler = handleOAuthGoogleCallback ->
  In (EvError err) (trace (handler s r w)) ->
  Error_status err = 500 /\ Error_logged err = true.
Proof.
  intros Hh Hin.
  assert (Hgo : exists m, err = GoError m); [|destruct Hgo as [m ->]; split; reflexivity].
  assert (Hs : exists provider,
             (handler = handleOAuthGitHubCallback /\ provider = AuthSourceGitHub) \/
             (handler = handleOAuthGoogleCallback /\ provider = AuthSourceGoogle)).
  { destruct Hh; [exists AuthSourceGitHub | exists AuthSourceGoogle]; auto. }
  destruct Hs as [provider Hs].
  destruct (callback_shape s r w handler provider Hs)
    as [(m & pre & Ht & Hp) | (auth & _ & _ & Ht)]; rewrite Ht in Hin.
  - apply in_app_or in Hin. destruct Hin as [Hin|[Hin|[]]].
    + apply (provider_calls_only pre _ Hp) in Hin. discriminate.
    + inversion Hin; subst. now exists m.
  - destruct (finishLogin_shape s (fst (session s r)) auth w)
      as [(m & Hf) | (auth' & buf' & _ & _ & Hf)]; rewrite Hf in Hin; cbn in Hin.
    + destruct Hin as [H|[H|[H|[H|[]]]]]; try discriminate.
      inversion H; subst. now exists m.
    + destruct Hin as [H|[H|[H|[H|[H|[]]]]]]; discriminate.
Qed.

Lemma callback_errors_are_internal_witness :
  In (EvError (GoError "cannot create auth: This account is already linked."))
     (trace (handleOAuthGoogleCallback flow_server
               (callback_request (Some "c2") flow_state "good-code")
               {| w_db := db_after_first_login; w_rand := repeat x2a 64;
                  w_now := 300 |})) /\
  Error_status (GoError "cannot create auth: This account is already linked.") = 500 /\
  Error_logged (GoError "cannot create auth: This account is already linked.") = true.
Proof.
  assert (Hin : In (EvError (GoError "cannot create auth: This account is already linked."))
     (trace (handleOAuthGoogleCallback flow_server
               (callback_request (Some "c2") flow_state "good-code")
               {| w_db := db_after_first_login; w_rand := repeat x2a 64;
                  w_now := 300 |}))).
  { vm_compute. right. right. right. left. reflexivity. }
  split; [exact Hin|].
  exact (callback_errors_are_internal flow_server _ _ handleOAuthGoogleCallback _
           (or_intror eq_refl) Hin).
Defined.


(** [requireAuth] for an anonymous request, in closed form. *)
Lemma requireAuth_anonymous (s : Server) (next : Request -> H unit) (r : Request)
      (w : World) :
  UserIDFromContext (Ctx r) = 0 ->
  requireAuth s next r w =
  (match sc_Encode s (set_RedirectURL (fst (session s r)) (RequestURI r)) with
   | Ok buf => [EvSetCookie SessionCookieName buf]
   | Err _ => [EvLog "http: cannot set session"]
   end ++ [EvRedirect "/login" 302], w, Some tt).
Proof.
  intros Hu. unfold requireAuth. rewrite Hu. cbn [Z.eqb negb].
  destruct (session s r) as [sess e]. cbn [fst].
  unfold setSession, MarshalSession, bind, emit, ret.
  destruct (sc_Encode s _); reflexivity.
Qed.



(** The cookie that the start of a login writes: the session that was
    read, with a new state. *)
Lemma login_cookie (s : Server) (r : Request) (w : World)
      (handler : Server -> Request -> H unit) (buf : string) :
  handler = handleOAuthGitHub \/ handler = handleOAuthGoogle ->
  cookie_written (trace (handler s r w)) = Some buf ->
  exists state, sc_Encode s (set_State (fst (session s r)) state) = Ok buf.
Proof.
  intros Hh.
  destruct Hh; subst handler; unfold handleOAuthGitHub, handleOAuthGoogle;
    (destruct (session s r) as [sess [e|]]; cbn [fst]; [cbn; discriminate|]);
    unfold rand_ReadFull, setSession, MarshalSession, orError, Error, bind, emit,
      ret, Return, trace;
    (destruct (64 <=? List.length (w_rand w))%nat; cbn; [|discriminate]);
    (destruct (sc_Encode s _) as [buf'|e] eqn:E; cbn; [|discriminate]);
    intros H; inversion H; subst; eexists; exact E.
Qed.

(** Where a callback redirects to: the deferred redirect of the session
    it read, or the home page when there is none. *)
Lemma callback_redirect (s : Server) (r : Request) (w : World)
      (handler : Server -> Request -> H unit) (url : string) (status : Z) :
  handler = handleOAuthGitHubCallback \/ handler = handleOAuthGoogleCallback ->
  In (EvRedirect url status) (trace (handler s r w)) ->
  status = 302 /\
  url = if (RedirectURL (fst (session s r)) =? "")%string
        then "/" else RedirectURL (fst (session s r)).
Proof.
  intros Hh Hin.
  assert (Hs : exists provider,
             (handler = handleOAuthGitHubCallback /\ provider = AuthSourceGitHub) \/
             (handler = handleOAuthGoogleCallback /\ provider = AuthSourceGoogle)).
  { destruct Hh; [exists AuthSourceGitHub | exists AuthSourceGoogle]; auto. }
  destruct Hs as [provider Hs].
  destruct (callback_shape s r w handler provider Hs)
    as [(m & pre & Ht & Hp) | (auth & _ & _ & Ht)]; rewrite Ht in Hin.
  - apply in_app_or in Hin. destruct Hin as [Hin|[Hin|[]]]; [|discriminate].
    apply (provider_calls_only pre _ Hp) in Hin. discriminate.
  - destruct (finishLogin_shape s (fst (session s r)) auth w)
      as [(m & Hf) | (auth' & buf' & _ & _ & Hf)]; rewrite Hf in Hin; cbn in Hin.
    + destruct Hin as [H|[H|[H|[H|[]]]]]; discriminate.
    + destruct Hin as [H|[H|[H|[H|[H|[]]]]]]; try discriminate.
      inversion H. split; reflexivity.
Qed.

(** The cookie [requireAuth] writes for an anonymous request. *)
Lemma requireAuth_cookie (s : Server) (next : Request -> H unit) (r : Request)
      (w : World) (buf : string) :
  UserIDFromContext (Ctx r) = 0 ->
  cookie_written (trace (requireAuth s next r w)) = Some buf ->
  sc_Encode s (set_RedirectURL (fst (session s r)) (RequestURI r)) = Ok buf.
Proof.
  intros Hu. rewrite (requireAuth_anonymous s next r w Hu). cbn [trace fst].
  destruct (sc_Encode s _) as [buf'|e]; cbn; [|discriminate].
  intros H. now inversion H.
Qed.

(** X17: the deferred redirect survives the login.  When the codec reads
    back what it wrote: an anonymous request for a page is turned away
    by [requireAuth], the client starts a login with the cookie it got,
    and comes back to the callback with the cookie of that start; then
    whenever the callback redirects, it redirects to the page first
    asked for. *)
Theorem deferred_redirect (s : Server) (next : Request -> H unit)
        (r0 r1 r2 : Request) (w0 w1 w2 : World) (buf1 buf2 : string)
        (login callback : Server -> Request -> H unit) :
  codec_round_trip s ->
  UserIDFromContext (Ctx r0) = 0 -> RequestURI r0 <> "" ->
  cookie_written (trace (requireAuth s next r0 w0)) = Some buf1 ->
  login = handleOAuthGitHub \/ login = handleOAuthGoogle ->
  Cookie_session r1 = Some buf1 ->
  cookie_written (trace (login s r1 w1)) = Some buf2 ->
  callback = handleOAuthGitHubCallback \/ callback = handleOAuthGoogleCallback ->
  Cookie_session r2 = Some buf2 ->
  forall url status,
    In (EvRedirect url status) (trace (callback s r2 w2)) ->
    url = RequestURI r0 /\ status = 302.
Proof.
  intros Hrt Hu Huri Hc1 Hl Hck1 Hc2 Hcb Hck2 url status Hin.
  pose proof (requireAuth_cookie s next r0 w0 buf1 Hu Hc1) as He1.
  pose proof (round_trip_session s r1 _ buf1 Hrt He1 Hck1) as Hs1.
  destruct (login_cookie s r1 w1 login buf2 Hl Hc2) as [state He2].
  rewrite Hs1 in He2. cbn [fst] in He2.
  pose proof (round_trip_session s r2 _ buf2 Hrt He2 Hck2) as Hs2.
  destruct (callback_redirect s r2 w2 callback url status Hcb Hin) as [-> Hurl].
  rewrite Hs2 in Hurl. cbn [fst RedirectURL set_State set_RedirectURL] in Hurl.
  apply String.eqb_neq in Huri. rewrite Huri in Hurl. split; [exact Hurl | reflexivity].
Qed.


Lemma deferred_redirect_witness :
  let r0 := page_request Background None "/short" in
  let r1 := page_request Background (Some "c1") "/oauth/github" in
  let r2 := callback_request (Some "c2") flow_state "good-code" in
  cookie_written (trace (requireAuth flow_server (fun _ => ret tt) r0 world_one_short))
    = Some "c1" /\
  cookie_written (trace (handleOAuthGitHub flow_server r1 world_empty)) = Some "c2" /\
  In (EvRedirect "/short" 302)
     (trace (handleOAuthGitHubCallback flow_server r2 world_empty)) /\
  "/short" = RequestURI r0 /\ 302 = 302.
Proof.
  cbv zeta.
  assert (H1 : cookie_written
                 (trace (requireAuth flow_server (fun _ => ret tt)
                           (page_request Background None "/short") world_one_short))
               = Some "c1") by (vm_compute; reflexivity).
  assert (H2 : cookie_written
                 (trace (handleOAuthGitHub flow_server
                           (page_request Background (Some "c1") "/oauth/github")
                           world_empty)) = Some "c2") by (vm_compute; reflexivity).
  assert (H3 : In (EvRedirect "/short" 302)
     (trace (handleOAuthGitHubCallback flow_server
               (callback_request (Some "c2") flow_state "good-code") world_empty))).
  { vm_compute. right. right. right. right. left. reflexivity. }
  split; [exact H1|]. split; [exact H2|]. split; [exact H3|].
  apply (deferred_redirect flow_server (fun _ => ret tt)
           (page_request Background None "/short")
           (page_request Background (Some "c1") "/oauth/github")
           (callback_request (Some "c2") flow_state "good-code")
           world_one_short world_empty world_empty "c1" "c2"
           handleOAuthGitHub handleOAuthGitHubCallback flow_codec_round_trip
           eq_refl);
    [cbn; discriminate | exact H1 | left; reflexivity | reflexivity | exact H2
    | left; reflexivity | reflexivity | exact H3].
Defined.

(** X18: the state check passes when there is nothing to compare.  A
    callback request without a session cookie and without a [state]
    value (or with an empty one) is not refused: the empty state of the
    empty session equals the empty state of the request, and the handler
    goes on to exchange the code with the provider. *)
Theorem callback_without_state (s : Server) (r : Request) (w : World)
        (handler : Server -> Request -> H unit) (provider : string) :
  (handler = handleOAuthGitHubCallback /\ provider = AuthSourceGitHub) \/
  (handler = handleOAuthGoogleCallback /\ provider = AuthSourceGoogle) ->
  Cookie_session r = None -> FormValue r "state" = "" ->
  exists rest,
    trace (handler s r w) = EvExchange provider (FormValue r "code") :: rest.
Proof.
  intros Hh Hc Hst.
  assert (Hs : session s r = (Session_zero, None)) by (unfold session; now rewrite Hc).
  destruct Hh as [[-> ->] | [-> ->]];
    unfold handleOAuthGitHubCallback, handleOAuthGoogleCallback;
    rewrite Hs, Hst; cbn [State Session_zero String.eqb negb];
    match goal with
    | |- context [trace (bind (bind ?m ?f) ?k w)] =>
        destruct (trace_bind_prefix (bind m f) k w) as [rest1 E1];
        destruct (trace_bind_prefix m f w) as [rest2 E2];
        rewrite E1, E2
    end;
    exists (rest2 ++ rest1); reflexivity.
Qed.

Lemma callback_without_state_witness :
  exists rest,
    trace (handleOAuthGitHubCallback flow_server (callback_request None "" "good-code")
             world_empty)
    = EvExchange AuthSourceGitHub "good-code" :: rest.
Proof.
  apply (callback_without_state flow_server (callback_request None "" "good-code")
           world_empty handleOAuthGitHubCallback AuthSourceGitHub
           (or_introl (conj eq_refl eq_refl)) eq_refl eq_refl).
Defined.

(** Such a request logs a user in. *)
Example callback_without_state_run :
  trace (handleOAuthGitHubCallback flow_server (callback_request None "" "good-code")
           world_empty)
  = [EvExchange "github" "good-code"; EvFetchProfile "github";
     EvCreateAuth (assertion AuthSourceGitHub "123" "A" "a@x.com" "tok");
     EvSetCookie "session" "c3"; EvRedirect "/" 302].
Proof. vm_compute. reflexivity. Qed.

(** X19: on the cookie path [authenticate] never answers the request
    itself.  Without an API key header, and whatever the wrapped
    handler is: when the session has no user id the middleware does
    what the wrapped handler does on the request as it came, and
    nothing else; when the user service finds the user of the session
    it does what the wrapped handler does on the request whose context
    carries that user, and nothing else; and when the user is not
    found it writes one log line and then does what the wrapped handler
    does on the request as it came.  An error of reading the session is
    ignored. *)
Theorem authenticate_cookie_path (s : Server) (next : Request -> H unit)
        (r : Request) (w : World) :
  String.prefix "Bearer " (Header_Authorization r) = false ->
  (Session_UserID (fst (session s r)) = 0 ->
   authenticate s next r w = next r w) /\
  (forall user : User,
      Session_UserID (fst (session s r)) <> 0 ->
      UserService_FindUserByID s w (Session_UserID (fst (session s r))) = Ok user ->
      authenticate s next r w
      = next (WithContext r (NewContextWithUser (Ctx r) user)) w) /\
  (forall err : error,
      Session_UserID (fst (session s r)) <> 0 ->
      UserService_FindUserByID s w (Session_UserID (fst (session s r))) = Err err ->
      trace (authenticate s next r w)
      = EvLog "cannot find session user" :: trace (next r w) /\
      final (authenticate s next r w) = final (next r w) /\
      snd (authenticate s next r w) = snd (next r w)).
Proof.
  intros Hb. unfold authenticate. rewrite Hb.
  destruct (session s r) as [sess e]. cbn [fst].
  split; [|split].
  - intros Hz. apply Z.eqb_eq in Hz. rewrite Hz. cbn [negb].
    unfold bind, ret. destruct (next r w) as [[ev w'] o]. reflexivity.
  - intros user Hnz Hf. apply Z.eqb_neq in Hnz. rewrite Hnz. cbn [negb].
    unfold bind, world, ret. rewrite Hf.
    destruct (next _ w) as [[ev w'] o]. reflexivity.
  - intros err Hnz Hf. apply Z.eqb_neq in Hnz. rewrite Hnz. cbn [negb].
    unfold bind, world, emit, ret, trace, final. rewrite Hf.
    destruct (next r w) as [[ev w'] o]. cbn. repeat split.
Qed.

Lemma authenticate_cookie_path_witness :
  let r := page_request Background (Some "c3") "/short" in
  String.prefix "Bearer " (Header_Authorization r) = false /\
  Session_UserID (fst (session flow_server r)) = 1 /\
  UserService_FindUserByID flow_server world_one_short 1 = Ok alice /\
  forall next : Request -> H unit,
    authenticate flow_server next r world_one_short
    = next (WithContext r (NewContextWithUser (Ctx r) alice)) world_one_short.
Proof.
  cbv zeta.
  assert (Hb : String.prefix "Bearer "
                 (Header_Authorization (page_request Background (Some "c3") "/short"))
               = false) by reflexivity.
  assert (Hf : UserService_FindUserByID flow_server world_one_short
                 (Session_UserID
                    (fst (session flow_server
                            (page_request Background (Some "c3") "/short"))))
               = Ok alice) by reflexivity.
  split; [exact Hb|]. split; [reflexivity|]. split; [reflexivity|].
  intros next.
  destruct (authenticate_cookie_path flow_server next
              (page_request Background (Some "c3") "/short") world_one_short Hb)
    as (_ & Hfound & _).
  apply Hfound; [vm_compute; discriminate | exact Hf].
Defined.


End SessionFlows.

(* ------------------------------------------------------------------ *)
(** ** The short handlers: create, resolve, delete                      *)
(* ------------------------------------------------------------------ *)

Section ShortHandlers.
Import Http Routes HttpStatus.

Lemma generateKey_total (s : Server) (w : World) :
  exists w1 out, generateKey s w = ([], w1, Some out).
Proof.
  unfold generateKey.
  destruct (Generate.SecureStringFromAlphabet _ _ _) as [o rnd]. eauto.
Qed.

Lemma writeRunes_some {rune : Type} (arune : list rune) (bytes : list byte)
      (acc out : list rune) :
  Generate.writeRunes arune bytes acc = Some out ->
  exists l, out = acc ++ l /\ List.length l = List.length bytes /\
            Forall (fun c => In c arune) l.
Proof.
  revert acc. induction bytes as [|b bytes IH]; intros acc; cbn [Generate.writeRunes].
  - intros H. inversion H. exists []. rewrite app_nil_r. repeat split. constructor.
  - destruct (Generate.runeAt arune b) as [c|] eqn:Er; [|discriminate].
    intros H. destruct (IH _ H) as (l & -> & Hlen & Hall).
    exists (c :: l). rewrite <- app_assoc. cbn [app List.length]. repeat split.
    + now rewrite Hlen.
    + constructor; [|exact Hall].
      unfold Generate.runeAt in Er. destruct arune as [|a arune']; [discriminate|].
      eapply nth_error_In. exact Er.
Qed.

Lemma string_of_list_ascii_length (l : list ascii) :
  String.length (string_of_list_ascii l) = List.length l.
Proof.
  induction l as [|c l IH]; [reflexivity|]. cbn. now rewrite IH.
Qed.

Lemma generateKey_done (s : Server) (w w1 : World) (key : string) :
  generateKey s w = ([], w1, Some (Generate.Done key)) ->
  0 <= KeyLength s /\
  String.length key = Z.to_nat (KeyLength s) /\
  Forall (fun c => In c (list_ascii_of_string (Alphabet s))) (list_ascii_of_string key) /\
  (Z.to_nat (KeyLength s) <= List.length (w_rand w))%nat /\
  w1 = set_rand w (skipn (Z.to_nat (KeyLength s)) (w_rand w)).
Proof.
  unfold generateKey, Generate.SecureStringFromAlphabet, Generate.generateRandomBytes.
  destruct (Z.ltb_spec (KeyLength s) 0) as [|Hn]; [discriminate|].
  destruct (Nat.leb_spec (Z.to_nat (KeyLength s)) (List.length (w_rand w))) as [Hlen|];
    [|discriminate].
  destruct (Generate.writeRunes _ _ []) as [out|] eqn:Ew; [|discriminate].
  intros H. inversion H; subst. clear H.
  apply writeRunes_some in Ew. destruct Ew as (l & -> & Hl & Hall). cbn [app].
  rewrite string_of_list_ascii_length, list_ascii_of_string_of_list_ascii.
  repeat split; auto.
  rewrite Hl, length_firstn. lia.
Qed.

(** X20: every key the create handler gets from the generator has
    exactly [KeyLength] characters, all of them characters of the
    configured alphabet; the configured length is then not negative,
    and exactly that many bytes of the random source were read. *)
Theorem generateKey_shape (s : Server) (w w1 : World) (key : string) :
  generateKey s w = ([], w1, Some (Generate.Done key)) ->
  0 <= KeyLength s /\
  String.length key = Z.to_nat (KeyLength s) /\
  Forall (fun c => In c (list_ascii_of_string (Alphabet s))) (list_ascii_of_string key) /\
  (Z.to_nat (KeyLength s) <= List.length (w_rand w))%nat /\
  w1 = set_rand w (skipn (Z.to_nat (KeyLength s)) (w_rand w)).
Proof. exact (generateKey_done s w w1 key). Qed.

Lemma generateKey_shape_witness :
  generateKey test_server world_one_short
    = ([], set_rand world_one_short [], Some (Generate.Done "cccccc")) /\
  String.length "cccccc" = Z.to_nat (KeyLength test_server).
Proof.
  assert (H : generateKey test_server world_one_short
              = ([], set_rand world_one_short [], Some (Generate.Done "cccccc")))
    by (vm_compute; reflexivity).
  split; [exact H|].
  exact (proj1 (proj2 (generateKey_shape test_server world_one_short _ "cccccc" H))).
Defined.

(** X21: the key of a short never comes from the request.  Whatever the
    request carries, the short that the create handler passes to
    [CreateShort] has the key that the generator returned on the random
    source of the world. *)
Theorem create_key_is_generated (s : Server) (r : Request) (w : World) (short : Short) :
  In (EvCreateShort short) (trace (handleShortURLCreate s r w)) ->
  exists w1, generateKey s w = ([], w1, Some (Generate.Done (Key short))).
Proof.
  destruct (generateKey_total s w) as (w1 & out & Hg).
  unfold handleShortURLCreate.
  assert (Hrun : forall short0 : Short,
    In (EvCreateShort short)
       (trace ((out <- generateKey s ;;
                key <- match out with
                       | Generate.Done key => ret key
                       | Generate.Failed err => Error err ;;; Return
                       | Generate.Panic what => emit (EvPanic what) ;;; Return
                       end ;;
                res <- call_CreateShort s (Ctx r) (set_Key short0 key) ;;
                match res with
                | (Some err, _) => Error err ;;; Return
                | (None, short) =>
                    if (Header_Accept r =? "application/json")%string
                    then emit (EvEncodeShort short)
                    else emit (EvRenderNewShort
                                 (Server_URL s ++ "/s/" ++ Key short)%string
                                 (URL_String s (Short_URL short)))
                end) w)) ->
    exists w1, generateKey s w = ([], w1, Some (Generate.Done (Key short)))).
  { intros short0. unfold bind at 1. rewrite Hg.
    destruct out as [key|e|what].
    - unfold call_CreateShort, Error, bind, emit, ret, Return, trace. cbn.
      destruct (ShortService_CreateShort s (Ctx r) w1 (set_Key short0 key))
        as [[[e|] short'] w2]; cbn;
        [|destruct (Header_Accept r =? "application/json")%string; cbn];
        intros Hin;
        repeat match goal with
               | H : _ \/ _ |- _ => destruct H
               | H : False |- _ => destruct H
               | H : _ = EvCreateShort _ |- _ =>
                   first [discriminate H | inversion H; subst; clear H]
               end;
        cbn [Key set_Key]; eauto.
    - unfold Error, bind, emit, ret, Return, trace. cbn. intros [H|[]]. discriminate.
    - unfold bind, emit, ret, Return, trace. cbn. intros [H|[]]. discriminate. }
  revert Hrun. destruct (Header_Accept r =? "application/json")%string; intros Hrun.
  - destruct (Body_Short r) as [decoded|e].
    + unfold bind at 1. cbn [ret]. intros Hin. apply (Hrun decoded).
      revert Hin. unfold trace.
      match goal with
      | |- context [match ?x with _ => _ end] => destruct x as [[ev w'] o]
      end. cbn. auto.
    + unfold Error, bind, emit, Return, trace. cbn. intros [H|[]]. discriminate.
  - destruct (ParseRequestURI s (FormValue r "url")) as [url|e].
    + unfold bind at 1. cbn [ret]. intros Hin. apply (Hrun (set_URL Short_zero url)).
      revert Hin. unfold trace.
      match goal with
      | |- context [match ?x with _ => _ end] => destruct x as [[ev w'] o]
      end. cbn. auto.
    + unfold Error, bind, emit, Return, trace. cbn. intros [H|[]]. discriminate.
Qed.


Lemma create_key_is_generated_witness :
  In (EvCreateShort (set_Key (set_URL Short_zero example_com) "cccccc"))
     (trace (handleShortURLCreate test_server
               (create_request (as_user alice) "https://example.com") world_one_short)) /\
  exists w1, generateKey test_server world_one_short
             = ([], w1, Some (Generate.Done "cccccc")).
Proof.
  assert (Hin : In (EvCreateShort (set_Key (set_URL Short_zero example_com) "cccccc"))
                   (trace (handleShortURLCreate test_server
                             (create_request (as_user alice) "https://example.com")
                             world_one_short)))
    by (vm_compute; left; reflexivity).
  split; [exact Hin|].
  exact (create_key_is_generated test_server _ world_one_short _ Hin).
Defined.

Lemma filter_key_none (db : Sqlite.DB) (key : string) :
  filter (fun r => (Sqlite.shorts_key r =? key)%string) (Sqlite.shorts db) = [] ->
  forall row, In row (Sqlite.shorts db) -> Sqlite.shorts_key row <> key.
Proof.
  intros E row Hin Hk.
  assert (Hf : In row (filter (fun r => (Sqlite.shorts_key r =? key)%string)
                         (Sqlite.shorts db))).
  { apply filter_In. split; [exact Hin|]. now apply String.eqb_eq. }
  rewrite E in Hf. destruct Hf.
Qed.

(** What the resolving handler does on a key that no stored short has. *)
Lemma resolve_absent (s : Server) (r : Request) (w : World) :
  URLParam r "key" <> "" ->
  (forall row, In row (Sqlite.shorts (w_db w)) ->
               Sqlite.shorts_key row <> URLParam r "key") ->
  handleShortenedURL sqlite_FindShortByKey s r w
  = ([EvError (Errorf ENOTFOUND "Short not found.")], w, None).
Proof.
  intros Hkey Habs. unfold handleShortenedURL.
  destruct (String.eqb_spec (URLParam r "key") "") as [|_]; [contradiction|].
  unfold bind, world, sqlite_FindShortByKey, Sqlite.FindShortByKey.
  rewrite findShortByKey_found.
  destruct (filter _ (Sqlite.shorts (w_db w))) as [|row rows] eqn:E; [reflexivity|].
  exfalso.
  assert (Hf : In row (filter (fun r0 => (Sqlite.shorts_key r0 =? URLParam r "key")%string)
                         (Sqlite.shorts (w_db w)))) by (rewrite E; now left).
  apply filter_In in Hf. destruct Hf as [Hin Hk]. apply String.eqb_eq in Hk.
  exact (Habs row Hin Hk).
Qed.

(** X22: resolving a key never changes the store.  On a well-formed
    store the answer is either a permanent redirect (301) to the
    rendered URL of a stored short with that key, whose scheme is http
    or https, or the error NOTFOUND, and then no stored short has the
    key. *)
Theorem resolve_short (s : Server) (r : Request) (w : World) :
  ShortRows.wellformed (URL_String s) (w_db w) ->
  URLParam r "key" <> "" ->
  final (handleShortenedURL sqlite_FindShortByKey s r w) = w /\
  ((exists row,
       In row (Sqlite.shorts (w_db w)) /\
       Sqlite.shorts_key row = URLParam r "key" /\
       (Scheme (Sqlite.shorts_url row) = "http" \/
        Scheme (Sqlite.shorts_url row) = "https") /\
       trace (handleShortenedURL sqlite_FindShortByKey s r w)
       = [EvRedirect (URL_String s (Sqlite.shorts_url row)) 301]) \/
   ((forall row, In row (Sqlite.shorts (w_db w)) ->
                 Sqlite.shorts_key row <> URLParam r "key") /\
    trace (handleShortenedURL sqlite_FindShortByKey s r w)
    = [EvError (Errorf ENOTFOUND "Short not found.")])).
Proof.
  intros [_ Hrows] Hkey.
  destruct (filter (fun r0 => (Sqlite.shorts_key r0 =? URLParam r "key")%string)
              (Sqlite.shorts (w_db w))) as [|row rows] eqn:E.
  - pose proof (filter_key_none _ _ E) as Habs.
    rewrite (resolve_absent s r w Hkey Habs). split; [reflexivity|].
    right. split; [exact Habs | reflexivity].
  - assert (Hf : In row (filter (fun r0 => (Sqlite.shorts_key r0 =? URLParam r "key")%string)
                           (Sqlite.shorts (w_db w)))) by (rewrite E; now left).
    apply filter_In in Hf. destruct Hf as [Hin Hk]. apply String.eqb_eq in Hk.
    rewrite Forall_forall in Hrows. destruct (Hrows row Hin) as (_ & _ & Hsch & _ & Hown).
    destruct (findUserByID_member _ _ Hown) as [u Hu].
    unfold handleShortenedURL.
    destruct (String.eqb_spec (URLParam r "key") "") as [|_]; [contradiction|].
    unfold bind, world, sqlite_FindShortByKey, Sqlite.FindShortByKey.
    rewrite findShortByKey_found, E.
    unfold Sqlite.attachShortAssociations, Sqlite.scanShort. cbn [OwnerID].
    rewrite Hu. cbn. split; [reflexivity|].
    left. exists row. repeat split; auto.
Qed.

Lemma resolve_short_witness :
  ShortRows.wellformed (URL_String test_server) (w_db world_one_short) /\
  trace (handleShortenedURL sqlite_FindShortByKey test_server
           (key_request Background "aB3xY9") world_one_short)
  = [EvRedirect "https://example.com" 301] /\
  final (handleShortenedURL sqlite_FindShortByKey test_server
           (key_request Background "aB3xY9") world_one_short) = world_one_short.
Proof.
  assert (Hwf : ShortRows.wellformed (URL_String test_server) (w_db world_one_short)).
  { split.
    - cbn. constructor; [intros []|constructor].
    - constructor; [|constructor].
      unfold ShortRows.row_ok. cbn. repeat split; try discriminate; auto. }
  assert (Hkey : URLParam (key_request Background "aB3xY9") "key" <> "")
    by discriminate.
  pose proof (resolve_short test_server (key_request Background "aB3xY9")
                world_one_short Hwf Hkey) as [Hfin _].
  split; [exact Hwf|]. split; [vm_compute; reflexivity | exact Hfin].
Defined.



(** X24: deleting and then resolving.  When a stored short has the key
    of the route, the delete handler, whoever the caller is, calls
    [DeleteShort] once, sets the flash message and redirects to
    [/short] with 302; the store then holds the other shorts and no
    short with the key, and the route of the key answers NOTFOUND. *)
Theorem delete_then_resolve (s : Server) (r : Request) (w : World) :
  ShortService_DeleteShort s = sqlite_DeleteShort ->
  URLParam r "key" <> "" ->
  In (URLParam r "key") (map Sqlite.shorts_key (Sqlite.shorts (w_db w))) ->
  trace (handleShortURLDelete s r w)
  = [EvDeleteShort (URLParam r "key");
     EvSetCookie "flash" ("Successfully deleted short " ++ URLParam r "key" ++ ".")%string;
     EvRedirect "/short" 302] /\
  (forall row, In row (Sqlite.shorts (w_db (final (handleShortURLDelete s r w)))) <->
               In row (Sqlite.shorts (w_db w)) /\
               Sqlite.shorts_key row <> URLParam r "key") /\
  forall r' : Request, URLParam r' "key" = URLParam r "key" ->
    handleShortenedURL sqlite_FindShortByKey s r' (final (handleShortURLDelete s r w))
    = ([EvError (Errorf ENOTFOUND "Short not found.")],
       final (handleShortURLDelete s r w), None).
Proof.
  intros Hsvc Hkey Hin.
  apply in_map_iff in Hin. destruct Hin as (row0 & Hk0 & Hin0).
  assert (Hrun : handleShortURLDelete s r w
                 = ([EvDeleteShort (URLParam r "key");
                     EvSetCookie "flash"
                       ("Successfully deleted short " ++ URLParam r "key" ++ ".")%string;
                     EvRedirect "/short" 302],
                    set_db w (Sqlite.deleteShortRows (URLParam r "key") (w_db w)),
                    Some tt)).
  { unfold handleShortURLDelete.
    destruct (String.eqb_spec (URLParam r "key") "") as [|_]; [contradiction|].
    unfold call_DeleteShort, SetFlash, bind, emit. rewrite Hsvc.
    unfold sqlite_DeleteShort.
    rewrite (DeleteShort_found (Ctx r) (w_db w) (URLParam r "key") row0 Hin0 Hk0).
    reflexivity. }
  rewrite Hrun. unfold trace, final. cbn [fst snd w_db set_db].
  assert (Hrows : forall row,
             In row (Sqlite.shorts (Sqlite.deleteShortRows (URLParam r "key") (w_db w))) <->
             In row (Sqlite.shorts (w_db w)) /\ Sqlite.shorts_key row <> URLParam r "key").
  { intros row. unfold Sqlite.deleteShortRows. cbn [Sqlite.shorts Sqlite.set_shorts].
    rewrite filter_In.
    destruct (String.eqb_spec (Sqlite.shorts_key row) (URLParam r "key")); cbn [negb];
      split; intros [H1 H2]; split; auto; try discriminate; contradiction. }
  split; [reflexivity|]. split; [exact Hrows|].
  intros r' Hr'. apply resolve_absent.
  - now rewrite Hr'.
  - rewrite Hr'. cbn [w_db set_db]. intros row Hrow. now apply Hrows in Hrow.
Qed.

Lemma delete_then_resolve_witness :
  trace (handleShortURLDelete test_server (key_request (as_user bob) "aB3xY9")
           world_one_short)
  = [EvDeleteShort "aB3xY9";
     EvSetCookie "flash" "Successfully deleted short aB3xY9.";
     EvRedirect "/short" 302] /\
  trace (handleShortenedURL sqlite_FindShortByKey test_server
           (key_request Background "aB3xY9")
           (final (handleShortURLDelete test_server (key_request (as_user bob) "aB3xY9")
                     world_one_short)))
  = [EvError (Errorf ENOTFOUND "Short not found.")].
Proof.
  assert (Hsvc : ShortService_DeleteShort test_server = sqlite_DeleteShort) by reflexivity.
  assert (Hkey : URLParam (key_request (as_user bob) "aB3xY9") "key" <> "")
    by discriminate.
  assert (Hin : In (URLParam (key_request (as_user bob) "aB3xY9") "key")
                   (map Sqlite.shorts_key (Sqlite.shorts (w_db world_one_short))))
    by (left; reflexivity).
  pose proof (delete_then_resolve test_server (key_request (as_user bob) "aB3xY9")
                world_one_short Hsvc Hkey Hin) as (Htrace & _ & Hres).
  split; [exact Htrace|].
  rewrite (Hres (key_request Background "aB3xY9") eq_refl). reflexivity.
Defined.

End ShortHandlers.

(* ------------------------------------------------------------------ *)
(** ** Listing shorts                                                   *)
(* ------------------------------------------------------------------ *)

Lemma FindShorts_count_without_offset_witness :
  Filter_URL {| Filter_Key := None; Filter_URL := None; Offset := 0; Limit := 2 |}
    = None /\
  Offset {| Filter_Key := None; Filter_URL := None; Offset := 0; Limit := 2 |} <= 0 /\
  List.length (fst (fst (Sqlite.FindShorts db_three_shorts
     {| Filter_Key := None; Filter_URL := None; Offset := 0; Limit := 2 |}))) = 2%nat /\
  snd (fst (Sqlite.FindShorts db_three_shorts
     {| Filter_Key := None; Filter_URL := None; Offset := 0; Limit := 2 |})) = 3.
Proof.
  assert (Hoff : Offset {| Filter_Key := None; Filter_URL := None;
                           Offset := 0; Limit := 2 |} <= 0) by (cbn; lia).
  split; [reflexivity|]. split; [exact Hoff|]. split; [reflexivity|].
  exact (FindShorts_count_without_offset db_three_shorts
           {| Filter_Key := None; Filter_URL := None; Offset := 0; Limit := 2 |}
           eq_refl Hoff).
Defined.
